(** * Austin, Linux attach path: a shallow embedding

    The development follows two source files of the profiler:

    - [mem.h]: the remote memory reader [copy_memory] (Linux branch, built on
      [process_vm_readv]; its Windows and macOS branches are modelled apart);
    - [linux/py_proc.h]: the parser of [/proc/<pid>/maps]
      ([_py_proc__parse_maps_file]), the load-bias computation
      ([_get_base_64], [_get_base_32]), the two ELF analysers
      ([_py_proc__analyze_elf64], [_py_proc__analyze_elf32]), their dispatcher
      ([_py_proc__analyze_elf]), [_py_proc__get_resident_memory] and
      [_py_proc__init].

    Machine integers are [Z] with the wrap-around written out.  The operating
    system (the read system call, the maps listing as [sscanf] splits it, the
    files on disk) is an explicit argument of the functions that use it.
    Object files are byte lists, decoded little-endian with the field offsets
    of [<elf.h>]. *)

From Stdlib Require Import ZArith List String Ascii Bool Lia Permutation.
Import ListNotations.
Open Scope Z_scope.

(* ------------------------------------------------------------------------- *)
(** ** Machine integers *)

Definition wrap (w x : Z) : Z := x mod 2 ^ w.

(** Conversion to [uint64_t], [uint32_t], and to a host pointer. *)
Definition to_u64 (x : Z) : Z := wrap 64 x.
Definition to_u32 (x : Z) : Z := wrap 32 x.
Definition ptr (x : Z) : Z := wrap 64 x.

(** Conversion to [int] (two's complement, 32 bits). *)
Definition to_i32 (x : Z) : Z := (x + 2 ^ 31) mod 2 ^ 32 - 2 ^ 31.

Definition UINT64_MAX : Z := 2 ^ 64 - 1.
Definition UINT32_MAX : Z := 2 ^ 32 - 1.

(* ------------------------------------------------------------------------- *)
(** ** Strings *)

Definition nl : string := String (ascii_of_nat 10) EmptyString.

(** [strstr hay needle != NULL]. *)
Fixpoint strstr (hay needle : string) : bool :=
  String.prefix needle hay ||
  match hay with
  | EmptyString => false
  | String _ rest => strstr rest needle
  end.

Definition bytes_of_string (s : string) : list Z :=
  List.map (fun c => Z.of_nat (nat_of_ascii c)) (list_ascii_of_string s).

(* ------------------------------------------------------------------------- *)
(** ** mem.h: the remote memory reader *)

(** The error codes that [set_error] stores in the process-wide error slot
    ([error.h] gives them numbers; only their identity matters here). *)
Inductive error_t : Set :=
| EPROCVM
| EPROCPERM
| EPROCNPID
| EMEMCOPY.

(** Values of [errno] from [<errno.h>] on Linux. *)
Definition EPERM  : Z := 1.
Definition ENOENT : Z := 2.
Definition ESRCH  : Z := 3.
Definition EACCES : Z := 13.

(** What one call of [process_vm_readv] answers: its return value (the number
    of bytes transferred, or -1), the [errno] it leaves, and the bytes it
    found at the remote address. *)
Record readv_reply : Type := {
  rv_result : Z;
  rv_errno  : Z;
  rv_data   : list Z
}.

(** The kernel, as seen through [process_vm_readv pid local 1 remote 1 0]
    with a single remote range [(addr, len)]. *)
Definition kernel : Type := Z -> Z -> Z -> readv_reply.

(** One issued read system call: pid, remote address, length. *)
Record syscall : Type := {
  sc_pid  : Z;
  sc_addr : Z;
  sc_len  : Z
}.

(** Process-wide state: the last-error slot, the reads issued so far (ghost
    state, oldest first), and the global [ehdr_v] of [linux/py_proc.h] as its
    64 bytes. *)
Record world : Type := {
  austin_errno : option error_t;
  issued       : list syscall;
  ehdr_v       : list Z
}.

Definition set_error (e : error_t) (w : world) : world :=
  {| austin_errno := Some e; issued := issued w; ehdr_v := ehdr_v w |}.

Definition log_syscall (c : syscall) (w : world) : world :=
  {| austin_errno := austin_errno w; issued := issued w ++ [c];
     ehdr_v := ehdr_v w |}.

Definition set_ehdr_v (b : list Z) (w : world) : world :=
  {| austin_errno := austin_errno w; issued := issued w; ehdr_v := b |}.

(** The local buffer after the kernel transferred [n] bytes into it. *)
Definition transfer (buf data : list Z) (n : Z) : list Z :=
  let got := firstn (Z.to_nat n) data in
  got ++ skipn (List.length got) buf.

(** [copy_memory], Linux branch.  Returns the C result ([result != len]), the
    destination buffer and the new process-wide state. *)
Definition copy_memory (k : kernel) (pid addr len : Z) (buf : list Z)
    (w : world) : Z * list Z * world :=
  let reply  := k pid addr len in
  let result := rv_result reply in
  let w1     := log_syscall {| sc_pid := pid; sc_addr := addr; sc_len := len |} w in
  let w2     :=
    if result =? -1 then
      if rv_errno reply =? ESRCH then set_error EPROCNPID w1
      else if rv_errno reply =? EPERM then set_error EPROCPERM w1
      else set_error EMEMCOPY w1
    else w1 in
  (Z.b2z (negb (result =? len)), transfer buf (rv_data reply) result, w2).

(** The bounds check the claim asks of the reader: [min <= addr < max]. *)
Definition in_bounds (min_addr max_addr addr : Z) : bool :=
  (min_addr <=? addr) && (addr <? max_addr).

(* ------------------------------------------------------------------------- *)
(** ** linux/py_proc.h: data *)

Definition BIN_MAP    : Z := Z.shiftl 1 0.
Definition DYNSYM_MAP : Z := Z.shiftl 1 1.
Definition RODATA_MAP : Z := Z.shiftl 1 2.
Definition HEAP_MAP   : Z := Z.shiftl 1 3.
Definition BSS_MAP    : Z := Z.shiftl 1 4.

Definition SYMBOLS : Z := 2.

Record proc_vm_map_block_t : Type := {
  base : Z;
  size : Z
}.

Record proc_vm_map_t : Type := {
  elf  : proc_vm_map_block_t;
  heap : proc_vm_map_block_t;
  bss  : proc_vm_map_block_t
}.

(** Modelled from the spec: the runtime anchors of [py_proc_t], whose
    declaration ([py_proc.h]) is not part of the sources at hand.  The
    remote addresses of the runtime's global state and of the thread-state
    head; 0 is [NULL]. *)
Record runtime_anchors : Type := {
  runtime_raddr : Z;
  tstate_raddr  : Z
}.

(** The fields of [py_proc_t] that [linux/py_proc.h] reads and writes. *)
Record py_proc_t : Type := {
  pid       : Z;
  bin_path  : option string;
  lib_path  : option string;
  min_raddr : Z;
  max_raddr : Z;
  proc_map  : proc_vm_map_t;          (* [self->map] *)
  anchors   : runtime_anchors
}.

Definition with_bounds (lo hi : Z) (self : py_proc_t) : py_proc_t :=
  {| pid := pid self; bin_path := bin_path self; lib_path := lib_path self;
     min_raddr := lo; max_raddr := hi; proc_map := proc_map self;
     anchors := anchors self |}.

Definition with_paths (b l : option string) (self : py_proc_t) : py_proc_t :=
  {| pid := pid self; bin_path := b; lib_path := l;
     min_raddr := min_raddr self; max_raddr := max_raddr self;
     proc_map := proc_map self; anchors := anchors self |}.

Definition with_map (m : proc_vm_map_t) (self : py_proc_t) : py_proc_t :=
  {| pid := pid self; bin_path := bin_path self; lib_path := lib_path self;
     min_raddr := min_raddr self; max_raddr := max_raddr self;
     proc_map := m; anchors := anchors self |}.

Definition with_anchors (a : runtime_anchors) (self : py_proc_t) : py_proc_t :=
  {| pid := pid self; bin_path := bin_path self; lib_path := lib_path self;
     min_raddr := min_raddr self; max_raddr := max_raddr self;
     proc_map := proc_map self; anchors := a |}.

Definition set_elf (b : proc_vm_map_block_t) (m : proc_vm_map_t) : proc_vm_map_t :=
  {| elf := b; heap := heap m; bss := bss m |}.

Definition set_heap (b : proc_vm_map_block_t) (m : proc_vm_map_t) : proc_vm_map_t :=
  {| elf := elf m; heap := b; bss := bss m |}.

Definition set_bss (b : proc_vm_map_block_t) (m : proc_vm_map_t) : proc_vm_map_t :=
  {| elf := elf m; heap := heap m; bss := b |}.

Definition is_null {A : Type} (p : option A) : bool :=
  match p with None => true | Some _ => false end.

(* ------------------------------------------------------------------------- *)
(** ** Object files as bytes *)

(** The byte at offset [off] of a mapped file; offsets past the end read as
    zero (access faults are a matter of memory layout and are not modelled). *)
Fixpoint byte_at (img : list Z) (off : Z) : Z :=
  match img with
  | [] => 0
  | b :: rest => if off =? 0 then b mod 256 else byte_at rest (off - 1)
  end.

(** Little-endian read of [n] bytes. *)
Fixpoint rd (img : list Z) (off : Z) (n : nat) : Z :=
  match n with
  | O => 0
  | S m => byte_at img off + 256 * rd img (off + 1) m
  end.

Fixpoint drop (img : list Z) (off : Z) : list Z :=
  match img with
  | [] => []
  | b :: rest => if off =? 0 then img else drop rest (off - 1)
  end.

Fixpoint take_cstr (l : list Z) : string :=
  match l with
  | [] => EmptyString
  | b :: rest =>
      if b mod 256 =? 0 then EmptyString
      else String (ascii_of_nat (Z.to_nat (b mod 256))) (take_cstr rest)
  end.

(** The NUL-terminated string at [off]. *)
Definition cstr_at (img : list Z) (off : Z) : string := take_cstr (drop img off).

(** A field of a C struct: byte offset and size. *)
Definition field : Type := (Z * nat)%type.

Definition get (img : list Z) (p : Z) (f : field) : Z :=
  rd img (ptr (p + fst f)) (snd f).

(** Constants of [<elf.h>]. *)
Definition ELFMAG     : list Z := [127; 69; 76; 70].   (* "\177ELF" *)
Definition SELFMAG    : nat := 4.
Definition EI_CLASS   : Z := 4.
Definition ELFCLASS32 : Z := 1.
Definition ELFCLASS64 : Z := 2.
Definition ET_EXEC    : Z := 2.
Definition PT_LOAD    : Z := 1.
Definition SHT_DYNSYM : Z := 11.

(** The two ELF classes: the width of [Elf_Addr] and [Elf_Off], and where the
    fields the analysers read sit in [Elf_Ehdr], [Elf_Phdr], [Elf_Shdr] and
    [Elf_Sym]. *)
Record elf_class : Type := {
  width        : Z;
  f_e_type      : field;
  f_e_phoff     : field;
  f_e_shoff     : field;
  f_e_phentsize : field;
  f_e_phnum     : field;
  f_e_shentsize : field;
  f_e_shnum     : field;
  f_e_shstrndx  : field;
  f_p_type      : field;
  f_p_vaddr     : field;
  f_p_align     : field;
  f_sh_name     : field;
  f_sh_type     : field;
  f_sh_addr     : field;
  f_sh_offset   : field;
  f_sh_size     : field;
  f_sh_link     : field;
  f_sh_entsize  : field;
  f_st_name     : field;
  f_st_value    : field
}.

Definition ELF64 : elf_class := {|
  width := 64;
  f_e_type := (16, 2%nat);
  f_e_phoff := (32, 8%nat);      f_e_shoff := (40, 8%nat);
  f_e_phentsize := (54, 2%nat);  f_e_phnum := (56, 2%nat);
  f_e_shentsize := (58, 2%nat);  f_e_shnum := (60, 2%nat);
  f_e_shstrndx := (62, 2%nat);
  f_p_type := (0, 4%nat);        f_p_vaddr := (16, 8%nat);
  f_p_align := (48, 8%nat);
  f_sh_name := (0, 4%nat);       f_sh_type := (4, 4%nat);
  f_sh_addr := (16, 8%nat);      f_sh_offset := (24, 8%nat);
  f_sh_size := (32, 8%nat);      f_sh_link := (40, 4%nat);
  f_sh_entsize := (56, 8%nat);
  f_st_name := (0, 4%nat);       f_st_value := (8, 8%nat)
|}.

Definition ELF32 : elf_class := {|
  width := 32;
  f_e_type := (16, 2%nat);
  f_e_phoff := (28, 4%nat);      f_e_shoff := (32, 4%nat);
  f_e_phentsize := (42, 2%nat);  f_e_phnum := (44, 2%nat);
  f_e_shentsize := (46, 2%nat);  f_e_shnum := (48, 2%nat);
  f_e_shstrndx := (50, 2%nat);
  f_p_type := (0, 4%nat);        f_p_vaddr := (8, 4%nat);
  f_p_align := (28, 4%nat);
  f_sh_name := (0, 4%nat);       f_sh_type := (4, 4%nat);
  f_sh_addr := (12, 4%nat);      f_sh_offset := (16, 4%nat);
  f_sh_size := (20, 4%nat);      f_sh_link := (24, 4%nat);
  f_sh_entsize := (36, 4%nat);
  f_st_name := (0, 4%nat);       f_st_value := (4, 4%nat)
|}.

(** [e_ident[i]]. *)
Definition e_ident (ehdr : list Z) (i : Z) : Z := byte_at ehdr i.

(** [memcmp(ehdr.e_ident, ELFMAG, SELFMAG) != 0]. *)
Definition memcmp_magic (ehdr : list Z) : bool :=
  negb (forallb (fun p => e_ident ehdr (fst p) =? snd p)
          (combine [0; 1; 2; 3] ELFMAG)).

(* ------------------------------------------------------------------------- *)
(** ** The files on disk and the maps listing *)

(** A file system: what [stat] reports as [st_size] for a path, and the bytes
    [mmap] shows of the file at that path (none for a path that cannot be
    opened). *)
Record filesystem : Type := {
  st_size  : string -> Z;
  contents : string -> list Z
}.

(** A file that [open] and [mmap] give access to.  The file system shows no
    byte of a path that cannot be opened, and none of an empty file.  The
    code does not test what [open] and [mmap] return: on such a file it
    dereferences a mapping that is not there, and the process dies. *)
Definition mappable (fs : filesystem) (path : string) : bool :=
  match contents fs path with
  | [] => false
  | _ :: _ => true
  end.

(** [_elf_is_executable]: the file's header has [e_type == ET_EXEC].  The
    function is given here on the files that are [mappable]; the properties
    that depend on it name that precondition. *)
Definition _elf_is_executable (fs : filesystem) (object_file : string) : bool :=
  get (contents fs object_file) 0 (f_e_type ELF64) =? ET_EXEC.

Definition _file_size (fs : filesystem) (file : string) : Z :=
  st_size fs file.

(** One line of [/proc/<pid>/maps]: its text as [getline] returns it, and what
    [sscanf] makes of it with the format of [_py_proc__parse_maps_file]: the
    number of matched items, the two bounds, and the content of [pathname]
    afterwards (stale when fewer than 8 items matched). *)
Record maps_line : Type := {
  line     : string;
  matched  : Z;
  lower    : Z;
  upper    : Z;
  pathname : string
}.

(** What [fopen] of the maps file gives: an [errno], or the lines. *)
Inductive maps_file : Type :=
| FopenFailed (errno : Z)
| MapsLines (lines : list maps_line).

(* ------------------------------------------------------------------------- *)
(** ** linux/py_proc.h: [_py_proc__parse_maps_file] *)

(** Modelled from the spec: the macro [sfree] ([hints.h], not part of the
    sources at hand), which releases a string and leaves [NULL] in the
    pointer, so that the loader populates the paths afresh. *)
Definition sfree (p : option string) : option string := None.

(** The block [(void * ) lower, upper - lower] of a maps line. *)
Definition block_of (e : maps_line) : proc_vm_map_block_t :=
  {| base := ptr (lower e); size := to_u64 (upper e - lower e) |}.

(** The two [if]s that widen [min_raddr] and [max_raddr]. *)
Definition widen (e : maps_line) (self : py_proc_t) : py_proc_t :=
  let lo := if ptr (lower e) <? min_raddr self then ptr (lower e)
            else min_raddr self in
  let hi := if max_raddr self <? ptr (upper e) then ptr (upper e)
            else max_raddr self in
  with_bounds lo hi self.

(** The condition under which a line takes part in the bounds: no pathname
    was matched, or the pathname does not contain ["[v"]. *)
Definition counts_for_bounds (e : maps_line) : bool :=
  (matched e - 7 =? 0) || negb (strstr (pathname e) "[v").

(** The body of the [while (getline ...)] loop, on the pair of [self] and
    [maps_flag]. *)
Definition parse_line (fs : filesystem) (st : py_proc_t * Z) (e : maps_line)
    : py_proc_t * Z :=
  let '(self, maps_flag) := st in
  let field_count := matched e - 7 in
  if 0 <=? field_count then
    let self := if counts_for_bounds e then widen e self else self in
    if (Z.land maps_flag HEAP_MAP =? 0) && strstr (line e) ("[heap]" ++ nl) then
      (with_map (set_heap (block_of e) (proc_map self)) self,
       Z.lor maps_flag HEAP_MAP)
    else if negb (strstr (line e) "python") then (self, maps_flag)
    else
      let file_size := _file_size fs (pathname e) in
      if _elf_is_executable fs (pathname e) then
        if negb (is_null (bin_path self)) || (file_size <? Z.shiftl 1 20) then
          (self, maps_flag)
        else
          (with_map (set_elf (block_of e) (proc_map self))
             (with_paths (Some (pathname e)) (lib_path self) self),
           maps_flag)
      else
        if negb (is_null (bin_path self)) || negb (is_null (lib_path self))
           || (file_size <? Z.shiftl 1 20) then
          (self, maps_flag)
        else
          (with_map (set_elf (block_of e) (proc_map self))
             (with_paths (bin_path self) (Some (pathname e)) self),
           maps_flag)
  else (self, maps_flag).

(** The value returned at the end of [_py_proc__parse_maps_file]. *)
Definition maps_result (self : py_proc_t) (maps_flag : Z) : Z :=
  Z.b2z ((is_null (bin_path self) && is_null (lib_path self))
         || negb (maps_flag =? HEAP_MAP)).

Definition _py_proc__parse_maps_file (fs : filesystem) (mf : maps_file)
    (self : py_proc_t) (w : world) : Z * py_proc_t * world :=
  match mf with
  | FopenFailed errno =>
      let w :=
        if errno =? EACCES then set_error EPROCPERM w
        else if errno =? ENOENT then set_error EPROCNPID w
        else set_error EPROCVM w in
      (maps_result self 0, self, w)
  | MapsLines lines =>
      let self := with_bounds (ptr (-1)) 0 self in
      let self := with_paths (sfree (bin_path self)) (sfree (lib_path self)) self in
      let '(self, maps_flag) := fold_left (parse_line fs) lines (self, 0) in
      (maps_result self maps_flag, self, w)
  end.

(** [object_file] of the two analysers:
    [self->lib_path != NULL ? self->lib_path : self->bin_path]. *)
Definition object_file (self : py_proc_t) : option string :=
  match lib_path self with
  | Some l => Some l
  | None => bin_path self
  end.

(* ------------------------------------------------------------------------- *)
(** ** linux/py_proc.h: the ELF analysers *)

(** How a run ends: with a value, with a fault of the process (a division by
    zero, a [NULL] path given to [open], the use of a mapping that [mmap]
    did not give), or with the fuel of a loop used up. *)
Inductive outcome (A : Type) : Type :=
| Done (a : A)
| Fault
| OutOfFuel.

Arguments Done {A} a.
Arguments Fault {A}.
Arguments OutOfFuel {A}.

Definition bind {A B : Type} (m : outcome A) (f : A -> outcome B) : outcome B :=
  match m with
  | Done a => f a
  | Fault => Fault
  | OutOfFuel => OutOfFuel
  end.

Notation "x <- m ;; k" := (bind m (fun x => k))
  (at level 61, m at next level, right associativity).
Notation "' p <- m ;; k" := (bind m (fun x => match x with p => k end))
  (at level 61, p pattern, m at next level, right associativity).

Section Analysis.

(** The class of the object file: the analysers for 32 and 64 bits are the
    same text over the two families of [Elf32_*] and [Elf64_*] types, apart
    from the [.bss] branch that only the 64-bit one has. *)
Variable L : elf_class.
Variable with_bss : bool.

(** [_py_proc__check_sym] ([py_proc.c]) is not part of the sources at hand
    and is a parameter of the analysis.  Given a symbol name and its remote
    address it may store the address in the anchors, and it reports whether
    an anchor was resolved (1) or not (0). *)
Variable check_sym : string -> Z -> runtime_anchors -> bool * runtime_anchors.

Definition e_phoff (ehdr : list Z) := get ehdr 0 (f_e_phoff L).
Definition e_shoff (ehdr : list Z) := get ehdr 0 (f_e_shoff L).
Definition e_phentsize (ehdr : list Z) := get ehdr 0 (f_e_phentsize L).
Definition e_phnum (ehdr : list Z) := get ehdr 0 (f_e_phnum L).
Definition e_shentsize (ehdr : list Z) := get ehdr 0 (f_e_shentsize L).
Definition e_shnum (ehdr : list Z) := get ehdr 0 (f_e_shnum L).
Definition e_shstrndx (ehdr : list Z) := get ehdr 0 (f_e_shstrndx L).

Definition p_type (m : list Z) (p : Z) := get m p (f_p_type L).
Definition p_vaddr (m : list Z) (p : Z) := get m p (f_p_vaddr L).
Definition p_align (m : list Z) (p : Z) := get m p (f_p_align L).

Definition sh_name (m : list Z) (p : Z) := get m p (f_sh_name L).
Definition sh_type (m : list Z) (p : Z) := get m p (f_sh_type L).
Definition sh_addr (m : list Z) (p : Z) := get m p (f_sh_addr L).
Definition sh_offset (m : list Z) (p : Z) := get m p (f_sh_offset L).
Definition sh_size (m : list Z) (p : Z) := get m p (f_sh_size L).
Definition sh_link (m : list Z) (p : Z) := get m p (f_sh_link L).
Definition sh_entsize (m : list Z) (p : Z) := get m p (f_sh_entsize L).

Definition st_name (m : list Z) (p : Z) := get m p (f_st_name L).
Definition st_value (m : list Z) (p : Z) := get m p (f_st_value L).

(** [UINT64_MAX] or [UINT32_MAX]. *)
Definition no_base : Z := 2 ^ width L - 1.

(** The offset in the file of the [i]th program header:
    [ehdr->e_phoff + i * ehdr->e_phentsize], the product taken in [int]. *)
Definition phdr_off (ehdr : list Z) (i : Z) : Z :=
  ptr (e_phoff ehdr + to_i32 (i * e_phentsize ehdr)).

(** The loop of [_get_base_64] and [_get_base_32], entered at index [i]
    with [n] indices left; [Fault] is the division by a zero [p_align]. *)
Fixpoint get_base_from (ehdr elf_map : list Z) (n : nat) (i : Z) : outcome Z :=
  match n with
  | O => Done no_base
  | S n' =>
      let phdr := phdr_off ehdr i in
      if p_type elf_map phdr =? PT_LOAD then
        if p_align elf_map phdr =? 0 then Fault
        else Done (p_vaddr elf_map phdr
                   - p_vaddr elf_map phdr mod p_align elf_map phdr)
      else get_base_from ehdr elf_map n' (i + 1)
  end.

Definition get_base (ehdr elf_map : list Z) : outcome Z :=
  get_base_from ehdr elf_map (Z.to_nat (e_phnum ehdr)) 0.

(** [ELF_SH_OFF(ehdr, i)] for an index of type [Elf_Half] (the product is
    an [int]) and for one of type [Elf_Word] (the product is an
    [unsigned int]). *)
Definition ELF_SH_OFF_half (ehdr : list Z) (i : Z) : Z :=
  wrap (width L) (e_shoff ehdr + to_i32 (i * e_shentsize ehdr)).

Definition ELF_SH_OFF_word (ehdr : list Z) (i : Z) : Z :=
  wrap (width L) (e_shoff ehdr + to_u32 (i * e_shentsize ehdr)).

(** The name of the section whose header is at [p_shdr]:
    [sh_name_base + p_shdr->sh_name]. *)
Definition section_name (elf_map : list Z) (sh_name_base p_shdr : Z) : string :=
  cstr_at elf_map (ptr (sh_name_base + sh_name elf_map p_shdr)).

(** The block stored in [self->map.bss] for the header at [p_shdr]. *)
Definition bss_block (elf_map : list Z) (vbase p_shdr : Z) (self : py_proc_t)
    : proc_vm_map_block_t :=
  {| base := ptr (base (elf (proc_map self))
                  + wrap (width L) (sh_addr elf_map p_shdr - vbase));
     size := sh_size elf_map p_shdr |}.

(** One turn of the loop over the section headers, on [p_dynsym] and
    [self]; [vbase] is the local [base]. *)
Definition section_step (elf_map : list Z) (sh_name_base vbase p_shdr : Z)
    (st : option Z * py_proc_t) : option Z * py_proc_t :=
  let '(p_dynsym, self) := st in
  if (sh_type elf_map p_shdr =? SHT_DYNSYM)
     && String.eqb (section_name elf_map sh_name_base p_shdr) ".dynsym"
  then (Some p_shdr, self)
  else if with_bss
          && String.eqb (section_name elf_map sh_name_base p_shdr) ".bss"
  then (p_dynsym,
        with_map (set_bss (bss_block elf_map vbase p_shdr self) (proc_map self))
          self)
  else (p_dynsym, self).

(** [for (sh_off = ehdr.e_shoff; sh_off < elf_map_size;
         sh_off += ehdr.e_shentsize)]. *)
Fixpoint scan_sections (fuel : nat) (ehdr elf_map : list Z)
    (sh_name_base vbase elf_map_size sh_off : Z)
    (st : option Z * py_proc_t) : outcome (option Z * py_proc_t) :=
  match fuel with
  | O => OutOfFuel
  | S fuel' =>
      if sh_off <? elf_map_size then
        scan_sections fuel' ehdr elf_map sh_name_base vbase elf_map_size
          (wrap (width L) (sh_off + e_shentsize ehdr))
          (section_step elf_map sh_name_base vbase sh_off st)
      else Done st
  end.

(** The name and the remote address handed to [_py_proc__check_sym] for the
    symbol entry at [tab_off]. *)
Definition sym_name (elf_map : list Z) (strtab_off tab_off : Z) : string :=
  cstr_at elf_map (ptr (strtab_off + st_name elf_map tab_off)).

Definition sym_value (elf_map : list Z) (elf_base vbase tab_off : Z) : Z :=
  ptr (elf_base + wrap (width L) (st_value elf_map tab_off - vbase)).

(** [for (tab_off = sh_offset; tab_off < sh_offset + sh_size;
         tab_off += sh_entsize)] with its [break].  Besides [symbols] and
    the anchors, the loop reports (ghost state) the entries it examined, in
    order, each with the answer of [_py_proc__check_sym]. *)
Fixpoint scan_symbols (fuel : nat) (elf_map : list Z)
    (strtab_off elf_base vbase bound entsize tab_off symbols : Z)
    (a : runtime_anchors)
    : outcome (Z * runtime_anchors * list (Z * bool)) :=
  match fuel with
  | O => OutOfFuel
  | S fuel' =>
      if tab_off <? bound then
        let '(r, a') :=
          check_sym (sym_name elf_map strtab_off tab_off)
                    (sym_value elf_map elf_base vbase tab_off) a in
        let symbols' := symbols + Z.b2z r in
        if SYMBOLS <=? symbols' then Done (symbols', a', [(tab_off, r)])
        else
          '(s, a'', seen) <-
            scan_symbols fuel' elf_map strtab_off elf_base vbase bound
              entsize (wrap (width L) (tab_off + entsize)) symbols' a' ;;
          Done (s, a'', (tab_off, r) :: seen)
      else Done (symbols, a, [])
  end.

(** The part of the analysers after the section loop: the two [if]s on
    [p_dynsym] and the symbol loop.  Gives [symbols], the anchors and the
    examined entries. *)
Definition resolve_symbols (fuel : nat) (ehdr elf_map : list Z) (vbase : Z)
    (p_dynsym : option Z) (self : py_proc_t)
    : outcome (Z * runtime_anchors * list (Z * bool)) :=
  match p_dynsym with
  | None => Done (0, anchors self, [])
  | Some d =>
      if sh_offset elf_map d =? 0 then Done (0, anchors self, [])
      else
        let p_strtabsh := ELF_SH_OFF_word ehdr (sh_link elf_map d) in
        scan_symbols fuel elf_map
          (sh_offset elf_map p_strtabsh)
          (base (elf (proc_map self))) vbase
          (wrap (width L) (sh_offset elf_map d + sh_size elf_map d))
          (sh_entsize elf_map d)
          (sh_offset elf_map d) 0 (anchors self)
  end.

(** The body shared by [_py_proc__analyze_elf64] and
    [_py_proc__analyze_elf32]: the result [!symbols], the new [self] and
    the examined symbol entries.  The results of [open] and [mmap] are not
    tested: [mmap] fails on a length of zero and on a file that could not be
    opened, and the pages of an empty file cannot be read, so that the
    first use of the mapping, [p_shstrtab->sh_offset], is a fault then. *)
Definition analyze_elf_class (fs : filesystem) (fuel : nat) (ehdr : list Z)
    (self : py_proc_t) : outcome (Z * py_proc_t * list (Z * bool)) :=
  match object_file self with
  | None => Fault
  | Some path =>
      let sht_size := to_u64 (to_i32 (e_shnum ehdr * e_shentsize ehdr)) in
      let elf_map_size := wrap (width L) (e_shoff ehdr + sht_size) in
      let elf_map := contents fs path in
      if (elf_map_size =? 0) || negb (mappable fs path) then Fault
      else
        let p_shstrtab := ELF_SH_OFF_half ehdr (e_shstrndx ehdr) in
        let sh_name_base := sh_offset elf_map p_shstrtab in
        vbase <- get_base ehdr elf_map ;;
        if negb (vbase =? no_base) then
          '(p_dynsym, self) <-
            scan_sections fuel ehdr elf_map sh_name_base vbase elf_map_size
              (e_shoff ehdr) (None, self) ;;
          '(symbols, a, seen) <-
            resolve_symbols fuel ehdr elf_map vbase p_dynsym self ;;
          Done (Z.b2z (symbols =? 0), with_anchors a self, seen)
        else Done (Z.b2z (0 =? 0), self, [])
  end.

End Analysis.

Definition _get_base_64 (ehdr elf_map : list Z) : outcome Z :=
  get_base ELF64 ehdr elf_map.

Definition _get_base_32 (ehdr elf_map : list Z) : outcome Z :=
  get_base ELF32 ehdr elf_map.

(** The analysers take their header from the global [ehdr_v]
    ([ehdr = ehdr_v.v64], [ehdr = ehdr_v.v32]). *)
Definition _py_proc__analyze_elf64
    (check_sym : string -> Z -> runtime_anchors -> bool * runtime_anchors)
    (fs : filesystem) (fuel : nat) (self : py_proc_t) (w : world)
    : outcome (Z * py_proc_t * list (Z * bool)) :=
  analyze_elf_class ELF64 true check_sym fs fuel (ehdr_v w) self.

Definition _py_proc__analyze_elf32
    (check_sym : string -> Z -> runtime_anchors -> bool * runtime_anchors)
    (fs : filesystem) (fuel : nat) (self : py_proc_t) (w : world)
    : outcome (Z * py_proc_t * list (Z * bool)) :=
  analyze_elf_class ELF32 false check_sym fs fuel (ehdr_v w) self.

(** Modelled from the spec: the macros [SUCCESS] and [FAIL] ([error.h], not
    part of the sources at hand) leave the function with its result: zero on
    success, non-zero on failure. *)
Definition SUCCESS : Z := 0.
Definition FAIL : Z := 1.

(** Modelled from the spec: [py_proc__memcpy] ([py_proc.h], not part of the
    sources at hand) reads the target through the remote memory reader, with
    the pid of [self]. *)
Definition py_proc__memcpy (k : kernel) (self : py_proc_t) (raddr len : Z)
    (buf : list Z) (w : world) : Z * list Z * world :=
  copy_memory k (pid self) raddr len buf w.

(** [sizeof(ehdr_v)]: the union of a 52-byte and a 64-byte header. *)
Definition sizeof_ehdr_v : Z := 64.

(** The test of [_py_proc__analyze_elf] on its local [ehdr], an
    [Elf64_Ehdr]. *)
Definition invalid_elf_format (ehdr : list Z) : bool :=
  (e_shoff ELF64 ehdr =? 0) || (e_shnum ELF64 ehdr <? 2) || memcmp_magic ehdr.

(** [_py_proc__analyze_elf].  The local [ehdr] is initialised from [ehdr_v]
    in its declaration, which comes before the read into [ehdr_v]. *)
Definition _py_proc__analyze_elf
    (check_sym : string -> Z -> runtime_anchors -> bool * runtime_anchors)
    (k : kernel) (fs : filesystem) (fuel : nat) (self : py_proc_t) (w : world)
    : outcome (Z * py_proc_t * list (Z * bool)) * world :=
  let ehdr := ehdr_v w in
  let '(failed, buf, w) :=
    py_proc__memcpy k self (base (elf (proc_map self))) sizeof_ehdr_v
      (ehdr_v w) w in
  let w := set_ehdr_v buf w in
  if negb (failed =? 0) then (Done (FAIL, self, []), w)
  else if invalid_elf_format ehdr then (Done (FAIL, self, []), w)
  else if e_ident ehdr EI_CLASS =? ELFCLASS32 then
    (_py_proc__analyze_elf32 check_sym fs fuel self w, w)
  else if e_ident ehdr EI_CLASS =? ELFCLASS64 then
    (_py_proc__analyze_elf64 check_sym fs fuel self w, w)
  else (Done (FAIL, self, []), w).

(** [_py_proc__init], up to the point where it is decided whether sampling
    goes on ([SUCCESS]) or not ([FAIL]); [self] is valid. *)
Definition _py_proc__init
    (check_sym : string -> Z -> runtime_anchors -> bool * runtime_anchors)
    (k : kernel) (fs : filesystem) (mf : maps_file) (fuel : nat)
    (self : py_proc_t) (w : world) : outcome (Z * py_proc_t) * world :=
  let '(r, self, w) := _py_proc__parse_maps_file fs mf self w in
  if negb (r =? 0) then (Done (FAIL, self), w)
  else
    let '(o, w) := _py_proc__analyze_elf check_sym k fs fuel self w in
    ('(r, self, _) <- o ;;
     if negb (r =? 0) then Done (FAIL, self) else Done (SUCCESS, self), w).

(* ------------------------------------------------------------------------- *)
(** ** Sample data: an anchor table and object files *)

(** Modelled from the spec: a symbol resolver over two anchor names, the
    runtime's global state and the thread-state head.  A name that is an
    anchor has its address stored in the anchors and counts as resolved. *)
Definition check_sym_model (runtime_name tstate_name : string)
    (name : string) (value : Z) (a : runtime_anchors)
    : bool * runtime_anchors :=
  if String.eqb name tstate_name then
    (true, {| runtime_raddr := runtime_raddr a; tstate_raddr := value |})
  else if String.eqb name runtime_name then
    (true, {| runtime_raddr := value; tstate_raddr := tstate_raddr a |})
  else (false, a).

Definition check_sym_py : string -> Z -> runtime_anchors -> bool * runtime_anchors :=
  check_sym_model "_PyRuntime" "_PyThreadState_Current".

(** Little-endian encoding of [x] on [n] bytes. *)
Fixpoint le (n : nat) (x : Z) : list Z :=
  match n with
  | O => []
  | S m => x mod 256 :: le m (x / 256)
  end.

Definition zlen (l : list Z) : Z := Z.of_nat (List.length l).

(** A string table: the strings, each NUL-terminated, after a leading NUL. *)
Definition strtab (names : list string) : list Z :=
  0 :: flat_map (fun s => bytes_of_string s ++ [0]) names.

Definition mk_ehdr64 (cls e_type phoff shoff phentsize phnum shentsize shnum
    shstrndx : Z) : list Z :=
  ELFMAG ++ [cls; 1; 1; 0] ++ repeat 0 8
  ++ le 2 e_type ++ le 2 62 ++ le 4 1 ++ le 8 0
  ++ le 8 phoff ++ le 8 shoff ++ le 4 0 ++ le 2 64
  ++ le 2 phentsize ++ le 2 phnum ++ le 2 shentsize ++ le 2 shnum
  ++ le 2 shstrndx.

Definition mk_phdr64 (type vaddr align : Z) : list Z :=
  le 4 type ++ le 4 5 ++ le 8 0 ++ le 8 vaddr ++ le 8 vaddr
  ++ le 8 0 ++ le 8 0 ++ le 8 align.

Definition mk_shdr64 (name type addr offset sz link entsize : Z) : list Z :=
  le 4 name ++ le 4 type ++ le 8 0 ++ le 8 addr ++ le 8 offset ++ le 8 sz
  ++ le 4 link ++ le 4 0 ++ le 8 8 ++ le 8 entsize.

Definition mk_sym64 (name value : Z) : list Z :=
  le 4 name ++ [17; 0] ++ le 2 1 ++ le 8 value ++ le 8 8.

Definition mk_ehdr32 (cls e_type phoff shoff phentsize phnum shentsize shnum
    shstrndx : Z) : list Z :=
  ELFMAG ++ [cls; 1; 1; 0] ++ repeat 0 8
  ++ le 2 e_type ++ le 2 3 ++ le 4 1 ++ le 4 0
  ++ le 4 phoff ++ le 4 shoff ++ le 4 0 ++ le 2 52
  ++ le 2 phentsize ++ le 2 phnum ++ le 2 shentsize ++ le 2 shnum
  ++ le 2 shstrndx.

Definition mk_phdr32 (type vaddr align : Z) : list Z :=
  le 4 type ++ le 4 0 ++ le 4 vaddr ++ le 4 vaddr
  ++ le 4 0 ++ le 4 0 ++ le 4 5 ++ le 4 align.

Definition mk_shdr32 (name type addr offset sz link entsize : Z) : list Z :=
  le 4 name ++ le 4 type ++ le 4 0 ++ le 4 addr ++ le 4 offset ++ le 4 sz
  ++ le 4 link ++ le 4 0 ++ le 4 4 ++ le 4 entsize.

Definition mk_sym32 (name value : Z) : list Z :=
  le 4 name ++ le 4 value ++ le 4 4 ++ [17; 0] ++ le 2 1.

(** A 64-bit object file.  Two program headers ([PT_PHDR], then [PT_LOAD] at
    0x400040 aligned on 0x1000); five dynamic symbols, of which the second
    and the fourth are anchors; the sections [.dynsym], [.dynstr], [.bss]
    and [.shstrtab] after the null section. *)
Definition demo_dynstr : list Z :=
  strtab ["_PyRuntime"; "other"; "_PyThreadState_Current"; "late"]%string.

Definition demo_shstrtab : list Z :=
  strtab [".dynsym"; ".dynstr"; ".bss"; ".shstrtab"]%string.

Definition demo64_phdrs : list Z :=
  mk_phdr64 6 4194368 8 ++ mk_phdr64 PT_LOAD 4194368 4096.

Definition demo64_dynsym : list Z :=
  mk_sym64 0 0 ++ mk_sym64 1 6295552 ++ mk_sym64 12 4198400
  ++ mk_sym64 18 6299648 ++ mk_sym64 41 4206592.

Definition demo64_phoff : Z := 64.
Definition demo64_symoff : Z := demo64_phoff + zlen demo64_phdrs.
Definition demo64_stroff : Z := demo64_symoff + zlen demo64_dynsym.
Definition demo64_shstroff : Z := demo64_stroff + zlen demo_dynstr.
Definition demo64_shoff : Z := demo64_shstroff + zlen demo_shstrtab.

Definition demo64_shdrs : list Z :=
  mk_shdr64 0 0 0 0 0 0 0
  ++ mk_shdr64 1 SHT_DYNSYM 4194664 demo64_symoff (zlen demo64_dynsym) 2 24
  ++ mk_shdr64 9 3 4194784 demo64_stroff (zlen demo_dynstr) 0 0
  ++ mk_shdr64 17 8 6303744 demo64_shoff 8192 0 0
  ++ mk_shdr64 22 3 0 demo64_shstroff (zlen demo_shstrtab) 0 0.

Definition demo64_ehdr (e_type : Z) : list Z :=
  mk_ehdr64 ELFCLASS64 e_type demo64_phoff demo64_shoff 56 2 64 5 4.

Definition demo64 (e_type : Z) : list Z :=
  demo64_ehdr e_type ++ demo64_phdrs ++ demo64_dynsym ++ demo_dynstr
  ++ demo_shstrtab ++ demo64_shdrs.

(** The same object file in the 32-bit format. *)
Definition demo32_phdrs : list Z :=
  mk_phdr32 6 134512692 4 ++ mk_phdr32 PT_LOAD 134512692 4096.

Definition demo32_dynsym : list Z :=
  mk_sym32 0 0 ++ mk_sym32 1 136613888 ++ mk_sym32 12 134516736
  ++ mk_sym32 18 136617984 ++ mk_sym32 41 134524928.

Definition demo32_phoff : Z := 52.
Definition demo32_symoff : Z := demo32_phoff + zlen demo32_phdrs.
Definition demo32_stroff : Z := demo32_symoff + zlen demo32_dynsym.
Definition demo32_shstroff : Z := demo32_stroff + zlen demo_dynstr.
Definition demo32_shoff : Z := demo32_shstroff + zlen demo_shstrtab.

Definition demo32_shdrs : list Z :=
  mk_shdr32 0 0 0 0 0 0 0
  ++ mk_shdr32 1 SHT_DYNSYM 134512948 demo32_symoff (zlen demo32_dynsym) 2 16
  ++ mk_shdr32 9 3 134513028 demo32_stroff (zlen demo_dynstr) 0 0
  ++ mk_shdr32 17 8 136622080 demo32_shoff 8192 0 0
  ++ mk_shdr32 22 3 0 demo32_shstroff (zlen demo_shstrtab) 0 0.

Definition demo32_ehdr (e_type : Z) : list Z :=
  mk_ehdr32 ELFCLASS32 e_type demo32_phoff demo32_shoff 32 2 40 5 4.

Definition demo32 (e_type : Z) : list Z :=
  demo32_ehdr e_type ++ demo32_phdrs ++ demo32_dynsym ++ demo_dynstr
  ++ demo_shstrtab ++ demo32_shdrs.

(** An object file without any loadable segment: [demo64] with its
    [PT_LOAD] header turned into a second [PT_PHDR]. *)
Definition noload64 : list Z :=
  demo64_ehdr ET_EXEC ++ mk_phdr64 6 4194368 8 ++ mk_phdr64 6 4194368 4096
  ++ demo64_dynsym ++ demo_dynstr ++ demo_shstrtab ++ demo64_shdrs.

Definition noload32 : list Z :=
  demo32_ehdr ET_EXEC ++ mk_phdr32 6 134512692 4 ++ mk_phdr32 6 134512692 4096
  ++ demo32_dynsym ++ demo_dynstr ++ demo_shstrtab ++ demo32_shdrs.

(** A small file system: an executable interpreter, its shared library (of
    type [ET_DYN]), a 32-bit executable, an executable of exactly 1 MiB, two
    without loadable segment, and an interpreter under a directory whose name
    starts with ["[v"]. *)
Definition python_exe  : string := "/usr/bin/python3.8".
Definition python_lib  : string := "/usr/lib/libpython3.8.so.1.0".
Definition python_exe32 : string := "/opt/i386/bin/python2.7".
Definition python_1mib : string := "/opt/small/bin/python".
Definition python_noload : string := "/opt/odd/bin/python".
Definition python_noload32 : string := "/opt/odd32/bin/python".
Definition python_venv : string := "/opt/[venv]/bin/python3".

Definition demo_fs : filesystem := {|
  st_size := fun p =>
    if String.eqb p python_exe then 5490488
    else if String.eqb p python_lib then 3502208
    else if String.eqb p python_exe32 then 2814504
    else if String.eqb p python_1mib then 1048576
    else if String.eqb p python_noload then 4000000
    else if String.eqb p python_noload32 then 4000000
    else if String.eqb p python_venv then 5490488
    else 0;
  contents := fun p =>
    if String.eqb p python_exe then demo64 ET_EXEC
    else if String.eqb p python_lib then demo64 3
    else if String.eqb p python_exe32 then demo32 ET_EXEC
    else if String.eqb p python_1mib then demo64 ET_EXEC
    else if String.eqb p python_noload then noload64
    else if String.eqb p python_noload32 then noload32
    else if String.eqb p python_venv then demo64 ET_EXEC
    else []
|}.

(** Lines of a maps listing, with what [sscanf] reads in them. *)
Definition exe_line : maps_line := {|
  line := "00400000-00a00000 r-xp 00000000 08:01 1234 /usr/bin/python3.8" ++ nl;
  matched := 8; lower := 4194304; upper := 10485760;
  pathname := python_exe
|}.

Definition lib_line : maps_line := {|
  line := "00100000-00300000 r-xp 00000000 08:01 5678 /usr/lib/libpython3.8.so.1.0" ++ nl;
  matched := 8; lower := 1048576; upper := 3145728;
  pathname := python_lib
|}.


Definition venv_line : maps_line := {|
  line := "00400000-00a00000 r-xp 00000000 08:01 7777 /opt/[venv]/bin/python3" ++ nl;
  matched := 8; lower := 4194304; upper := 10485760;
  pathname := python_venv
|}.

Definition heap_line : maps_line := {|
  line := "01c00000-01e00000 rw-p 00000000 00:00 0 [heap]" ++ nl;
  matched := 8; lower := 29360128; upper := 31457280;
  pathname := "[heap]"
|}.

Definition anon_line : maps_line := {|
  line := "7f5a00000000-7f5a00021000 rw-p 00000000 00:00 0 " ++ nl;
  matched := 7; lower := 140024523784192; upper := 140024523919360;
  pathname := ""
|}.

Definition vsyscall_line : maps_line := {|
  line := "ffffffffff600000-ffffffffff601000 r-xp 00000000 00:00 0 [vsyscall]" ++ nl;
  matched := 8; lower := 18446744073699065856; upper := 18446744073699069952;
  pathname := "[vsyscall]"
|}.

(** A line that [sscanf] cannot split. *)
Definition junk_line : maps_line := {|
  line := "not a mapping" ++ nl;
  matched := 0; lower := 0; upper := 0;
  pathname := ""
|}.

Definition self0 : py_proc_t := {|
  pid := 4242; bin_path := None; lib_path := None;
  min_raddr := 0; max_raddr := 0;
  proc_map := {| elf := {| base := 0; size := 0 |};
                 heap := {| base := 0; size := 0 |};
                 bss := {| base := 0; size := 0 |} |};
  anchors := {| runtime_raddr := 0; tstate_raddr := 0 |}
|}.

(** The state of a fresh process: no error, no read issued, and the global
    [ehdr_v] zero-initialised. *)
Definition world0 : world := {|
  austin_errno := None; issued := []; ehdr_v := repeat 0 64
|}.

(** A kernel for the examples: the target 4242 has the header of [demo64] at
    0x400000; a read of 8 bytes at 0x1c00000 is cut short after 3 bytes; any
    other address is unmapped ([EFAULT]); any other process does not exist. *)
Definition EFAULT : Z := 14.

Definition demo_kernel : kernel := fun pid addr len =>
  if negb (pid =? 4242) then
    {| rv_result := -1; rv_errno := ESRCH; rv_data := [] |}
  else if (addr =? 4194304) && (len =? 64) then
    {| rv_result := 64; rv_errno := 0; rv_data := demo64_ehdr ET_EXEC |}
  else if (addr =? 29360128) && (len =? 8) then
    {| rv_result := 3; rv_errno := 0; rv_data := [1; 2; 3] |}
  else
    {| rv_result := -1; rv_errno := EFAULT; rv_data := [] |}.

(** The error kind that the [switch (errno)] of [copy_memory] selects. *)
Definition classify (errno : Z) : error_t :=
  if errno =? ESRCH then EPROCNPID
  else if errno =? EPERM then EPROCPERM
  else EMEMCOPY.

(* ------------------------------------------------------------------------- *)
(** ** The vocabulary of the properties *)

(** The lines that the code takes for real regions, that is, the lines that
    take part in the bounds: those that [sscanf] could split (at least the
    seven leading items) and on which either no path was read or the path
    does not contain ["[v"], wherever in the path that may be.  This is the
    test of the code, not a notion of the specification. *)
Definition real_region (e : maps_line) : bool :=
  (7 <=? matched e) && ((matched e =? 7) || negb (strstr (pathname e) "[v")).

(** The specification's side: a region backed by a file is a real region,
    whatever the name of the file.  In the listing such a region has a
    path, which starts with a slash; the pseudo-regions of the kernel
    ([[vsyscall]], [[vdso]], [[vvar]]) and the heap and the stack have a
    name in square brackets instead. *)
Definition file_backed (e : maps_line) : bool :=
  (8 <=? matched e) && String.prefix "/" (pathname e).

Definition region_base (e : maps_line) : Z := ptr (lower e).
Definition region_end (e : maps_line) : Z := ptr (upper e).

Definition is_lowest (m : Z) (l : list Z) : Prop :=
  In m l /\ Forall (fun b => m <= b) l.

Definition is_highest (m : Z) (l : list Z) : Prop :=
  In m l /\ Forall (fun b => b <= m) l.

Definition MiB : Z := 1048576.

(** A line is accepted when it changes one of the two paths or the [elf]
    region. *)
Definition accepts (fs : filesystem) (st : py_proc_t * Z) (e : maps_line) : Prop :=
  bin_path (fst (parse_line fs st e)) <> bin_path (fst st) \/
  lib_path (fst (parse_line fs st e)) <> lib_path (fst st) \/
  elf (proc_map (fst (parse_line fs st e))) <> elf (proc_map (fst st)).




Definition align_down (vaddr align : Z) : Z := vaddr - vaddr mod align.

(** The program header of index [i] is the first loadable one. *)
Definition first_load (L : elf_class) (ehdr elf_map : list Z) (i : Z) : Prop :=
  0 <= i < e_phnum L ehdr /\
  p_type L elf_map (phdr_off L ehdr i) = PT_LOAD /\
  forall j, 0 <= j < i -> p_type L elf_map (phdr_off L ehdr j) <> PT_LOAD.

(** None of the [e_phnum] program headers is loadable. *)
Definition no_load (L : elf_class) (ehdr elf_map : list Z) : Prop :=
  forall j, 0 <= j < e_phnum L ehdr ->
            p_type L elf_map (phdr_off L ehdr j) <> PT_LOAD.

(** The number of anchors resolved by the examined entries. *)
Definition resolved (seen : list (Z * bool)) : Z :=
  fold_right (fun x acc => Z.b2z (snd x) + acc) 0 seen.

(** Before each examined entry, the required number was not yet reached. *)
Definition short_circuit (seen : list (Z * bool)) : Prop :=
  forall n, (n < List.length seen)%nat -> resolved (firstn n seen) < SYMBOLS.

(** The examined entries are those of the table, in its order: the first at
    [tab_off], each next one [entsize] further, all below [bound]. *)
Fixpoint in_table_order (W bound entsize tab_off : Z) (seen : list (Z * bool))
    : Prop :=
  match seen with
  | [] => True
  | x :: rest =>
      fst x = tab_off /\ tab_off < bound /\
      in_table_order W bound entsize (wrap W (tab_off + entsize)) rest
  end.

(** The offset that follows the last examined entry. *)
Fixpoint offset_after (W entsize tab_off : Z) (seen : list (Z * bool)) : Z :=
  match seen with
  | [] => tab_off
  | _ :: rest => offset_after W entsize (wrap W (tab_off + entsize)) rest
  end.

(** [visits W stride bound off p]: a loop that starts at offset [off] and
    advances by [stride] (on [W] bits) while below [bound] comes to [p]. *)
Inductive visits (W stride bound : Z) : Z -> Z -> Prop :=
| visits_here : forall off, off < bound -> visits W stride bound off off
| visits_later : forall off p,
    off < bound ->
    visits W stride bound (wrap W (off + stride)) p ->
    visits W stride bound off p.

(** [self'] is [self] up to the [bss] block. *)
Definition same_but_bss (self self' : py_proc_t) : Prop :=
  self' = with_map (set_bss (bss (proc_map self')) (proc_map self)) self.

(** The locals [elf_map_size] and [sh_name_base] of the analysers, and the
    bound of the loop over the symbols of the table whose header is at [d]. *)
Definition elf_map_size_of (L : elf_class) (ehdr : list Z) : Z :=
  wrap (width L)
    (e_shoff L ehdr + to_u64 (to_i32 (e_shnum L ehdr * e_shentsize L ehdr))).

Definition sh_name_base_of (L : elf_class) (ehdr elf_map : list Z) : Z :=
  sh_offset L elf_map (ELF_SH_OFF_half L ehdr (e_shstrndx L ehdr)).

Definition symtab_bound (L : elf_class) (elf_map : list Z) (d : Z) : Z :=
  wrap (width L) (sh_offset L elf_map d + sh_size L elf_map d).

(** The section headers that the loop of the analysers visits. *)
Definition section_visited (L : elf_class) (ehdr : list Z) (p : Z) : Prop :=
  visits (width L) (e_shentsize L ehdr) (elf_map_size_of L ehdr)
    (e_shoff L ehdr) p.

(** The examined entries are the entries of the table of dynamic symbols
    whose header [d] the loop over the sections retained (a visited header
    of type [SHT_DYNSYM] named [.dynsym]), from its first entry on and in
    its order, up to the end of the table unless the required number of
    anchors was reached before. *)
Definition table_scan (L : elf_class) (elf_map : list Z) (d : Z)
    (seen : list (Z * bool)) : Prop :=
  in_table_order (width L) (symtab_bound L elf_map d)
    (sh_entsize L elf_map d) (sh_offset L elf_map d) seen /\
  (resolved seen < SYMBOLS ->
   symtab_bound L elf_map d <=
   offset_after (width L) (sh_entsize L elf_map d) (sh_offset L elf_map d)
     seen).

(** Tables that the two loops get through with the fuel at hand: the
    offsets of the section headers and of the symbol entries do not wrap
    around, a table of dynamic symbols has a positive entry size, and the
    fuel exceeds the length in bytes of either table. *)
Definition tables_well_formed (L : elf_class) (ehdr elf_map : list Z)
    (fuel : nat) : Prop :=
  (0 < fuel)%nat /\
  e_shoff L ehdr < 2 ^ width L /\
  (0 < e_shentsize L ehdr ->
   elf_map_size_of L ehdr + e_shentsize L ehdr <= 2 ^ width L /\
   (Z.to_nat (elf_map_size_of L ehdr - e_shoff L ehdr) < fuel)%nat) /\
  (forall d,
      section_visited L ehdr d ->
      sh_type L elf_map d = SHT_DYNSYM ->
      0 < sh_entsize L elf_map d /\
      sh_offset L elf_map d + sh_size L elf_map d + sh_entsize L elf_map d
      <= 2 ^ width L /\
      (Z.to_nat (sh_size L elf_map d) < fuel)%nat).

(* ------------------------------------------------------------------------- *)
(** ** Sample sessions *)

Definition noload_self : py_proc_t := with_paths (Some python_noload) None self0.
Definition noload32_self : py_proc_t := with_paths (Some python_noload32) None self0.

(** A session attached to the sample interpreter, and to its 32-bit
    variant; the global [ehdr_v] holds the header read from the target. *)
Definition attached : py_proc_t :=
  snd (fst (_py_proc__parse_maps_file demo_fs (MapsLines [exe_line; heap_line])
              self0 world0)).

Definition attached32 : py_proc_t :=
  with_paths (Some python_exe32) None attached.

Definition loaded64 : world := set_ehdr_v (demo64_ehdr ET_EXEC) world0.
Definition loaded32 : world := set_ehdr_v (demo32_ehdr ET_EXEC) world0.

(** A resolver that knows only one of the symbols of the sample files. *)
Definition check_sym_one : string -> Z -> runtime_anchors -> bool * runtime_anchors :=
  check_sym_model "_PyRuntime" "_PyThreadState_Head".

(** [self] after the analyses of the sample files. *)
Definition self_of (o : outcome (Z * py_proc_t * list (Z * bool))) : py_proc_t :=
  match o with
  | Done (_, s, _) => s
  | _ => self0
  end.

Definition analysed64 : py_proc_t :=
  Eval vm_compute in
    self_of (_py_proc__analyze_elf64 check_sym_py demo_fs 400 attached loaded64).

Definition analysed32 : py_proc_t :=
  Eval vm_compute in
    self_of (_py_proc__analyze_elf32 check_sym_py demo_fs 400 attached32 loaded32).

Definition analysed_one : py_proc_t :=
  Eval vm_compute in
    self_of (_py_proc__analyze_elf64 check_sym_one demo_fs 400 attached loaded64).

(** The process-wide state after a first call of [_py_proc__analyze_elf] on
    the sample session. *)
Definition after_first_call : world :=
  Eval vm_compute in
    snd (_py_proc__analyze_elf check_sym_py demo_kernel demo_fs 400 attached
           world0).

(** A 32-bit header without section headers ([e_shoff] and [e_shnum] are
    zero), followed in memory by the start of a program header. *)
Definition ehdr32_no_sections : list Z :=
  mk_ehdr32 ELFCLASS32 ET_EXEC 52 0 32 2 40 0 0
  ++ le 4 6 ++ le 4 52 ++ le 4 134512692.

(* ------------------------------------------------------------------------- *)
(** ** More vocabulary: the lines of the listing *)

(** A line that can be taken for the heap's: it was split and its text
    contains ["[heap]"] followed by the end of line. *)
Definition heap_line_p (e : maps_line) : bool :=
  (7 <=? matched e) && strstr (line e) ("[heap]" ++ nl).

(** A line that can be taken for the interpreter's, as binary or as
    library: it was split, its text contains ["python"] and its file has at
    least 1 MiB. *)
Definition candidate (fs : filesystem) (e : maps_line) : bool :=
  (7 <=? matched e) && strstr (line e) "python"
  && (MiB <=? _file_size fs (pathname e)).

(** A line on which the loop comes to open a file: [_file_size] and
    [_elf_is_executable] are called on the lines that were split and whose
    text contains ["python"] (unless the line is the first heap line). *)
Definition names_a_file (e : maps_line) : bool :=
  (7 <=? matched e) && strstr (line e) "python".

(** Every file that the loop opens can be mapped.  [_elf_is_executable]
    dereferences what [mmap] returns without a test, so that a line that
    names a file that is gone, that cannot be opened or that is empty ends
    the process; the properties of the loop that depend on the files are
    stated for the listings that have no such line. *)
Definition files_mappable (fs : filesystem) (lines : list maps_line) : Prop :=
  Forall (fun e => names_a_file e = true -> mappable fs (pathname e) = true)
    lines.

(** One of the two paths is set. *)
Definition has_path (self : py_proc_t) : Prop :=
  bin_path self <> None \/ lib_path self <> None.

(** Two sessions that went through the same lines, starting from the memory
    maps [m1] and [m2]: they agree on everything but the map, and in the map
    each of [elf] and [heap] is either the same in both or still the one of
    the start. *)
Definition agree_from (m1 m2 : proc_vm_map_t) (s1 s2 : py_proc_t) : Prop :=
  pid s1 = pid s2 /\ bin_path s1 = bin_path s2 /\ lib_path s1 = lib_path s2 /\
  min_raddr s1 = min_raddr s2 /\ max_raddr s1 = max_raddr s2 /\
  anchors s1 = anchors s2 /\
  (elf (proc_map s1) = elf (proc_map s2) \/
   (elf (proc_map s1) = elf m1 /\ elf (proc_map s2) = elf m2)) /\
  (heap (proc_map s1) = heap (proc_map s2) \/
   (heap (proc_map s1) = heap m1 /\ heap (proc_map s2) = heap m2)) /\
  bss (proc_map s1) = bss m1 /\ bss (proc_map s2) = bss m2.

(* ------------------------------------------------------------------------- *)
(** ** More vocabulary and sample files: the analysers *)

(** The test of the first branch of the loop over the section headers:
    [p_shdr->sh_type == SHT_DYNSYM && strcmp(..., ".dynsym") == 0]. *)
Definition is_dynsym_header (L : elf_class) (elf_map : list Z)
    (sh_name_base p : Z) : bool :=
  (sh_type L elf_map p =? SHT_DYNSYM)
  && String.eqb (section_name L elf_map sh_name_base p) ".dynsym".

(** The section header at [q] is visited after the one at [p]. *)
Definition visited_after (L : elf_class) (ehdr : list Z) (p q : Z) : Prop :=
  visits (width L) (e_shentsize L ehdr) (elf_map_size_of L ehdr)
    (wrap (width L) (p + e_shentsize L ehdr)) q.

(** The calls of [_py_proc__check_sym] on the symbol entries at the offsets
    [offs], in this order, from the anchors [a]: the examined entries with
    the answers, and the anchors afterwards. *)
Fixpoint replay (L : elf_class)
    (check_sym : string -> Z -> runtime_anchors -> bool * runtime_anchors)
    (elf_map : list Z) (strtab_off elf_base vbase : Z) (offs : list Z)
    (a : runtime_anchors) : list (Z * bool) * runtime_anchors :=
  match offs with
  | [] => ([], a)
  | off :: rest =>
      let '(r, a') :=
        check_sym (sym_name L elf_map strtab_off off)
                  (sym_value L elf_map elf_base vbase off) a in
      let '(t, a'') :=
        replay L check_sym elf_map strtab_off elf_base vbase rest a' in
      ((off, r) :: t, a'')
  end.

(** The offset of the string table that goes with the symbol table whose
    header is at [d]: [p_strtabsh->sh_offset]. *)
Definition strtab_off_of (L : elf_class) (ehdr elf_map : list Z) (d : Z) : Z :=
  sh_offset L elf_map (ELF_SH_OFF_word L ehdr (sh_link L elf_map d)).

(** The last visited header that passes the test for [.dynsym], and the
    last visited header of a section named [.bss]. *)
Definition last_dynsym (L : elf_class) (ehdr elf_map : list Z) (d : Z) : Prop :=
  section_visited L ehdr d /\
  is_dynsym_header L elf_map (sh_name_base_of L ehdr elf_map) d = true /\
  forall q, visited_after L ehdr d q ->
            is_dynsym_header L elf_map (sh_name_base_of L ehdr elf_map) q = false.

Definition last_bss (L : elf_class) (ehdr elf_map : list Z) (p : Z) : Prop :=
  section_visited L ehdr p /\
  section_name L elf_map (sh_name_base_of L ehdr elf_map) p = ".bss"%string /\
  forall q, visited_after L ehdr p q ->
            section_name L elf_map (sh_name_base_of L ehdr elf_map) q
            <> ".bss"%string.


(** A file system with a single file. *)
Definition fs_of (img : list Z) : filesystem :=
  {| st_size := fun _ => 4000000; contents := fun _ => img |}.

(** [demo64] with the header of its symbol table turned into one of type
    [SHT_SYMTAB]: the file has no section of dynamic symbols. *)
Definition nodynsym64 : list Z :=
  demo64_ehdr ET_EXEC ++ demo64_phdrs ++ demo64_dynsym ++ demo_dynstr
  ++ demo_shstrtab
  ++ mk_shdr64 0 0 0 0 0 0 0
  ++ mk_shdr64 1 2 4194664 demo64_symoff (zlen demo64_dynsym) 2 24
  ++ mk_shdr64 9 3 4194784 demo64_stroff (zlen demo_dynstr) 0 0
  ++ mk_shdr64 17 8 6303744 demo64_shoff 8192 0 0
  ++ mk_shdr64 22 3 0 demo64_shstroff (zlen demo_shstrtab) 0 0.

(** [demo64] with a loadable segment whose [p_align] is zero. *)
Definition zeroalign64 : list Z :=
  demo64_ehdr ET_EXEC ++ mk_phdr64 6 4194368 8 ++ mk_phdr64 PT_LOAD 4194368 0
  ++ demo64_dynsym ++ demo_dynstr ++ demo_shstrtab ++ demo64_shdrs.

(** [demo64] with two sections named [.bss]: the null section header is
    replaced by a second [.bss] header, of 0x100 bytes at 0x700000, that
    comes before the one of [demo64]. *)
Definition twobss64 : list Z :=
  demo64_ehdr ET_EXEC ++ demo64_phdrs ++ demo64_dynsym ++ demo_dynstr
  ++ demo_shstrtab
  ++ mk_shdr64 17 8 7340032 demo64_shoff 256 0 0
  ++ mk_shdr64 1 SHT_DYNSYM 4194664 demo64_symoff (zlen demo64_dynsym) 2 24
  ++ mk_shdr64 9 3 4194784 demo64_stroff (zlen demo_dynstr) 0 0
  ++ mk_shdr64 17 8 6303744 demo64_shoff 8192 0 0
  ++ mk_shdr64 22 3 0 demo64_shstroff (zlen demo_shstrtab) 0 0.

(** [demo64] with a table of dynamic symbols whose [sh_entsize] is zero. *)
Definition zeroent64 : list Z :=
  demo64_ehdr ET_EXEC ++ demo64_phdrs ++ demo64_dynsym ++ demo_dynstr
  ++ demo_shstrtab
  ++ mk_shdr64 0 0 0 0 0 0 0
  ++ mk_shdr64 1 SHT_DYNSYM 4194664 demo64_symoff (zlen demo64_dynsym) 2 0
  ++ mk_shdr64 9 3 4194784 demo64_stroff (zlen demo_dynstr) 0 0
  ++ mk_shdr64 17 8 6303744 demo64_shoff 8192 0 0
  ++ mk_shdr64 22 3 0 demo64_shstroff (zlen demo_shstrtab) 0 0.

Definition analysed_nodynsym : py_proc_t :=
  Eval vm_compute in
    self_of (_py_proc__analyze_elf64 check_sym_py (fs_of nodynsym64) 400 attached
               loaded64).

Definition analysed_twobss : py_proc_t :=
  Eval vm_compute in
    self_of (_py_proc__analyze_elf64 check_sym_py (fs_of twobss64) 400 attached
               loaded64).

(* ------------------------------------------------------------------------- *)
(** ** More vocabulary: the read of the header *)

(** The read that [_py_proc__analyze_elf] issues for [self]. *)
Definition header_read (self : py_proc_t) : syscall :=
  {| sc_pid := pid self; sc_addr := base (elf (proc_map self));
     sc_len := sizeof_ehdr_v |}.

(** What the kernel answers to it. *)
Definition header_reply (k : kernel) (self : py_proc_t) : readv_reply :=
  k (pid self) (base (elf (proc_map self))) sizeof_ehdr_v.

(* ------------------------------------------------------------------------- *)
(** ** linux/py_proc.h: the resident memory and the end of [_py_proc__init] *)

(** A value of type [ssize_t] or [long]: 64 bits, two's complement. *)
Definition to_i64 (x : Z) : Z := (x + 2 ^ 63) mod 2 ^ 64 - 2 ^ 63.

(** [struct _proc_extra_info]: [page_size] is an [unsigned int] and
    [statm_file] an array of 24 characters. *)
Record _proc_extra_info : Type := {
  page_size      : Z;
  statm_file     : string;
  wait_thread_id : Z
}.

Definition sizeof_statm_file : Z := 24.

(** [char file_name[32]] of [_py_proc__parse_maps_file]. *)
Definition sizeof_file_name : Z := 32.

(** The fields of the process structure that the end of [_py_proc__init]
    works on, beside those of [py_proc_t] above: [self->extra] and
    [self->last_resident_memory], which receives an [ssize_t]. *)
Record py_proc_full_t : Type := {
  proc                 : py_proc_t;
  extra                : _proc_extra_info;
  last_resident_memory : Z
}.

Definition with_proc (s : py_proc_t) (self : py_proc_full_t) : py_proc_full_t :=
  {| proc := s; extra := extra self;
     last_resident_memory := last_resident_memory self |}.

Definition with_extra (x : _proc_extra_info) (self : py_proc_full_t)
    : py_proc_full_t :=
  {| proc := proc self; extra := x;
     last_resident_memory := last_resident_memory self |}.

Definition with_last_resident_memory (m : Z) (self : py_proc_full_t)
    : py_proc_full_t :=
  {| proc := proc self; extra := extra self; last_resident_memory := m |}.

(** What [fscanf(statm, "%ld %ld", &size, &resident)] makes of an open
    statm file: the number of items it read (or [EOF]), and the two values,
    which are meaningful only when the items were read. *)
Record statm_scan : Type := {
  sm_items    : Z;
  sm_size     : Z;
  sm_resident : Z
}.

(** What [fopen(path, "rb")] gives: [NULL], or a stream. *)
Inductive statm_reply : Type :=
| StatmFopenFailed
| StatmOpened (sc : statm_scan).

Definition procfs : Type := string -> statm_reply.

(** The calls of [<stdio.h>] a function makes on the stream (ghost state). *)
Inductive stdio_call : Type :=
| Fopen (path : string)
| Fscanf
| Fclose.

(** [_py_proc__get_resident_memory].  The product is one of an [ssize_t] by
    an [unsigned int], taken in [ssize_t]. *)
Definition _py_proc__get_resident_memory (pf : procfs) (self : py_proc_full_t)
    (w : world) : Z * list stdio_call * world :=
  let path := statm_file (extra self) in
  match pf path with
  | StatmFopenFailed => (-1, [Fopen path], set_error EPROCVM w)
  | StatmOpened sc =>
      if negb (sm_items sc =? 2) then (-1, [Fopen path; Fscanf], w)
      else (to_i64 (sm_resident sc * page_size (extra self)),
            [Fopen path; Fscanf; Fclose], w)
  end.

(** The conversion [%d] of [sprintf]: the decimal digits of the number,
    after a minus sign when it is negative. *)
Definition digit_char (d : Z) : ascii := ascii_of_nat (48 + Z.to_nat d).

Fixpoint print_u (fuel : nat) (n : Z) (acc : string) : string :=
  match fuel with
  | O => acc
  | S fuel' =>
      let acc' := String (digit_char (n mod 10)) acc in
      if n / 10 =? 0 then acc' else print_u fuel' (n / 10) acc'
  end.

Definition print_d (n : Z) : string :=
  if n <? 0 then String "-" (print_u 20 (- n) "") else print_u 20 n "".

(** The number that a string of decimal digits denotes. *)
Definition digit_value (c : ascii) : Z := Z.of_nat (nat_of_ascii c) - 48.

Fixpoint read_u (s : string) (acc : Z) : Z :=
  match s with
  | EmptyString => acc
  | String c rest => read_u rest (10 * acc + digit_value c)
  end.

(** [sprintf(..., "/proc/%d/statm", self->pid)] and
    [sprintf(file_name, "/proc/%d/maps", self->pid)]. *)
Definition statm_path (pid : Z) : string := "/proc/" ++ print_d pid ++ "/statm".
Definition maps_path (pid : Z) : string := "/proc/" ++ print_d pid ++ "/maps".

(** [_py_proc__init] with its last statements: the page size (what
    [getpagesize] returns is a parameter), the name of the statm file and
    the first reading of the resident memory. *)
Definition _py_proc__init_full
    (check_sym : string -> Z -> runtime_anchors -> bool * runtime_anchors)
    (k : kernel) (fs : filesystem) (mf : maps_file) (pf : procfs)
    (pagesize : Z) (fuel : nat) (self : py_proc_full_t) (w : world)
    : outcome (Z * py_proc_full_t * list stdio_call) * world :=
  let '(o, w) := _py_proc__init check_sym k fs mf fuel (proc self) w in
  match o with
  | Done (r, s) =>
      let self := with_proc s self in
      if negb (r =? 0) then (Done (FAIL, self, []), w)
      else
        let self :=
          with_extra {| page_size := to_u32 pagesize;
                        statm_file := statm_file (extra self);
                        wait_thread_id := wait_thread_id (extra self) |} self in
        let self :=
          with_extra {| page_size := page_size (extra self);
                        statm_file := statm_path (pid (proc self));
                        wait_thread_id := wait_thread_id (extra self) |} self in
        let '(m, calls, w) := _py_proc__get_resident_memory pf self w in
        (Done (SUCCESS, with_last_resident_memory m self, calls), w)
  | Fault => (Fault, w)
  | OutOfFuel => (OutOfFuel, w)
  end.

(** A statm file for the examples: the one of the process 4242 holds
    [2500 1200 ...]; the one of 4243 cannot be opened; any other one is
    empty. *)
Definition demo_procfs : procfs := fun path =>
  if String.eqb path "/proc/4242/statm" then
    StatmOpened {| sm_items := 2; sm_size := 2500; sm_resident := 1200 |}
  else if String.eqb path "/proc/4243/statm" then StatmFopenFailed
  else StatmOpened {| sm_items := -1; sm_size := 0; sm_resident := 0 |}.

Definition full0 : py_proc_full_t := {|
  proc := self0;
  extra := {| page_size := 0; statm_file := ""; wait_thread_id := 0 |};
  last_resident_memory := 0
|}.

Definition full_of (pid_ : Z) : py_proc_full_t := {|
  proc := self0;
  extra := {| page_size := 4096; statm_file := statm_path pid_;
              wait_thread_id := 0 |};
  last_resident_memory := 0
|}.

(* ------------------------------------------------------------------------- *)
(** ** mem.h: the Windows and the macOS branches of [copy_memory] *)

(** What one call of [ReadProcessMemory] answers: its [BOOL], the number of
    bytes read that it stores in [n], what [GetLastError] returns afterwards,
    and the bytes found at the remote address. *)
Record rpm_reply : Type := {
  rpm_success    : bool;
  rpm_read       : Z;
  rpm_last_error : Z;
  rpm_data       : list Z
}.

Definition win_kernel : Type := Z -> Z -> Z -> rpm_reply.

(** Values of [<winerror.h>]. *)
Definition ERROR_ACCESS_DENIED  : Z := 5.
Definition ERROR_INVALID_HANDLE : Z := 6.

(** [result] of the Windows branch:
    [ReadProcessMemory(...) ? n : -1], stored in an [ssize_t]. *)
Definition win_result (reply : rpm_reply) : Z :=
  if rpm_success reply then to_i64 (rpm_read reply) else -1.

(** [copy_memory], Windows branch. *)
Definition copy_memory_win (k : win_kernel) (pid addr len : Z) (buf : list Z)
    (w : world) : Z * list Z * world :=
  let reply  := k pid addr len in
  let result := win_result reply in
  let w1     := log_syscall {| sc_pid := pid; sc_addr := addr; sc_len := len |} w in
  let w2     :=
    if result =? -1 then
      if rpm_last_error reply =? ERROR_ACCESS_DENIED then set_error EPROCPERM w1
      else if rpm_last_error reply =? ERROR_INVALID_HANDLE
           then set_error EPROCNPID w1
      else set_error EMEMCOPY w1
    else w1 in
  (Z.b2z (negb (result =? len)), transfer buf (rpm_data reply) result, w2).

(** What one call of [mach_vm_read_overwrite] answers: its [kern_return_t],
    the size it stores through its last argument (the address of [result]),
    and the bytes found at the remote address. *)
Record mach_reply : Type := {
  mach_kr      : Z;
  mach_outsize : Z;
  mach_data    : list Z
}.

Definition mach_kernel : Type := Z -> Z -> Z -> mach_reply.

Definition KERN_SUCCESS : Z := 0.

(** [copy_memory], macOS branch. *)
Definition copy_memory_mac (k : mach_kernel) (pid addr len : Z) (buf : list Z)
    (w : world) : Z * list Z * world :=
  let reply  := k pid addr len in
  let result := to_i64 (mach_outsize reply) in
  let buf'   := transfer buf (mach_data reply) result in
  let w1     := log_syscall {| sc_pid := pid; sc_addr := addr; sc_len := len |} w in
  if negb (mach_kr reply =? KERN_SUCCESS) then (FAIL, buf', set_error EPROCNPID w1)
  else (Z.b2z (negb (result =? len)), buf', w1).

(** Kernels for the examples: a read of 8 bytes cut short after 3, on either
    system, a complete one, and a task that is gone. *)
Definition win_short : win_kernel := fun _ _ _ =>
  {| rpm_success := true; rpm_read := 3; rpm_last_error := 0;
     rpm_data := [1; 2; 3] |}.

Definition win_full : win_kernel := fun _ _ _ =>
  {| rpm_success := true; rpm_read := 8; rpm_last_error := 0;
     rpm_data := [1; 2; 3; 4; 5; 6; 7; 8] |}.

Definition mach_short : mach_kernel := fun _ _ _ =>
  {| mach_kr := KERN_SUCCESS; mach_outsize := 3; mach_data := [1; 2; 3] |}.

Definition mach_gone : mach_kernel := fun _ _ _ =>
  {| mach_kr := 1; mach_outsize := 0; mach_data := [] |}.

(* ========================================================================= *)
(** * Properties *)

(* ------------------------------------------------------------------------- *)
(** ** The remote memory reader *)

Lemma copy_memory_world k pid addr len buf w :
  snd (copy_memory k pid addr len buf w) =
  let w1 := log_syscall {| sc_pid := pid; sc_addr := addr; sc_len := len |} w in
  if rv_result (k pid addr len) =? -1
  then set_error (classify (rv_errno (k pid addr len))) w1
  else w1.
Proof.
  unfold copy_memory, classify; simpl.
  destruct (rv_result (k pid addr len) =? -1); [|reflexivity].
  destruct (rv_errno (k pid addr len) =? ESRCH); [reflexivity|].
  destruct (rv_errno (k pid addr len) =? EPERM); reflexivity.
Qed.

Lemma copy_memory_issued k pid addr len buf w :
  issued (snd (copy_memory k pid addr len buf w)) =
  issued w ++ [{| sc_pid := pid; sc_addr := addr; sc_len := len |}].
Proof.
  rewrite copy_memory_world; simpl.
  destruct (rv_result (k pid addr len) =? -1); reflexivity.
Qed.

(** C1 (as amended).  [copy_memory] knows no bounds and checks none: whatever
    the address, inside or outside [[min_raddr, max_raddr)] of the session,
    a read through the reader issues exactly one read system call, at that
    address; its result is the answer of the kernel for that address, and
    the bounds of the session have no part in it.  Keeping addresses within
    the bounds is left to the callers. *)
Theorem copy_memory_reads_any_address :
  forall (k : kernel) (self : py_proc_t) (addr len : Z) (buf : list Z)
         (w : world),
    issued (snd (copy_memory k (pid self) addr len buf w)) =
    issued w ++ [{| sc_pid := pid self; sc_addr := addr; sc_len := len |}] /\
    fst (fst (copy_memory k (pid self) addr len buf w)) =
    (if rv_result (k (pid self) addr len) =? len then 0 else 1) /\
    forall lo hi,
      copy_memory k (pid (with_bounds lo hi self)) addr len buf w =
      copy_memory k (pid self) addr len buf w.
Proof.
  intros k self addr len buf w.
  split; [apply copy_memory_issued|]. split.
  - unfold copy_memory. simpl.
    destruct (rv_result (k (pid self) addr len) =? len); reflexivity.
  - intros lo hi. reflexivity.
Qed.

(** C1, counterexample.  In a session whose bounds are
    [[0x400000, 0x1e00000)], a read at the address 0x10 is not rejected: the
    system call is issued, and it is the kernel that refuses it.  And
    [_py_proc__init] itself issues such a read: when the path of the
    interpreter contains ["[v"], its region is the [elf] region without
    counting for the bounds, and the header is read at its base, below
    [min_raddr]. *)
Lemma copy_memory_out_of_bounds_read :
  (let self := with_bounds 4194304 31457280 self0 in
   in_bounds (min_raddr self) (max_raddr self) 16 = false /\
   copy_memory demo_kernel (pid self) 16 8 (repeat 0 8) world0 =
   (1, repeat 0 8,
    {| austin_errno := Some EMEMCOPY;
       issued := [{| sc_pid := 4242; sc_addr := 16; sc_len := 8 |}];
       ehdr_v := repeat 0 64 |})) /\
  (let r := _py_proc__init check_sym_py demo_kernel demo_fs
              (MapsLines [venv_line; heap_line]) 400 self0 world0 in
   issued (snd r) = [{| sc_pid := 4242; sc_addr := 4194304; sc_len := 64 |}] /\
   exists x self',
     fst r = Done (x, self') /\
     min_raddr self' = 29360128 /\ max_raddr self' = 31457280 /\
     in_bounds (min_raddr self') (max_raddr self') 4194304 = false).
Proof.
  cbv zeta. split; [split; reflexivity|].
  split; [vm_compute; reflexivity|].
  eexists. eexists. split; [vm_compute; reflexivity|].
  repeat split.
Qed.

(** C2 (as amended).  [copy_memory] returns success (0) exactly when the
    value returned by the read system call equals [len], so that a read cut
    short is a failure; for [0 <= len] that is: exactly [len] bytes were
    transferred.  When the system call itself fails (-1) the error slot
    receives one kind: [EPROCNPID] for [ESRCH], [EPROCPERM] for [EPERM],
    [EMEMCOPY] for any other [errno].  When it does not, also on a read cut
    short, the error slot is left as it was.  One system call is issued per
    call: the read is never tried again. *)
Theorem copy_memory_result :
  forall (k : kernel) (pid addr len : Z) (buf : list Z) (w : world),
    let reply := k pid addr len in
    let '(r, buf', w') := copy_memory k pid addr len buf w in
    r = (if rv_result reply =? len then 0 else 1) /\
    (r = 0 <-> rv_result reply = len) /\
    austin_errno w' =
      (if rv_result reply =? -1 then Some (classify (rv_errno reply))
       else austin_errno w) /\
    buf' = transfer buf (rv_data reply) (rv_result reply) /\
    issued w' =
      issued w ++ [{| sc_pid := pid; sc_addr := addr; sc_len := len |}].
Proof.
  intros k pid0 addr len buf w reply.
  pose proof (copy_memory_world k pid0 addr len buf w) as Hw.
  pose proof (copy_memory_issued k pid0 addr len buf w) as Hi.
  unfold copy_memory in *. fold reply in Hw, Hi |- *. cbv zeta in *.
  simpl snd in Hw, Hi.
  split; [destruct (rv_result reply =? len); reflexivity|].
  split.
  - destruct (rv_result reply =? len) eqn:El; simpl.
    + apply Z.eqb_eq in El. tauto.
    + apply Z.eqb_neq in El. split; [discriminate | tauto].
  - split; [|split; [reflexivity | exact Hi]].
    rewrite Hw. destruct (rv_result reply =? -1); reflexivity.
Qed.

(** C2, counterexample.  A read of 8 bytes of which the kernel transfers 3
    is reported as a failure, and yet the error slot holds none of the three
    kinds afterwards: it is as empty as before. *)
Lemma copy_memory_short_read_unclassified :
  rv_result (demo_kernel 4242 29360128 8) = 3 /\
  fst (fst (copy_memory demo_kernel 4242 29360128 8 (repeat 0 8) world0)) = 1 /\
  austin_errno (snd (copy_memory demo_kernel 4242 29360128 8 (repeat 0 8) world0))
  = None.
Proof. repeat split; reflexivity. Qed.

(* ------------------------------------------------------------------------- *)
(** ** The maps listing: address bounds *)

Lemma ptr_range x : 0 <= ptr x <= UINT64_MAX.
Proof.
  unfold ptr, wrap, UINT64_MAX.
  pose proof (Z.mod_pos_bound x (2 ^ 64) ltac:(lia)). lia.
Qed.

Lemma ptr_minus_one : ptr (-1) = UINT64_MAX.
Proof. reflexivity. Qed.

Ltac split_ifs :=
  repeat match goal with
         | |- context [if ?c then _ else _] => destruct c eqn:?
         end.

Lemma real_region_code e :
  real_region e = (0 <=? matched e - 7) && counts_for_bounds e.
Proof.
  unfold real_region, counts_for_bounds.
  replace (0 <=? matched e - 7) with (7 <=? matched e)
    by (destruct (7 <=? matched e) eqn:A, (0 <=? matched e - 7) eqn:B; lia).
  replace (matched e - 7 =? 0) with (matched e =? 7)
    by (destruct (matched e =? 7) eqn:A, (matched e - 7 =? 0) eqn:B; lia).
  reflexivity.
Qed.

(** What one line does to the bounds. *)
Lemma parse_line_bounds fs st e :
  min_raddr (fst (parse_line fs st e)) =
    (if real_region e then Z.min (region_base e) (min_raddr (fst st))
     else min_raddr (fst st)) /\
  max_raddr (fst (parse_line fs st e)) =
    (if real_region e then Z.max (region_end e) (max_raddr (fst st))
     else max_raddr (fst st)).
Proof.
  rewrite real_region_code. destruct st as [self flag].
  unfold parse_line, region_base, region_end.
  destruct (0 <=? matched e - 7); [|split; reflexivity].
  destruct (counts_for_bounds e); simpl andb; cbv iota.
  - assert (min_raddr (widen e self) = Z.min (ptr (lower e)) (min_raddr self)
            /\ max_raddr (widen e self) = Z.max (ptr (upper e)) (max_raddr self))
      as [Hlo Hhi].
    { unfold widen; simpl. split.
      - destruct (ptr (lower e) <? min_raddr self) eqn:A; lia.
      - destruct (max_raddr self <? ptr (upper e)) eqn:A; lia. }
    cbn [fst]. rewrite <- Hlo, <- Hhi. split_ifs; split; reflexivity.
  - cbn [fst]. split_ifs; split; reflexivity.
Qed.

Lemma fold_parse_bounds fs lines : forall st,
  min_raddr (fst (fold_left (parse_line fs) lines st)) =
    fold_right Z.min (min_raddr (fst st))
      (List.map region_base (filter real_region lines)) /\
  max_raddr (fst (fold_left (parse_line fs) lines st)) =
    fold_right Z.max (max_raddr (fst st))
      (List.map region_end (filter real_region lines)).
Proof.
  induction lines as [|e lines IH]; intros st; simpl; [split; reflexivity|].
  destruct (IH (parse_line fs st e)) as [Hlo Hhi].
  destruct (parse_line_bounds fs st e) as [Elo Ehi].
  rewrite Hlo, Hhi, Elo, Ehi.
  destruct (real_region e); simpl; [|split; reflexivity].
  split.
  - generalize (List.map region_base (filter real_region lines)) as l.
    induction l as [|x l IHl]; simpl; lia.
  - generalize (List.map region_end (filter real_region lines)) as l.
    induction l as [|x l IHl]; simpl; lia.
Qed.

Lemma fold_min_lowest (l : list Z) (top : Z) :
  l <> [] -> Forall (fun b => b <= top) l ->
  is_lowest (fold_right Z.min top l) l.
Proof.
  intros Hne Hall. induction l as [|x l IH]; [congruence|].
  inversion Hall as [|? ? Hx Hl]; subst.
  destruct l as [|y l].
  - simpl. split; [left; lia | constructor; [lia | constructor]].
  - destruct (IH ltac:(discriminate) Hl) as [Hin Hle].
    set (m := fold_right Z.min top (y :: l)) in *.
    change (fold_right Z.min top (x :: y :: l)) with (Z.min x m).
    split.
    + destruct (Z.min_spec x m) as [[_ E]|[_ E]]; rewrite E;
        [left; reflexivity | right; exact Hin].
    + constructor; [lia|].
      eapply Forall_impl; [|exact Hle]. simpl; intros; lia.
Qed.

Lemma fold_max_highest (l : list Z) (bot : Z) :
  l <> [] -> Forall (fun b => bot <= b) l ->
  is_highest (fold_right Z.max bot l) l.
Proof.
  intros Hne Hall. induction l as [|x l IH]; [congruence|].
  inversion Hall as [|? ? Hx Hl]; subst.
  destruct l as [|y l].
  - simpl. split; [left; lia | constructor; [lia | constructor]].
  - destruct (IH ltac:(discriminate) Hl) as [Hin Hle].
    set (m := fold_right Z.max bot (y :: l)) in *.
    change (fold_right Z.max bot (x :: y :: l)) with (Z.max x m).
    split.
    + destruct (Z.max_spec x m) as [[_ E]|[_ E]]; rewrite E;
        [right; exact Hin | left; reflexivity].
    + constructor; [lia|].
      eapply Forall_impl; [|exact Hle]. simpl; intros; lia.
Qed.

(** C9, the code at the failing input.  The interpreter runs from a
    directory whose name contains ["[v"]: the listing has the line of
    [/opt/[venv]/bin/python3], mapped from 0x400000 to 0xa00000, and the
    heap, from 0x1c00000 to 0x1e00000.  The line of the interpreter is that
    of a region backed by a file, and the parse takes it for the binary and
    for the [elf] region; yet the test for pseudo-regions,
    [strstr(pathname, "[v")], leaves it out of the bounds: [min_raddr] is
    the base of the heap, above the whole region of the interpreter, and the
    base of the [elf] region is not within the bounds.  Among the real
    regions of the listing [min_raddr] is not the lowest base.  In general
    the bounds are the lowest base and the highest end among the lines
    that pass the test of the code. *)
Theorem bounds_leave_out_a_region_of_a_file :
  (let lines := [venv_line; heap_line] in
   let r := _py_proc__parse_maps_file demo_fs (MapsLines lines) self0 world0 in
   let s := snd (fst r) in
   file_backed venv_line = true /\
   strstr (pathname venv_line) "[v" = true /\
   real_region venv_line = false /\
   fst (fst r) = 0 /\ bin_path s = Some python_venv /\
   elf (proc_map s) = block_of venv_line /\
   region_base venv_line = 4194304 /\ region_end venv_line = 10485760 /\
   min_raddr s = 29360128 /\ max_raddr s = 31457280 /\
   region_end venv_line < min_raddr s /\
   in_bounds (min_raddr s) (max_raddr s) (base (elf (proc_map s))) = false /\
   ~ is_lowest (min_raddr s) (List.map region_base lines)) /\
  (forall (fs : filesystem) (lines : list maps_line) (self : py_proc_t)
          (w : world),
      filter real_region lines <> [] ->
      let self' :=
        snd (fst (_py_proc__parse_maps_file fs (MapsLines lines) self w)) in
      is_lowest (min_raddr self')
        (List.map region_base (filter real_region lines)) /\
      is_highest (max_raddr self')
        (List.map region_end (filter real_region lines))).
Proof.
  split.
  - cbv zeta.
    split; [reflexivity|]. split; [reflexivity|]. split; [reflexivity|].
    split; [reflexivity|]. split; [reflexivity|]. split; [reflexivity|].
    split; [reflexivity|]. split; [reflexivity|]. split; [reflexivity|].
    split; [reflexivity|]. split; [reflexivity|]. split; [reflexivity|].
    intros (_ & Hall). inversion Hall as [|? ? Hle _]; subst.
    vm_compute in Hle. apply Hle. reflexivity.
  - intros fs lines self w Hne self'.
    unfold _py_proc__parse_maps_file in self'.
    set (init := (with_paths _ _ _, 0)) in self'.
    assert (self' = fst (fold_left (parse_line fs) lines init)) as ->.
    { subst self'. destruct (fold_left (parse_line fs) lines init); reflexivity. }
    destruct (fold_parse_bounds fs lines init) as [Hlo Hhi].
    rewrite Hlo, Hhi. subst init. simpl fst. simpl min_raddr. simpl max_raddr.
    split.
    + apply fold_min_lowest.
      * intros E. apply map_eq_nil in E. contradiction.
      * apply Forall_forall. intros b Hb. apply in_map_iff in Hb.
        destruct Hb as (e & <- & _). rewrite ptr_minus_one.
        apply (ptr_range (lower e)).
    + apply fold_max_highest.
      * intros E. apply map_eq_nil in E. contradiction.
      * apply Forall_forall. intros b Hb. apply in_map_iff in Hb.
        destruct Hb as (e & <- & _). apply (ptr_range (upper e)).
Qed.

(* ------------------------------------------------------------------------- *)
(** ** The maps listing: the interpreter's binary and library *)

Lemma shiftl_1_20 : Z.shiftl 1 20 = MiB.
Proof. reflexivity. Qed.

Lemma field_count_ok m : (0 <=? m - 7) = (7 <=? m).
Proof. destruct (7 <=? m) eqn:A, (0 <=? m - 7) eqn:B; lia. Qed.

Lemma size_ok s : (s <? MiB) = negb (MiB <=? s).
Proof. destruct (s <? MiB) eqn:A, (MiB <=? s) eqn:B; simpl; lia. Qed.










Lemma parse_maps_file_self fs lines self w :
  snd (fst (_py_proc__parse_maps_file fs (MapsLines lines) self w)) =
  fst (fold_left (parse_line fs) lines
         (with_paths None None (with_bounds (ptr (-1)) 0 self), 0)).
Proof.
  unfold _py_proc__parse_maps_file, sfree.
  destruct (fold_left _ _ _); reflexivity.
Qed.




(* ------------------------------------------------------------------------- *)
(** ** The maps listing: the two paths after a successful load *)

Lemma maps_result_paths self flag :
  maps_result self flag = 0 ->
  (bin_path self <> None \/ lib_path self <> None) /\ flag = HEAP_MAP.
Proof.
  unfold maps_result.
  destruct (bin_path self), (lib_path self), (flag =? HEAP_MAP) eqn:E;
    simpl; intros H; try discriminate H;
    apply Z.eqb_eq in E; split; auto;
    first [left; discriminate | right; discriminate].
Qed.

(** C4, the code at the failing input.  A successful load never leaves both
    paths empty; but on a listing where a qualifying library comes before a
    qualifying executable the load succeeds with both [bin_path] and
    [lib_path] set: the library path taken first is not released when the
    executable is found, and the analysers then read the library file
    against the region of the executable. *)
Theorem exe_after_lib_sets_both_paths :
  (forall fs lines self w,
      fst (fst (_py_proc__parse_maps_file fs (MapsLines lines) self w)) = 0 ->
      let self' := snd (fst (_py_proc__parse_maps_file fs (MapsLines lines)
                               self w)) in
      bin_path self' <> None \/ lib_path self' <> None) /\
  (let r := _py_proc__parse_maps_file demo_fs
              (MapsLines [lib_line; exe_line; heap_line]) self0 world0 in
   fst (fst r) = 0 /\
   bin_path (snd (fst r)) = Some python_exe /\
   lib_path (snd (fst r)) = Some python_lib /\
   object_file (snd (fst r)) = Some python_lib /\
   elf (proc_map (snd (fst r))) = block_of exe_line).
Proof.
  split.
  - intros fs lines self w. unfold _py_proc__parse_maps_file.
    destruct (fold_left _ _ _) as [self1 flag]. simpl.
    intros H. apply maps_result_paths in H. tauto.
  - cbv zeta. repeat split; reflexivity.
Qed.

(* ------------------------------------------------------------------------- *)
(** ** Decoded fields are unsigned *)

Lemma byte_at_range img : forall off, 0 <= byte_at img off < 256.
Proof.
  induction img as [|b img IH]; intros off; simpl; [lia|].
  destruct (off =? 0); [apply Z.mod_pos_bound; lia | apply IH].
Qed.

Lemma rd_range img n : forall off, 0 <= rd img off n < 256 ^ Z.of_nat n.
Proof.
  induction n as [|n IH]; intros off.
  - simpl. lia.
  - rewrite Nat2Z.inj_succ, Z.pow_succ_r by lia.
    change (rd img off (S n)) with (byte_at img off + 256 * rd img (off + 1) n).
    pose proof (byte_at_range img off). pose proof (IH (off + 1)). nia.
Qed.

Lemma get_nonneg img p f : 0 <= get img p f.
Proof. unfold get. apply rd_range. Qed.

(* ------------------------------------------------------------------------- *)
(** ** The load bias *)

Section LoadBias.

Variable L : elf_class.

Lemma get_base_from_first ehdr elf_map i : forall n i0,
  i0 <= i < i0 + Z.of_nat n ->
  p_type L elf_map (phdr_off L ehdr i) = PT_LOAD ->
  (forall j, i0 <= j < i -> p_type L elf_map (phdr_off L ehdr j) <> PT_LOAD) ->
  p_align L elf_map (phdr_off L ehdr i) <> 0 ->
  get_base_from L ehdr elf_map n i0 =
  Done (align_down (p_vaddr L elf_map (phdr_off L ehdr i))
                   (p_align L elf_map (phdr_off L ehdr i))).
Proof.
  induction n as [|n IH]; intros i0 Hi Hload Hbefore Halign; [lia|].
  simpl get_base_from.
  destruct (Z.eq_dec i0 i) as [->|Hne].
  - rewrite Hload, Z.eqb_refl.
    destruct (p_align L elf_map (phdr_off L ehdr i) =? 0) eqn:E;
      [apply Z.eqb_eq in E; contradiction | reflexivity].
  - destruct (p_type L elf_map (phdr_off L ehdr i0) =? PT_LOAD) eqn:E.
    + apply Z.eqb_eq in E. exfalso. apply (Hbefore i0); [lia | exact E].
    + apply IH; auto; [lia|]. intros j Hj. apply Hbefore. lia.
Qed.

Lemma get_base_from_none ehdr elf_map : forall n i0,
  (forall j, i0 <= j < i0 + Z.of_nat n ->
             p_type L elf_map (phdr_off L ehdr j) <> PT_LOAD) ->
  get_base_from L ehdr elf_map n i0 = Done (no_base L).
Proof.
  induction n as [|n IH]; intros i0 Hnone; [reflexivity|].
  simpl get_base_from.
  destruct (p_type L elf_map (phdr_off L ehdr i0) =? PT_LOAD) eqn:E.
  - apply Z.eqb_eq in E. exfalso. apply (Hnone i0); [lia | exact E].
  - apply IH. intros j Hj. apply Hnone. lia.
Qed.

Lemma get_base_first_load ehdr elf_map i :
  first_load L ehdr elf_map i ->
  p_align L elf_map (phdr_off L ehdr i) <> 0 ->
  get_base L ehdr elf_map =
  Done (align_down (p_vaddr L elf_map (phdr_off L ehdr i))
                   (p_align L elf_map (phdr_off L ehdr i))).
Proof.
  intros (Hi & Hload & Hbefore) Halign. unfold get_base.
  apply get_base_from_first; auto.
  rewrite Z2Nat.id; lia.
Qed.

Lemma get_base_no_load ehdr elf_map :
  no_load L ehdr elf_map -> get_base L ehdr elf_map = Done (no_base L).
Proof.
  intros H. unfold get_base. apply get_base_from_none.
  intros j Hj. apply H.
  pose proof (get_nonneg ehdr 0 (f_e_phnum L)).
  unfold e_phnum in *. rewrite Z2Nat.id in Hj; lia.
Qed.

(** Without loadable segment the analysers stop at once: unless the
    process dies on the mapping of the file, the result is [!0], [self] is
    as before and no symbol entry is examined. *)
Lemma analyze_no_load with_bss check_sym fs fuel ehdr self path :
  object_file self = Some path ->
  no_load L ehdr (contents fs path) ->
  analyze_elf_class L with_bss check_sym fs fuel ehdr self = Fault \/
  analyze_elf_class L with_bss check_sym fs fuel ehdr self = Done (1, self, []).
Proof.
  intros Hp Hn. unfold analyze_elf_class. rewrite Hp.
  destruct (_ || _); [left; reflexivity|]. right.
  rewrite (get_base_no_load _ _ Hn). simpl bind.
  rewrite Z.eqb_refl. reflexivity.
Qed.

End LoadBias.

Lemma align_down_spec v a :
  0 <= v -> 0 < a ->
  (a | align_down v a) /\ align_down v a <= v < align_down v a + a.
Proof.
  intros Hv Ha. unfold align_down.
  pose proof (Z.mod_pos_bound v a Ha).
  split; [|lia].
  exists (v / a). pose proof (Z.div_mod v a ltac:(lia)). lia.
Qed.

Lemma demo64_first_load :
  first_load ELF64 (demo64_ehdr ET_EXEC) (demo64 ET_EXEC) 1.
Proof.
  split; [vm_compute; split; [discriminate | reflexivity]|].
  split; [reflexivity|].
  intros j Hj. assert (j = 0) as -> by lia. vm_compute. discriminate.
Defined.

Lemma demo32_first_load :
  first_load ELF32 (demo32_ehdr ET_EXEC) (demo32 ET_EXEC) 1.
Proof.
  split; [vm_compute; split; [discriminate | reflexivity]|].
  split; [reflexivity|].
  intros j Hj. assert (j = 0) as -> by lia. vm_compute. discriminate.
Defined.

Lemma noload64_no_load : no_load ELF64 (demo64_ehdr ET_EXEC) noload64.
Proof.
  intros j Hj. change (e_phnum ELF64 (demo64_ehdr ET_EXEC)) with 2 in Hj.
  assert (j = 0 \/ j = 1) as [-> | ->] by lia; vm_compute; discriminate.
Defined.

Lemma noload32_no_load : no_load ELF32 (demo32_ehdr ET_EXEC) noload32.
Proof.
  intros j Hj. change (e_phnum ELF32 (demo32_ehdr ET_EXEC)) with 2 in Hj.
  assert (j = 0 \/ j = 1) as [-> | ->] by lia; vm_compute; discriminate.
Defined.

(** C6, the code at the failing input.  [_get_base_64] and [_get_base_32]
    find the first loadable program header and compute
    [p_vaddr - p_vaddr % p_align].  On an object file whose first loadable
    segment has [p_align = 0] (no alignment required) this is a division by
    zero: the sample file with that one field zeroed has its loadable
    segment at 0x400040, and neither [_get_base_64] nor the analyser gives a
    result, where the untouched sample gives 0x400000.  For every non-zero
    alignment the code computes what the claim says: the virtual address
    aligned down, a multiple of the alignment at most [p_align - 1] below
    the address.  When no program header is loadable the result is the
    maximum address ([UINT64_MAX], [UINT32_MAX]), and the analyser, unless
    the process dies on the mapping of the file, reports failure, with
    [self] untouched and no symbol examined. *)
Theorem load_bias_divides_by_a_zero_alignment :
  (first_load ELF64 (demo64_ehdr ET_EXEC) zeroalign64 1 /\
   p_vaddr ELF64 zeroalign64 (phdr_off ELF64 (demo64_ehdr ET_EXEC) 1) = 4194368 /\
   p_align ELF64 zeroalign64 (phdr_off ELF64 (demo64_ehdr ET_EXEC) 1) = 0 /\
   _get_base_64 (demo64_ehdr ET_EXEC) zeroalign64 = Fault /\
   _py_proc__analyze_elf64 check_sym_py (fs_of zeroalign64) 400 attached loaded64
   = Fault) /\
  (first_load ELF64 (demo64_ehdr ET_EXEC) (demo64 ET_EXEC) 1 /\
   p_vaddr ELF64 (demo64 ET_EXEC) (phdr_off ELF64 (demo64_ehdr ET_EXEC) 1)
   = 4194368 /\
   p_align ELF64 (demo64 ET_EXEC) (phdr_off ELF64 (demo64_ehdr ET_EXEC) 1)
   = 4096 /\
   _get_base_64 (demo64_ehdr ET_EXEC) (demo64 ET_EXEC) = Done 4194304 /\
   _get_base_32 (demo32_ehdr ET_EXEC) (demo32 ET_EXEC) = Done 134512640 /\
   _get_base_64 (demo64_ehdr ET_EXEC) noload64 = Done UINT64_MAX /\
   _get_base_32 (demo32_ehdr ET_EXEC) noload32 = Done UINT32_MAX /\
   _py_proc__analyze_elf64 check_sym_py demo_fs 100 noload_self
     (set_ehdr_v (demo64_ehdr ET_EXEC) world0) = Done (1, noload_self, [])) /\
  (forall ehdr elf_map i,
      first_load ELF64 ehdr elf_map i ->
      p_align ELF64 elf_map (phdr_off ELF64 ehdr i) <> 0 ->
      let vaddr := p_vaddr ELF64 elf_map (phdr_off ELF64 ehdr i) in
      let align := p_align ELF64 elf_map (phdr_off ELF64 ehdr i) in
      _get_base_64 ehdr elf_map = Done (vaddr - vaddr mod align) /\
      (align | vaddr - vaddr mod align) /\
      vaddr - align < vaddr - vaddr mod align <= vaddr) /\
  (forall ehdr elf_map i,
      first_load ELF32 ehdr elf_map i ->
      p_align ELF32 elf_map (phdr_off ELF32 ehdr i) <> 0 ->
      let vaddr := p_vaddr ELF32 elf_map (phdr_off ELF32 ehdr i) in
      let align := p_align ELF32 elf_map (phdr_off ELF32 ehdr i) in
      _get_base_32 ehdr elf_map = Done (vaddr - vaddr mod align) /\
      (align | vaddr - vaddr mod align) /\
      vaddr - align < vaddr - vaddr mod align <= vaddr) /\
  (forall ehdr elf_map,
      no_load ELF64 ehdr elf_map -> _get_base_64 ehdr elf_map = Done UINT64_MAX) /\
  (forall ehdr elf_map,
      no_load ELF32 ehdr elf_map -> _get_base_32 ehdr elf_map = Done UINT32_MAX) /\
  (forall check_sym fs fuel self w path,
      object_file self = Some path ->
      no_load ELF64 (ehdr_v w) (contents fs path) ->
      _py_proc__analyze_elf64 check_sym fs fuel self w = Fault \/
      _py_proc__analyze_elf64 check_sym fs fuel self w = Done (1, self, [])) /\
  (forall check_sym fs fuel self w path,
      object_file self = Some path ->
      no_load ELF32 (ehdr_v w) (contents fs path) ->
      _py_proc__analyze_elf32 check_sym fs fuel self w = Fault \/
      _py_proc__analyze_elf32 check_sym fs fuel self w = Done (1, self, [])).
Proof.
  assert (forall L ehdr elf_map i,
             first_load L ehdr elf_map i ->
             p_align L elf_map (phdr_off L ehdr i) <> 0 ->
             let vaddr := p_vaddr L elf_map (phdr_off L ehdr i) in
             let align := p_align L elf_map (phdr_off L ehdr i) in
             get_base L ehdr elf_map = Done (vaddr - vaddr mod align) /\
             (align | vaddr - vaddr mod align) /\
             vaddr - align < vaddr - vaddr mod align <= vaddr) as Hfirst.
  { intros L ehdr elf_map i Hf Ha vaddr align.
    split; [apply (get_base_first_load L ehdr elf_map i Hf Ha)|].
    pose proof (get_nonneg elf_map (phdr_off L ehdr i) (f_p_vaddr L)) as Hv.
    pose proof (get_nonneg elf_map (phdr_off L ehdr i) (f_p_align L)) as Hal.
    fold (p_vaddr L elf_map (phdr_off L ehdr i)) in Hv.
    fold (p_align L elf_map (phdr_off L ehdr i)) in Hal.
    destruct (align_down_spec vaddr align Hv) as [Hd Hb];
      [subst align; lia|].
    unfold align_down in *. split; [exact Hd | lia]. }
  split; [|split; [|split; [|split; [|split; [|split; [|split]]]]]].
  - split.
    { split; [vm_compute; split; [discriminate | reflexivity]|].
      split; [reflexivity|].
      intros j Hj. assert (j = 0) as -> by lia. vm_compute. discriminate. }
    split; [reflexivity|]. split; [reflexivity|].
    split; vm_compute; reflexivity.
  - split; [exact demo64_first_load|].
    split; [reflexivity|]. split; [reflexivity|].
    split; [vm_compute; reflexivity|]. split; [vm_compute; reflexivity|].
    split; [apply (get_base_no_load ELF64); exact noload64_no_load|].
    split; [apply (get_base_no_load ELF32); exact noload32_no_load|].
    vm_compute. reflexivity.
  - intros; apply (Hfirst ELF64); assumption.
  - intros; apply (Hfirst ELF32); assumption.
  - intros; apply (get_base_no_load ELF64); assumption.
  - intros; apply (get_base_no_load ELF32); assumption.
  - intros check_sym fs fuel self w path Hp Hn.
    unfold _py_proc__analyze_elf64.
    exact (analyze_no_load ELF64 _ _ _ _ _ _ _ Hp Hn).
  - intros check_sym fs fuel self w path Hp Hn.
    unfold _py_proc__analyze_elf32.
    exact (analyze_no_load ELF32 _ _ _ _ _ _ _ Hp Hn).
Qed.

(* ------------------------------------------------------------------------- *)
(** ** The scan of the dynamic symbols *)

Lemma resolved_cons x seen : resolved (x :: seen) = Z.b2z (snd x) + resolved seen.
Proof. reflexivity. Qed.

Lemma b2z_range b : 0 <= Z.b2z b <= 1.
Proof. destruct b; simpl; lia. Qed.

Lemma resolved_nonneg seen : 0 <= resolved seen.
Proof.
  induction seen as [|x seen IH]; [simpl; lia|].
  rewrite resolved_cons. pose proof (b2z_range (snd x)). lia.
Qed.

Section SymbolScan.

Variable L : elf_class.
Variable check_sym : string -> Z -> runtime_anchors -> bool * runtime_anchors.
Variable elf_map : list Z.
Variables strtab_off elf_base vbase bound entsize : Z.

Let scan fuel tab_off symbols a :=
  scan_symbols L check_sym fuel elf_map strtab_off elf_base vbase bound entsize
    tab_off symbols a.

Lemma scan_symbols_spec : forall fuel tab_off symbols a s a' seen,
  symbols < SYMBOLS ->
  scan fuel tab_off symbols a = Done (s, a', seen) ->
  s = symbols + resolved seen /\
  s <= SYMBOLS /\
  in_table_order (width L) bound entsize tab_off seen /\
  (forall n, (n < List.length seen)%nat ->
             symbols + resolved (firstn n seen) < SYMBOLS) /\
  (s < SYMBOLS -> bound <= offset_after (width L) entsize tab_off seen).
Proof.
  unfold scan.
  induction fuel as [|fuel IH]; intros tab_off symbols a s a' seen Hlt H;
    [discriminate H|].
  simpl in H.
  destruct (tab_off <? bound) eqn:Hb.
  - apply Z.ltb_lt in Hb.
    destruct (check_sym (sym_name L elf_map strtab_off tab_off)
                (sym_value L elf_map elf_base vbase tab_off) a) as [r a1].
    pose proof (b2z_range r) as Hr.
    destruct (SYMBOLS <=? symbols + Z.b2z r) eqn:Hs.
    + apply Z.leb_le in Hs. inversion H; subst; clear H.
      unfold SYMBOLS in *. simpl resolved.
      split; [lia|]. split; [lia|]. split; [simpl; auto|]. split; [|lia].
      intros n Hn. simpl in Hn. assert (n = 0%nat) as -> by lia.
      simpl. lia.
    + apply Z.leb_gt in Hs.
      destruct (scan_symbols L check_sym fuel elf_map strtab_off elf_base vbase
                  bound entsize (wrap (width L) (tab_off + entsize))
                  (symbols + Z.b2z r) a1) as [[[s1 a2] seen1]| |] eqn:E;
        simpl in H; try discriminate H.
      inversion H; subst; clear H.
      destruct (IH _ _ _ _ _ _ Hs E) as (Hsum & Hle & Hord & Hpre & Hend).
      rewrite resolved_cons. simpl snd.
      split; [lia|]. split; [lia|]. split; [simpl; auto|]. split.
      * intros n Hn. destruct n as [|n]; [simpl; lia|].
        simpl firstn. rewrite resolved_cons. simpl snd.
        simpl in Hn. specialize (Hpre n ltac:(lia)). lia.
      * intros Hs1. simpl. apply Hend. lia.
  - apply Z.ltb_ge in Hb. inversion H; subst; clear H.
    simpl. split; [lia|]. split; [lia|]. split; [exact I|]. split; [|lia].
    intros n Hn. simpl in Hn. lia.
Qed.

(** With a positive entry size and a table that ends before the offsets
    wrap around, the scan returns as soon as the fuel exceeds the length of
    the table. *)
Lemma scan_symbols_returns : forall fuel tab_off symbols a,
  0 < entsize -> 0 <= tab_off -> bound + entsize <= 2 ^ width L ->
  (Z.to_nat (bound - tab_off) < fuel)%nat ->
  exists res, scan fuel tab_off symbols a = Done res.
Proof.
  unfold scan.
  induction fuel as [|fuel IH]; intros tab_off symbols a He H0 Hw Hf; [lia|].
  simpl.
  destruct (tab_off <? bound) eqn:Hb; [|eauto].
  apply Z.ltb_lt in Hb.
  destruct (check_sym (sym_name L elf_map strtab_off tab_off)
              (sym_value L elf_map elf_base vbase tab_off) a) as [r a1].
  destruct (SYMBOLS <=? symbols + Z.b2z r); [eauto|].
  assert (wrap (width L) (tab_off + entsize) = tab_off + entsize) as Hwrap.
  { unfold wrap. apply Z.mod_small. lia. }
  rewrite Hwrap.
  destruct (IH (tab_off + entsize) (symbols + Z.b2z r) a1) as [[[s1 a2] seen1] E];
    try lia.
  rewrite E. simpl. eauto.
Qed.

End SymbolScan.

(* ------------------------------------------------------------------------- *)
(** ** The scan of the section headers *)

Lemma same_but_bss_refl self : same_but_bss self self.
Proof. unfold same_but_bss. destruct self as [? ? ? ? ? [? ? ?] ?]. reflexivity. Qed.

Lemma same_but_bss_trans a b c :
  same_but_bss a b -> same_but_bss b c -> same_but_bss a c.
Proof.
  unfold same_but_bss. intros H1 H2. rewrite H2 at 1. rewrite H1 at 1 2.
  reflexivity.
Qed.

Lemma same_but_bss_elf a b :
  same_but_bss a b -> elf (proc_map b) = elf (proc_map a).
Proof. unfold same_but_bss. intros ->. reflexivity. Qed.

Section SectionScan.

Variable L : elf_class.
Variable with_bss : bool.
Variables ehdr elf_map : list Z.
Variables sh_name_base vbase elf_map_size : Z.

Let step := section_step L with_bss elf_map sh_name_base vbase.
Let name := section_name L elf_map sh_name_base.
Let seen_from := visits (width L) (e_shentsize L ehdr) elf_map_size.

Lemma bss_block_elf p self1 self2 :
  elf (proc_map self1) = elf (proc_map self2) ->
  bss_block L elf_map vbase p self1 = bss_block L elf_map vbase p self2.
Proof. unfold bss_block. intros ->. reflexivity. Qed.

Lemma section_step_same p st : same_but_bss (snd st) (snd (step p st)).
Proof.
  unfold step, section_step. destruct st as [d self].
  destruct (_ && _); [apply same_but_bss_refl|].
  destruct (_ && _); [|apply same_but_bss_refl].
  unfold same_but_bss. reflexivity.
Qed.

Lemma section_step_bss p st :
  (name p = ".bss"%string /\ with_bss = true /\
   bss (proc_map (snd (step p st))) = bss_block L elf_map vbase p (snd st)) \/
  ((name p <> ".bss"%string \/ with_bss = false) /\ snd (step p st) = snd st).
Proof.
  unfold step, section_step, name. destruct st as [d self].
  destruct (String.eqb_spec (section_name L elf_map sh_name_base p) ".bss")
    as [E|E].
  - rewrite E. simpl String.eqb. rewrite andb_false_r.
    destruct with_bss; simpl; [left | right]; auto.
  - right. rewrite andb_false_r.
    destruct (_ && _); simpl; auto.
Qed.

Lemma section_step_dynsym p st :
  (sh_type L elf_map p = SHT_DYNSYM /\ name p = ".dynsym"%string /\
   fst (step p st) = Some p) \/
  fst (step p st) = fst st.
Proof.
  unfold step, section_step, name. destruct st as [d self].
  destruct (sh_type L elf_map p =? SHT_DYNSYM) eqn:Et; simpl.
  - destruct (String.eqb_spec (section_name L elf_map sh_name_base p) ".dynsym")
      as [E|E].
    + left. apply Z.eqb_eq in Et. auto.
    + right. destruct (_ && _); reflexivity.
  - right. destruct (_ && _); reflexivity.
Qed.

(** What the loop over the section headers leaves behind: [self] up to
    [bss]; in [bss], the block of a visited section named [.bss] when the
    branch for it exists and there is such a section, and the former block
    otherwise; in [p_dynsym], a visited header of type [SHT_DYNSYM] named
    [.dynsym], or the former value. *)
Lemma scan_sections_spec : forall fuel sh_off st res,
  scan_sections L with_bss fuel ehdr elf_map sh_name_base vbase elf_map_size
    sh_off st = Done res ->
  same_but_bss (snd st) (snd res) /\
  ((with_bss = true /\
    exists p, seen_from sh_off p /\ name p = ".bss"%string /\
              bss (proc_map (snd res)) = bss_block L elf_map vbase p (snd st)) \/
   (snd res = snd st /\
    (with_bss = false \/
     forall p, seen_from sh_off p -> name p <> ".bss"%string))) /\
  ((exists p, seen_from sh_off p /\ sh_type L elf_map p = SHT_DYNSYM /\
              name p = ".dynsym"%string /\ fst res = Some p) \/
   fst res = fst st).
Proof.
  induction fuel as [|fuel IH]; intros sh_off st res H; [discriminate H|].
  simpl in H.
  destruct (sh_off <? elf_map_size) eqn:Hb.
  - apply Z.ltb_lt in Hb.
    apply IH in H. fold (step sh_off st) in H.
    destruct H as (Hsame & Hbss & Hdyn).
    pose proof (section_step_same sh_off st) as Hs1.
    split; [eapply same_but_bss_trans; eauto|]. split.
    + destruct Hbss as [(Hw & p & Hv & Hn & Hb1) | (Heq & Hno)].
      * left. split; [exact Hw|]. exists p.
        split; [apply visits_later; assumption|]. split; [exact Hn|].
        rewrite Hb1. apply bss_block_elf. apply same_but_bss_elf. exact Hs1.
      * destruct (section_step_bss sh_off st) as [(Hn & Hw & Hb1) | (Hn & Hu)].
        -- left. split; [exact Hw|]. exists sh_off.
           split; [apply visits_here; assumption|]. split; [exact Hn|].
           rewrite Heq. exact Hb1.
        -- right. split; [congruence|].
           destruct Hno as [Hw | Hno]; [left; exact Hw|].
           destruct Hn as [Hn | Hw]; [|left; exact Hw].
           right. intros p Hp. inversion Hp; subst; auto.
    + destruct Hdyn as [(p & Hv & Ht & Hn & Hf) | Hf].
      * left. exists p. split; [apply visits_later; assumption | auto].
      * destruct (section_step_dynsym sh_off st) as [(Ht & Hn & Hd) | Hd].
        -- left. exists sh_off.
           split; [apply visits_here; assumption|].
           repeat split; congruence.
        -- right. congruence.
  - apply Z.ltb_ge in Hb. inversion H; subst; clear H.
    split; [apply same_but_bss_refl|]. split; [|right; reflexivity].
    right. split; [reflexivity|].
    right. intros p Hp. inversion Hp; subst; lia.
Qed.

End SectionScan.

(* ------------------------------------------------------------------------- *)
(** ** The analysers, step by step *)

Lemma resolve_symbols_spec L check_sym fuel ehdr elf_map vbase p_dynsym self
    s a seen :
  resolve_symbols L check_sym fuel ehdr elf_map vbase p_dynsym self
  = Done (s, a, seen) ->
  s = resolved seen /\ s <= SYMBOLS /\ short_circuit seen /\
  (seen = [] \/ exists d, p_dynsym = Some d /\ table_scan L elf_map d seen).
Proof.
  unfold resolve_symbols, table_scan, short_circuit.
  destruct p_dynsym as [d|].
  - destruct (sh_offset L elf_map d =? 0).
    + intros H; inversion H; subst. simpl.
      unfold SYMBOLS. repeat split; try lia; auto.
    + intros H. apply scan_symbols_spec in H; [|unfold SYMBOLS; lia].
      destruct H as (Hs & Hle & Hord & Hpre & Hend).
      split; [lia|]. split; [lia|]. split.
      * intros n Hn. specialize (Hpre n Hn). lia.
      * right. exists d. split; [reflexivity|]. split; [exact Hord|].
        intros Hlt. apply Hend. lia.
  - intros H; inversion H; subst. simpl.
    unfold SYMBOLS. repeat split; try lia; auto.
Qed.

Lemma analyze_elf_class_inv L with_bss check_sym fs fuel ehdr self r self' seen :
  analyze_elf_class L with_bss check_sym fs fuel ehdr self
  = Done (r, self', seen) ->
  exists path vbase,
    object_file self = Some path /\
    get_base L ehdr (contents fs path) = Done vbase /\
    ((vbase = no_base L /\ r = 1 /\ self' = self /\ seen = []) \/
     (vbase <> no_base L /\
      exists p_dynsym self1 s a,
        scan_sections L with_bss fuel ehdr (contents fs path)
          (sh_name_base_of L ehdr (contents fs path)) vbase
          (elf_map_size_of L ehdr) (e_shoff L ehdr) (None, self)
        = Done (p_dynsym, self1) /\
        resolve_symbols L check_sym fuel ehdr (contents fs path) vbase
          p_dynsym self1 = Done (s, a, seen) /\
        r = Z.b2z (s =? 0) /\ self' = with_anchors a self1)).
Proof.
  unfold analyze_elf_class. intros H.
  destruct (object_file self) as [path|]; [|discriminate H].
  exists path.
  destruct (_ || _); [discriminate H|].
  destruct (get_base L ehdr (contents fs path)) as [vbase| |];
    simpl in H; try discriminate H.
  exists vbase. split; [reflexivity|]. split; [reflexivity|].
  destruct (vbase =? no_base L) eqn:E; simpl in H.
  - apply Z.eqb_eq in E. inversion H; subst. left. auto.
  - apply Z.eqb_neq in E. right. split; [exact E|].
    fold (elf_map_size_of L ehdr) in H.
    fold (sh_name_base_of L ehdr (contents fs path)) in H.
    destruct (scan_sections _ _ _ _ _ _ _ _ _ _) as [[p_dynsym self1]| |]
      eqn:E1; simpl in H; try discriminate H.
    destruct (resolve_symbols _ _ _ _ _ _ _ _) as [[[s a] seen1]| |]
      eqn:E2; simpl in H; try discriminate H.
    inversion H; subst. exists p_dynsym, self1, s, a. auto.
Qed.

(** The count that a finished analysis reports, for either class. *)
Lemma analyze_elf_class_seen L with_bss check_sym fs fuel ehdr self r self'
    seen path :
  object_file self = Some path ->
  analyze_elf_class L with_bss check_sym fs fuel ehdr self
  = Done (r, self', seen) ->
  r = Z.b2z (resolved seen =? 0) /\
  short_circuit seen /\ resolved seen <= SYMBOLS.
Proof.
  intros Hp H. apply analyze_elf_class_inv in H.
  destruct H as (path' & vbase & Hp' & _ & [(_ & Hr & _ & Hs) | (_ & H)]).
  - subst. unfold short_circuit, SYMBOLS. simpl.
    repeat split; try lia; auto.
  - destruct H as (d & self1 & s & a & Hscan & Hres & Hr & _).
    apply resolve_symbols_spec in Hres.
    destruct Hres as (Hs & Hle & Hsc & _). subst s.
    split; [exact Hr|]. split; [exact Hsc | exact Hle].
Qed.

(* ------------------------------------------------------------------------- *)
(** ** The analysers return *)

Lemma get_base_from_returns L ehdr elf_map : forall n i,
  get_base_from L ehdr elf_map n i <> OutOfFuel.
Proof.
  induction n as [|n IH]; intros i; simpl; [discriminate|].
  destruct (_ =? PT_LOAD); [|apply IH].
  destruct (_ =? 0); discriminate.
Qed.

Lemma scan_sections_returns L with_bss ehdr elf_map sh_name_base vbase bound :
  forall fuel sh_off st,
    0 < e_shentsize L ehdr -> 0 <= sh_off ->
    bound + e_shentsize L ehdr <= 2 ^ width L ->
    (Z.to_nat (bound - sh_off) < fuel)%nat ->
    exists res,
      scan_sections L with_bss fuel ehdr elf_map sh_name_base vbase bound
        sh_off st = Done res.
Proof.
  induction fuel as [|fuel IH]; intros sh_off st He H0 Hw Hf; [lia|].
  simpl.
  destruct (sh_off <? bound) eqn:Hb; [|eauto].
  apply Z.ltb_lt in Hb.
  assert (wrap (width L) (sh_off + e_shentsize L ehdr)
          = sh_off + e_shentsize L ehdr) as ->.
  { unfold wrap. apply Z.mod_small. lia. }
  apply IH; lia.
Qed.

(** Why the tables have to be well formed.  With a zero entry size the
    loop over the symbols stays on the first entry: unless that entry is an
    anchor, no amount of fuel brings the scan to an end. *)
Lemma scan_symbols_zero_entsize L check_sym elf_map strtab_off elf_base vbase
    bound tab_off a :
  0 <= tab_off < 2 ^ width L -> tab_off < bound ->
  (forall a', check_sym (sym_name L elf_map strtab_off tab_off)
                (sym_value L elf_map elf_base vbase tab_off) a' = (false, a')) ->
  forall fuel,
    scan_symbols L check_sym fuel elf_map strtab_off elf_base vbase bound 0
      tab_off 0 a = OutOfFuel.
Proof.
  intros Hr Hb Hc fuel. induction fuel as [|fuel IH]; [reflexivity|].
  simpl. apply Z.ltb_lt in Hb. rewrite Hb, Hc. simpl.
  replace (wrap (width L) (tab_off + 0)) with tab_off
    by (unfold wrap; rewrite Z.add_0_r, Z.mod_small; lia).
  rewrite IH. reflexivity.
Qed.

(** And a loadable segment with a zero alignment makes the computation of
    the load bias divide by zero. *)
Lemma get_base_zero_align L ehdr elf_map :
  0 < e_phnum L ehdr ->
  p_type L elf_map (phdr_off L ehdr 0) = PT_LOAD ->
  p_align L elf_map (phdr_off L ehdr 0) = 0 ->
  get_base L ehdr elf_map = Fault.
Proof.
  intros Hn Ht Ha. unfold get_base.
  destruct (Z.to_nat (e_phnum L ehdr)) as [|n] eqn:E; [lia|].
  simpl. rewrite Ht, Ha. reflexivity.
Qed.

(** On well-formed tables the analysers come to an end, with a result or
    with a fault. *)
Lemma analysis_returns L with_bss check_sym fs fuel ehdr self path :
  object_file self = Some path ->
  tables_well_formed L ehdr (contents fs path) fuel ->
  analyze_elf_class L with_bss check_sym fs fuel ehdr self <> OutOfFuel.
Proof.
  intros Hp (Hfuel & Hoff & Hsec & Hsym).
  unfold analyze_elf_class. rewrite Hp.
  destruct (_ || _); [discriminate|].
  fold (elf_map_size_of L ehdr).
  fold (sh_name_base_of L ehdr (contents fs path)).
  destruct (get_base L ehdr (contents fs path)) as [vbase| |] eqn:Eb;
    simpl; [|discriminate|].
  2:{ exfalso. exact (get_base_from_returns L ehdr (contents fs path) _ _ Eb). }
  destruct (vbase =? no_base L); simpl; [discriminate|].
  pose proof (get_nonneg ehdr 0 (f_e_shoff L)) as Hoff0.
  pose proof (get_nonneg ehdr 0 (f_e_shentsize L)) as Hent0.
  fold (e_shoff L ehdr) in Hoff0. fold (e_shentsize L ehdr) in Hent0.
  assert (exists res,
             scan_sections L with_bss fuel ehdr (contents fs path)
               (sh_name_base_of L ehdr (contents fs path)) vbase
               (elf_map_size_of L ehdr) (e_shoff L ehdr) (None, self)
             = Done res) as [[d self1] Hscan].
  { destruct (Z.eq_dec (e_shentsize L ehdr) 0) as [Hz | Hnz].
    - assert (elf_map_size_of L ehdr = e_shoff L ehdr) as Hsame.
      { unfold elf_map_size_of. rewrite Hz, Z.mul_0_r.
        change (to_u64 (to_i32 0)) with 0. rewrite Z.add_0_r.
        unfold wrap. apply Z.mod_small. lia. }
      destruct fuel as [|fuel]; [lia|]. simpl. rewrite Hsame.
      rewrite Z.ltb_irrefl. eauto.
    - destruct (Hsec ltac:(lia)) as (Hw & Hf).
      apply scan_sections_returns; lia. }
  rewrite Hscan. simpl.
  pose proof Hscan as Hspec. apply scan_sections_spec in Hspec.
  destruct Hspec as (_ & _ & Hd). simpl fst in Hd.
  assert (exists res,
             resolve_symbols L check_sym fuel ehdr (contents fs path) vbase d
               self1 = Done res) as [[[s a] seen] Hres].
  { unfold resolve_symbols.
    destruct Hd as [(p & Hvis & Ht & _ & ->) | ->]; [|eauto].
    destruct (sh_offset L (contents fs path) p =? 0); [eauto|].
    destruct (Hsym p Hvis Ht) as (Hent & Hend & Hf).
    pose proof (get_nonneg (contents fs path) p (f_sh_offset L)) as Ho.
    pose proof (get_nonneg (contents fs path) p (f_sh_size L)) as Hs.
    fold (sh_offset L (contents fs path) p) in Ho.
    fold (sh_size L (contents fs path) p) in Hs.
    assert (wrap (width L)
              (sh_offset L (contents fs path) p + sh_size L (contents fs path) p)
            = sh_offset L (contents fs path) p + sh_size L (contents fs path) p)
      as ->.
    { unfold wrap. apply Z.mod_small. lia. }
    apply scan_symbols_returns; lia. }
  rewrite Hres. simpl. discriminate.
Qed.

(* ------------------------------------------------------------------------- *)
(** ** Sample analyses *)

Lemma demo64_analysis :
  _py_proc__analyze_elf64 check_sym_py demo_fs 400 attached loaded64 =
  Done (0, analysed64, [(176, false); (200, true); (224, false); (248, true)]).
Proof. vm_compute. reflexivity. Qed.

Lemma demo32_analysis :
  _py_proc__analyze_elf32 check_sym_py demo_fs 400 attached32 loaded32 =
  Done (0, analysed32, [(116, false); (132, true); (148, false); (164, true)]).
Proof. vm_compute. reflexivity. Qed.

Ltac visit_cases H :=
  let H' := fresh "Hv" in
  let Hlt := fresh "Hlt" in
  inversion H as [? Hlt | ? ? Hlt H']; subst;
  [ | vm_compute in H'; first [ exfalso; vm_compute in Hlt; discriminate Hlt
                              | visit_cases H' ] ].

Lemma demo64_tables :
  tables_well_formed ELF64 (demo64_ehdr ET_EXEC) (demo64 ET_EXEC) 400.
Proof.
  split; [lia|]. split; [vm_compute; reflexivity|]. split.
  - intros _. split; [vm_compute; discriminate | vm_compute; lia].
  - intros d Hv Ht. unfold section_visited in Hv. vm_compute in Hv.
    visit_cases Hv; vm_compute in Ht; try discriminate Ht.
    all: try (vm_compute in *; discriminate).
    split; [reflexivity|]. split; [vm_compute; discriminate | vm_compute; lia].
Defined.

Lemma demo32_tables :
  tables_well_formed ELF32 (demo32_ehdr ET_EXEC) (demo32 ET_EXEC) 400.
Proof.
  split; [lia|]. split; [vm_compute; reflexivity|]. split.
  - intros _. split; [vm_compute; discriminate | vm_compute; lia].
  - intros d Hv Ht. unfold section_visited in Hv. vm_compute in Hv.
    visit_cases Hv; vm_compute in Ht; try discriminate Ht.
    all: try (vm_compute in *; discriminate).
    split; [reflexivity|]. split; [vm_compute; discriminate | vm_compute; lia].
Defined.

Lemma demo_one_analysis :
  _py_proc__analyze_elf64 check_sym_one demo_fs 400 attached loaded64 =
  Done (0, analysed_one,
        [(176, false); (200, true); (224, false); (248, false); (272, false)]).
Proof. vm_compute. reflexivity. Qed.

(** C5 (as amended).  An analysis that returns reports success (0) exactly
    when at least one anchor was resolved by the scan of the dynamic
    symbols, be it one or both; when none was resolved it reports failure
    (1).  And on well-formed tables the analysis does return. *)
Theorem analysis_succeeds_iff_an_anchor_resolved :
  (forall check_sym fs fuel self w r self' seen,
      _py_proc__analyze_elf64 check_sym fs fuel self w = Done (r, self', seen) \/
      _py_proc__analyze_elf32 check_sym fs fuel self w = Done (r, self', seen) ->
      (r = 0 <-> 1 <= resolved seen) /\
      (resolved seen = 0 -> r = 1) /\
      (r = 0 \/ r = 1) /\
      resolved seen <= SYMBOLS) /\
  (forall check_sym fs fuel self w path,
      object_file self = Some path ->
      (tables_well_formed ELF64 (ehdr_v w) (contents fs path) fuel ->
       _py_proc__analyze_elf64 check_sym fs fuel self w <> OutOfFuel) /\
      (tables_well_formed ELF32 (ehdr_v w) (contents fs path) fuel ->
       _py_proc__analyze_elf32 check_sym fs fuel self w <> OutOfFuel)).
Proof.
  split.
  - intros check_sym fs fuel self w r self' seen H.
    assert (r = Z.b2z (resolved seen =? 0) /\ resolved seen <= SYMBOLS)
      as [Hr Hle].
    { destruct H as [H | H];
        [unfold _py_proc__analyze_elf64 in H
        |unfold _py_proc__analyze_elf32 in H];
        pose proof H as H';
        apply analyze_elf_class_inv in H'; destruct H' as (path & _ & Hp & _);
        destruct (analyze_elf_class_seen _ _ _ _ _ _ _ _ _ _ _ Hp H)
          as (A & _ & B); auto. }
    pose proof (resolved_nonneg seen) as Hn.
    destruct (resolved seen =? 0) eqn:E; simpl in Hr; subst r.
    + apply Z.eqb_eq in E. repeat split; try lia; auto.
    + apply Z.eqb_neq in E. repeat split; try lia; auto.
  - intros check_sym fs fuel self w path Hp. split; intros Hwf.
    + unfold _py_proc__analyze_elf64. eapply analysis_returns; eassumption.
    + unfold _py_proc__analyze_elf32. eapply analysis_returns; eassumption.
Qed.

(** On the sample file, whose tables are well formed, with a resolver that
    knows one of its symbols: the analysis returns, and succeeds with one
    anchor. *)
Lemma analysis_succeeds_iff_an_anchor_resolved_witness :
  (let seen := [(176, false); (200, true); (224, false); (248, false);
                (272, false)] in
   (0 = 0 <-> 1 <= resolved seen) /\
   (resolved seen = 0 -> 0 = 1) /\
   (0 = 0 \/ 0 = 1) /\
   resolved seen <= SYMBOLS) /\
  _py_proc__analyze_elf64 check_sym_one demo_fs 400 attached loaded64
  <> OutOfFuel /\
  _py_proc__analyze_elf32 check_sym_one demo_fs 400 attached32 loaded32
  <> OutOfFuel.
Proof.
  destruct analysis_succeeds_iff_an_anchor_resolved as (A & B).
  split; [|split].
  - exact (A check_sym_one demo_fs 400%nat attached loaded64 _ _ _
             (or_introl demo_one_analysis)).
  - exact (proj1 (B check_sym_one demo_fs 400%nat attached loaded64 python_exe
                    eq_refl) demo64_tables).
  - exact (proj2 (B check_sym_one demo_fs 400%nat attached32 loaded32
                    python_exe32 eq_refl) demo32_tables).
Defined.

(** C5, counterexample.  The sample file exports both anchors; both are
    resolved, to non-null addresses, and the analysis reports success. *)
Lemma analysis_succeeds_with_both_anchors :
  let seen := [(176, false); (200, true); (224, false); (248, true)] in
  _py_proc__analyze_elf64 check_sym_py demo_fs 400 attached loaded64
  = Done (0, analysed64, seen) /\
  resolved seen = 2 /\
  runtime_raddr (anchors analysed64) = 6295552 /\
  tstate_raddr (anchors analysed64) = 6299648 /\
  runtime_raddr (anchors analysed64) <> 0 /\
  tstate_raddr (anchors analysed64) <> 0.
Proof.
  cbv zeta. split; [exact demo64_analysis|].
  split; [reflexivity|]. split; [reflexivity|]. split; [reflexivity|].
  split; discriminate.
Qed.

(* ------------------------------------------------------------------------- *)
(** ** The [bss] region after the analysis *)

Lemma analyze_elf_class_bss L with_bss check_sym fs fuel ehdr self r self' seen
    path vbase :
  analyze_elf_class L with_bss check_sym fs fuel ehdr self
  = Done (r, self', seen) ->
  object_file self = Some path ->
  get_base L ehdr (contents fs path) = Done vbase ->
  (with_bss = true /\ vbase <> no_base L /\
   exists p,
     section_visited L ehdr p /\
     section_name L (contents fs path)
       (sh_name_base_of L ehdr (contents fs path)) p = ".bss"%string /\
     bss (proc_map self')
     = bss_block L (contents fs path) vbase p self) \/
  (proc_map self' = proc_map self /\
   (with_bss = false \/ vbase = no_base L \/
    forall p, section_visited L ehdr p ->
              section_name L (contents fs path)
                (sh_name_base_of L ehdr (contents fs path)) p
              <> ".bss"%string)).
Proof.
  intros H Hp Hb. apply analyze_elf_class_inv in H.
  destruct H as (path' & vbase' & Hp' & Hb' & H).
  assert (path' = path) as -> by congruence.
  assert (vbase' = vbase) as -> by congruence.
  destruct H as [(Hv & _ & -> & _) | (Hv & d & self1 & s & a & Hscan & _ & _ & ->)].
  - right. auto.
  - apply scan_sections_spec in Hscan. simpl fst in Hscan. simpl snd in Hscan.
    destruct Hscan as (_ & Hbss & _).
    destruct Hbss as [(Hw & p & Hvis & Hn & Hblock) | (-> & Hno)].
    + left. split; [exact Hw|]. split; [exact Hv|]. exists p. auto.
    + right. split; [reflexivity|]. tauto.
Qed.

(** C10.  The 32-bit analysis leaves the whole memory map of [self], and so
    [map.bss], as it found it, whatever the object file.  The 64-bit
    analysis, when the file has a load bias, stores in [map.bss] the block
    computed from the header of a visited section named [.bss] (base
    [map.elf.base + (sh_addr - base)], size [sh_size]); only when no visited
    section has that name does it leave [map.bss] alone.  On well-formed
    tables the 32-bit analysis does return. *)
Theorem elf32_never_sets_bss :
  (forall check_sym fs fuel self w r self' seen,
      _py_proc__analyze_elf32 check_sym fs fuel self w = Done (r, self', seen) ->
      bss (proc_map self') = bss (proc_map self) /\
      proc_map self' = proc_map self) /\
  (forall check_sym fs fuel self w r self' seen path vbase,
      _py_proc__analyze_elf64 check_sym fs fuel self w = Done (r, self', seen) ->
      object_file self = Some path ->
      _get_base_64 (ehdr_v w) (contents fs path) = Done vbase ->
      vbase <> UINT64_MAX ->
      (exists p,
          section_visited ELF64 (ehdr_v w) p /\
          section_name ELF64 (contents fs path)
            (sh_name_base_of ELF64 (ehdr_v w) (contents fs path)) p
          = ".bss"%string /\
          bss (proc_map self') =
          {| base := ptr (base (elf (proc_map self))
                          + to_u64 (sh_addr ELF64 (contents fs path) p - vbase));
             size := sh_size ELF64 (contents fs path) p |}) \/
      (bss (proc_map self') = bss (proc_map self) /\
       forall p,
         section_visited ELF64 (ehdr_v w) p ->
         section_name ELF64 (contents fs path)
           (sh_name_base_of ELF64 (ehdr_v w) (contents fs path)) p
         <> ".bss"%string)) /\
  (forall check_sym fs fuel self w path,
      object_file self = Some path ->
      tables_well_formed ELF32 (ehdr_v w) (contents fs path) fuel ->
      _py_proc__analyze_elf32 check_sym fs fuel self w <> OutOfFuel).
Proof.
  split; [|split].
  - intros check_sym fs fuel self w r self' seen H.
    unfold _py_proc__analyze_elf32 in H.
    pose proof H as H'. apply analyze_elf_class_inv in H'.
    destruct H' as (path & vbase & Hp & Hb & _).
    destruct (analyze_elf_class_bss _ _ _ _ _ _ _ _ _ _ _ _ H Hp Hb)
      as [(Hw & _) | (Hm & _)]; [discriminate Hw|].
    rewrite Hm. auto.
  - intros check_sym fs fuel self w r self' seen path vbase H Hp Hb Hv.
    unfold _py_proc__analyze_elf64 in H. unfold _get_base_64 in Hb.
    destruct (analyze_elf_class_bss _ _ _ _ _ _ _ _ _ _ _ _ H Hp Hb)
      as [(_ & _ & p & Hvis & Hn & Hblock) | (Hm & [Hw | [Hnb | Hno]])].
    + left. exists p. auto.
    + discriminate Hw.
    + exfalso. apply Hv. exact Hnb.
    + right. rewrite Hm. auto.
  - intros check_sym fs fuel self w path Hp Hwf.
    unfold _py_proc__analyze_elf32. eapply analysis_returns; eassumption.
Qed.

Lemma demo64_bss_section :
  section_visited ELF64 (demo64_ehdr ET_EXEC) 566 /\
  section_name ELF64 (demo64 ET_EXEC)
    (sh_name_base_of ELF64 (demo64_ehdr ET_EXEC) (demo64 ET_EXEC)) 566
  = ".bss"%string.
Proof.
  split; [|reflexivity].
  unfold section_visited.
  change (elf_map_size_of ELF64 (demo64_ehdr ET_EXEC)) with 694.
  change (e_shentsize ELF64 (demo64_ehdr ET_EXEC)) with 64.
  change (e_shoff ELF64 (demo64_ehdr ET_EXEC)) with 374.
  apply visits_later; [lia|]. change (wrap (width ELF64) (374 + 64)) with 438.
  apply visits_later; [lia|]. change (wrap (width ELF64) (438 + 64)) with 502.
  apply visits_later; [lia|]. change (wrap (width ELF64) (502 + 64)) with 566.
  apply visits_here. lia.
Defined.

(** Both sample files have a section [.bss] of 0x2000 bytes.  After the
    32-bit analysis the [bss] block is still empty; after the 64-bit one it
    is the block of that section. *)
Lemma elf32_never_sets_bss_witness :
  (bss (proc_map analysed32) = bss (proc_map attached32) /\
   proc_map analysed32 = proc_map attached32) /\
  bss (proc_map attached32) = {| base := 0; size := 0 |} /\
  bss (proc_map analysed64) = {| base := 6303744; size := 8192 |} /\
  ((exists p,
       section_visited ELF64 (ehdr_v loaded64) p /\
       section_name ELF64 (contents demo_fs python_exe)
         (sh_name_base_of ELF64 (ehdr_v loaded64) (contents demo_fs python_exe))
         p = ".bss"%string /\
       bss (proc_map analysed64) =
       {| base := ptr (base (elf (proc_map attached))
                       + to_u64 (sh_addr ELF64 (contents demo_fs python_exe) p
                                 - 4194304));
          size := sh_size ELF64 (contents demo_fs python_exe) p |}) \/
   (bss (proc_map analysed64) = bss (proc_map attached) /\
    forall p,
      section_visited ELF64 (ehdr_v loaded64) p ->
      section_name ELF64 (contents demo_fs python_exe)
        (sh_name_base_of ELF64 (ehdr_v loaded64) (contents demo_fs python_exe))
        p <> ".bss"%string)) /\
  _py_proc__analyze_elf32 check_sym_py demo_fs 400 attached32 loaded32
  <> OutOfFuel.
Proof.
  destruct elf32_never_sets_bss as (A & B & C).
  split; [|split; [|split; [|split]]].
  - exact (A check_sym_py demo_fs 400%nat attached32 loaded32 _ _ _
             demo32_analysis).
  - reflexivity.
  - reflexivity.
  - refine (B check_sym_py demo_fs 400%nat attached loaded64 _ _ _ python_exe
              4194304 demo64_analysis eq_refl _ _).
    + vm_compute. reflexivity.
    + vm_compute. discriminate.
  - exact (C check_sym_py demo_fs 400%nat attached32 loaded32 python_exe32
             eq_refl demo32_tables).
Defined.

(* ------------------------------------------------------------------------- *)
(** ** The dispatcher *)

(** What [_py_proc__analyze_elf] does once the header was read: the test of
    the format and the choice of the analyser look at the content that
    [ehdr_v] had before the read, and the analysers at the content after. *)
Lemma analyze_elf_dispatch check_sym k fs fuel self w :
  let r := py_proc__memcpy k self (base (elf (proc_map self))) sizeof_ehdr_v
             (ehdr_v w) w in
  let w' := set_ehdr_v (snd (fst r)) (snd r) in
  _py_proc__analyze_elf check_sym k fs fuel self w =
  (if negb (fst (fst r) =? 0) then Done (FAIL, self, [])
   else if invalid_elf_format (ehdr_v w) then Done (FAIL, self, [])
   else if e_ident (ehdr_v w) EI_CLASS =? ELFCLASS32
        then _py_proc__analyze_elf32 check_sym fs fuel self w'
   else if e_ident (ehdr_v w) EI_CLASS =? ELFCLASS64
        then _py_proc__analyze_elf64 check_sym fs fuel self w'
   else Done (FAIL, self, []),
   w').
Proof.
  cbv zeta. unfold _py_proc__analyze_elf.
  destruct (py_proc__memcpy k self (base (elf (proc_map self))) sizeof_ehdr_v
              (ehdr_v w) w) as [[failed buf] w1].
  simpl fst. simpl snd.
  destruct (negb (failed =? 0)); [reflexivity|].
  destruct (invalid_elf_format (ehdr_v w)); [reflexivity|].
  destruct (e_ident (ehdr_v w) EI_CLASS =? ELFCLASS32); [reflexivity|].
  destruct (e_ident (ehdr_v w) EI_CLASS =? ELFCLASS64); reflexivity.
Qed.

(** C7, the code at the failing input.  The target has a well-formed 64-bit
    header at the base of its [elf] region, and the read of it succeeds; yet
    the first call of [_py_proc__analyze_elf] fails on the format test,
    which it applies to the still zeroed [ehdr_v] and not to the header just
    read.  The header is in [ehdr_v] afterwards, so that a second call
    passes the test and reaches the 64-bit analyser.  Besides, the test
    reads the fields of an [Elf64_Ehdr] in a header of either class: a
    32-bit header without section headers passes it. *)
Theorem analyze_elf_tests_stale_header :
  rv_result (demo_kernel (pid attached) (base (elf (proc_map attached)))
               sizeof_ehdr_v) = sizeof_ehdr_v /\
  _py_proc__analyze_elf check_sym_py demo_kernel demo_fs 400 attached world0
  = (Done (FAIL, attached, []), after_first_call) /\
  ehdr_v after_first_call = demo64_ehdr ET_EXEC /\
  invalid_elf_format (ehdr_v after_first_call) = false /\
  e_ident (ehdr_v after_first_call) EI_CLASS = ELFCLASS64 /\
  fst (_py_proc__analyze_elf check_sym_py demo_kernel demo_fs 400 attached
         after_first_call)
  = Done (0, analysed64, [(176, false); (200, true); (224, false); (248, true)]) /\
  (e_shoff ELF32 ehdr32_no_sections = 0 /\
   e_shnum ELF32 ehdr32_no_sections = 0 /\
   e_ident ehdr32_no_sections EI_CLASS = ELFCLASS32 /\
   invalid_elf_format ehdr32_no_sections = false).
Proof.
  split; [reflexivity|]. split; [vm_compute; reflexivity|].
  split; [reflexivity|]. split; [vm_compute; reflexivity|].
  split; [reflexivity|]. split; [vm_compute; reflexivity|].
  repeat split; vm_compute; reflexivity.
Qed.

(* ========================================================================= *)
(** * Further properties *)

(* ------------------------------------------------------------------------- *)
(** ** The maps listing *)

Ltac flag_cases fs st e :=
  destruct st as [self flag];
  unfold has_path, candidate, heap_line_p, accepts, parse_line, widen;
  rewrite ?shiftl_1_20, ?field_count_ok, ?size_ok; cbv zeta;
  cbn [fst snd]; intros;
  repeat match goal with
         | H : _ \/ _ |- _ => destruct H
         end;
  try subst flag;
  let py := fresh "py" in let hp := fresh "hp" in let ex := fresh "ex" in
  let big := fresh "big" in let ok := fresh "ok" in
  remember (strstr (line e) "python") as py;
  remember (strstr (line e) ("[heap]" ++ nl)) as hp;
  remember (_elf_is_executable fs (pathname e)) as ex;
  remember (MiB <=? _file_size fs (pathname e)) as big;
  remember (7 <=? matched e) as ok;
  try (let nh := fresh "nh" in
       match goal with
       | |- context [Z.land ?f HEAP_MAP =? 0] =>
           remember (Z.land f HEAP_MAP =? 0) as nh; destruct nh
       | H : context [Z.land ?f HEAP_MAP =? 0] |- _ =>
           remember (Z.land f HEAP_MAP =? 0) as nh; destruct nh
       end);
  destruct ok, (counts_for_bounds e), hp, py, ex, big;
  try match goal with
      | H : _ = (Z.land _ _ =? 0) |- _ =>
          exfalso; vm_compute in H; discriminate H
      end;
  cbn in *;
  destruct (bin_path self) eqn:?, (lib_path self) eqn:?;
  cbn in *.

Lemma parse_line_flag fs st e :
  snd st = 0 \/ snd st = HEAP_MAP ->
  snd (parse_line fs st e) =
  (if (snd st =? HEAP_MAP) || heap_line_p e then HEAP_MAP else 0) /\
  heap (proc_map (fst (parse_line fs st e))) =
  (if (snd st =? 0) && heap_line_p e then block_of e
   else heap (proc_map (fst st))).
Proof.
  revert st. intros st. flag_cases fs st e; split; reflexivity.
Qed.

Lemma fold_parse_flag_set fs lines : forall st,
  snd st = HEAP_MAP ->
  snd (fold_left (parse_line fs) lines st) = HEAP_MAP /\
  heap (proc_map (fst (fold_left (parse_line fs) lines st)))
  = heap (proc_map (fst st)).
Proof.
  induction lines as [|e lines IH]; intros st Hf; simpl; [auto|].
  destruct (parse_line_flag fs st e (or_intror Hf)) as [Hs Hh].
  rewrite Hf in Hs, Hh. simpl in Hs, Hh.
  destruct (IH _ Hs) as [A B]. rewrite A, B, Hh. auto.
Qed.

Lemma fold_parse_no_heap fs lines : forall st,
  snd st = 0 ->
  Forall (fun e => heap_line_p e = false) lines ->
  snd (fold_left (parse_line fs) lines st) = 0 /\
  heap (proc_map (fst (fold_left (parse_line fs) lines st)))
  = heap (proc_map (fst st)).
Proof.
  induction lines as [|e lines IH]; intros st Hf Hall; simpl; [auto|].
  inversion Hall as [|? ? He Hl]; subst.
  destruct (parse_line_flag fs st e (or_introl Hf)) as [Hs Hh].
  rewrite Hf, He in Hs, Hh. simpl in Hs, Hh.
  destruct (IH _ Hs Hl) as [A B]. rewrite A, B, Hh. auto.
Qed.

Lemma fold_parse_first_heap fs pre h post st :
  snd st = 0 ->
  Forall (fun e => heap_line_p e = false) pre ->
  heap_line_p h = true ->
  snd (fold_left (parse_line fs) (pre ++ h :: post) st) = HEAP_MAP /\
  heap (proc_map (fst (fold_left (parse_line fs) (pre ++ h :: post) st)))
  = block_of h.
Proof.
  intros Hf Hpre Hh. rewrite fold_left_app. simpl.
  destruct (fold_parse_no_heap fs pre st Hf Hpre) as [A _].
  destruct (parse_line_flag fs (fold_left (parse_line fs) pre st) h
              (or_introl A)) as [Hs Hb].
  rewrite A, Hh in Hs, Hb. simpl in Hs, Hb.
  destruct (fold_parse_flag_set fs post _ Hs) as [C D].
  rewrite C, D, Hb. auto.
Qed.

(** A list either has no heap line or splits at its first one. *)
Lemma first_heap_line lines :
  Forall (fun e => heap_line_p e = false) lines \/
  exists pre h post,
    lines = pre ++ h :: post /\
    Forall (fun e => heap_line_p e = false) pre /\ heap_line_p h = true.
Proof.
  induction lines as [|e lines IH]; [left; constructor|].
  destruct (heap_line_p e) eqn:E.
  - right. exists [], e, lines. repeat split; auto.
  - destruct IH as [H | (pre & h & post & -> & Hp & Hh)].
    + left. constructor; assumption.
    + right. exists (e :: pre), h, post. repeat split; auto.
Qed.

Lemma parse_maps_file_result fs lines self w :
  fst (fst (_py_proc__parse_maps_file fs (MapsLines lines) self w)) =
  maps_result
    (fst (fold_left (parse_line fs) lines
            (with_paths None None (with_bounds (ptr (-1)) 0 self), 0)))
    (snd (fold_left (parse_line fs) lines
            (with_paths None None (with_bounds (ptr (-1)) 0 self), 0))).
Proof.
  unfold _py_proc__parse_maps_file, sfree.
  destruct (fold_left _ _ _); reflexivity.
Qed.

(** X1.  The heap region that [_py_proc__parse_maps_file] stores is the
    block of the first line that [sscanf] could split and whose text
    contains ["[heap]"] followed by the end of line; later such lines are
    ignored.  When the listing has no such line the former [heap] block is
    left in place and the function reports failure. *)
Theorem heap_is_first_heap_line :
  forall (fs : filesystem) (lines : list maps_line) (self : py_proc_t)
         (w : world),
    let r := _py_proc__parse_maps_file fs (MapsLines lines) self w in
    (forall pre h post,
        lines = pre ++ h :: post ->
        Forall (fun e => heap_line_p e = false) pre ->
        heap_line_p h = true ->
        heap (proc_map (snd (fst r))) = block_of h) /\
    (Forall (fun e => heap_line_p e = false) lines ->
     heap (proc_map (snd (fst r))) = heap (proc_map self) /\
     fst (fst r) = 1).
Proof.
  intros fs lines self w r. subst r.
  rewrite parse_maps_file_self, parse_maps_file_result.
  set (st0 := (with_paths None None (with_bounds (ptr (-1)) 0 self), 0)).
  split.
  - intros pre h post -> Hpre Hh.
    apply (fold_parse_first_heap fs pre h post st0); auto.
  - intros Hall.
    destruct (fold_parse_no_heap fs lines st0 eq_refl Hall) as [A B].
    rewrite A, B. split; [reflexivity|].
    unfold maps_result. rewrite orb_true_r. reflexivity.
Qed.

Lemma accepts_candidate fs st e : accepts fs st e -> candidate fs e = true.
Proof.
  revert st; intros st. flag_cases fs st e; try reflexivity;
    exfalso; intuition congruence.
Qed.

Lemma parse_line_keeps_path fs st e :
  has_path (fst st) -> has_path (fst (parse_line fs st e)).
Proof.
  revert st; intros st. flag_cases fs st e;
    try (left; congruence); try (right; congruence);
    try (exfalso; congruence).
Qed.

Lemma fold_parse_keeps_path fs lines : forall st,
  has_path (fst st) -> has_path (fst (fold_left (parse_line fs) lines st)).
Proof.
  induction lines as [|e lines IH]; intros st H; simpl; [exact H|].
  apply IH. apply parse_line_keeps_path. exact H.
Qed.

Lemma parse_line_candidate_sets fs st e :
  candidate fs e = true ->
  strstr (line e) ("[heap]" ++ nl) = false ->
  has_path (fst (parse_line fs st e)).
Proof.
  revert st; intros st. flag_cases fs st e; try discriminate;
    try (left; congruence); try (right; congruence).
Qed.

Lemma fold_parse_path_needs_candidate fs lines : forall st,
  bin_path (fst st) = None -> lib_path (fst st) = None ->
  has_path (fst (fold_left (parse_line fs) lines st)) ->
  Exists (fun e => candidate fs e = true) lines.
Proof.
  induction lines as [|e lines IH]; intros st Hb Hl H; simpl in H.
  - exfalso. destruct H as [H | H]; [apply H; exact Hb | apply H; exact Hl].
  - destruct (bin_path (fst (parse_line fs st e))) as [b|] eqn:Eb.
    + apply Exists_cons_hd. apply (accepts_candidate fs st e).
      left. rewrite Eb, Hb. discriminate.
    + destruct (lib_path (fst (parse_line fs st e))) as [l|] eqn:El.
      * apply Exists_cons_hd. apply (accepts_candidate fs st e).
        right; left. rewrite El, Hl. discriminate.
      * apply Exists_cons_tl. apply (IH (parse_line fs st e)); assumption.
Qed.

Lemma fold_parse_flag_needs_heap fs lines : forall st,
  snd st = 0 ->
  snd (fold_left (parse_line fs) lines st) = HEAP_MAP ->
  Exists (fun e => heap_line_p e = true) lines.
Proof.
  intros st Hf H.
  destruct (first_heap_line lines) as [Hall | (pre & h & post & -> & _ & Hh)].
  - destruct (fold_parse_no_heap fs lines st Hf Hall) as [A _].
    rewrite A in H. discriminate H.
  - apply Exists_exists. exists h. split; [|exact Hh].
    apply in_or_app. right. left. reflexivity.
Qed.

(** X2.  When the maps file cannot be opened, [_py_proc__parse_maps_file]
    returns 1, leaves [self] untouched, issues no read and stores the error
    that goes with [errno] ([EACCES]: permission, [ENOENT]: no such process,
    anything else: the generic one).  When it can be opened and every file
    that the loop opens can be mapped, the process-wide state is unchanged
    and the result is 0 or 1; a result of 0 means that one of the paths is
    set and that the listing has a heap line and a line of a file of at
    least 1 MiB whose text contains ["python"]; conversely a heap line
    together with such a line that is not itself a heap line gives 0. *)
Theorem load_succeeds_with_heap_and_candidate :
  forall (fs : filesystem) (self : py_proc_t) (w : world),
    (forall errno,
        let r := _py_proc__parse_maps_file fs (FopenFailed errno) self w in
        fst (fst r) = 1 /\ snd (fst r) = self /\
        issued (snd r) = issued w /\
        austin_errno (snd r) =
        Some (if errno =? EACCES then EPROCPERM
              else if errno =? ENOENT then EPROCNPID else EPROCVM)) /\
    (forall lines,
        files_mappable fs lines ->
        let r := _py_proc__parse_maps_file fs (MapsLines lines) self w in
        snd r = w /\
        (fst (fst r) = 0 \/ fst (fst r) = 1) /\
        (fst (fst r) = 0 ->
         has_path (snd (fst r)) /\
         Exists (fun e => heap_line_p e = true) lines /\
         Exists (fun e => candidate fs e = true) lines) /\
        (Exists (fun e => heap_line_p e = true) lines ->
         Exists (fun e => candidate fs e = true /\
                          strstr (line e) ("[heap]" ++ nl) = false) lines ->
         fst (fst r) = 0)).
Proof.
  intros fs self w. split.
  - intros errno r. subst r. unfold _py_proc__parse_maps_file.
    cbn [fst snd]. split.
    + unfold maps_result. rewrite orb_true_r. reflexivity.
    + split; [reflexivity|].
      destruct (errno =? EACCES); [split; reflexivity|].
      destruct (errno =? ENOENT); split; reflexivity.
  - intros lines _ r. subst r.
    assert (snd (_py_proc__parse_maps_file fs (MapsLines lines) self w) = w)
      as Hw.
    { unfold _py_proc__parse_maps_file. destruct (fold_left _ _ _); reflexivity. }
    rewrite parse_maps_file_self, parse_maps_file_result.
    set (st0 := (with_paths None None (with_bounds (ptr (-1)) 0 self), 0)).
    set (st := fold_left (parse_line fs) lines st0).
    split; [exact Hw|]. split; [|split].
    + unfold maps_result. destruct (_ || _); auto.
    + intros H. apply maps_result_paths in H. destruct H as [Hp Hf].
      split; [exact Hp|]. split.
      * apply (fold_parse_flag_needs_heap fs lines st0 eq_refl Hf).
      * apply (fold_parse_path_needs_candidate fs lines st0); auto.
    + intros Hheap Hcand.
      assert (snd st = HEAP_MAP) as Hf.
      { destruct (first_heap_line lines)
          as [Hall | (pre & h & post & E & Hpre & Hh)].
        - exfalso. apply Exists_exists in Hheap.
          destruct Hheap as (e & Hin & He).
          rewrite Forall_forall in Hall. rewrite (Hall e Hin) in He.
          discriminate He.
        - subst st. rewrite E.
          apply (fold_parse_first_heap fs pre h post st0); auto. }
      assert (has_path (fst st)) as Hp.
      { apply Exists_exists in Hcand. destruct Hcand as (e & Hin & Hc & Hh).
        apply in_split in Hin. destruct Hin as (l1 & l2 & E).
        subst st. rewrite E, fold_left_app. simpl.
        apply fold_parse_keeps_path. apply parse_line_candidate_sets; auto. }
      unfold maps_result. rewrite Hf.
      destruct Hp as [Hp | Hp].
      * destruct (bin_path (fst st)); [reflexivity | contradiction].
      * destruct (lib_path (fst st)); [|contradiction].
        destruct (bin_path (fst st)); reflexivity.
Qed.

Lemma parse_line_agree fs m1 m2 s1 s2 flag e :
  agree_from m1 m2 s1 s2 ->
  snd (parse_line fs (s1, flag) e) = snd (parse_line fs (s2, flag) e) /\
  agree_from m1 m2 (fst (parse_line fs (s1, flag) e))
    (fst (parse_line fs (s2, flag) e)).
Proof.
  destruct s1 as [p1 b1 l1 lo1 hi1 [e1 h1 bs1] a1].
  destruct s2 as [p2 b2 l2 lo2 hi2 [e2 h2 bs2] a2].
  unfold agree_from. cbn.
  intros (-> & -> & -> & -> & -> & -> & He & Hh & -> & ->).
  unfold parse_line, widen. cbv zeta. cbn.
  destruct (0 <=? matched e - 7); [|cbn; tauto].
  destruct (counts_for_bounds e);
    destruct (_ && _); cbn; try tauto;
    destruct (negb (strstr (line e) "python")); cbn; try tauto;
    destruct (_elf_is_executable fs (pathname e));
    destruct (_ || _); cbn; tauto.
Qed.

Lemma fold_parse_agree fs m1 m2 lines : forall s1 s2 flag,
  agree_from m1 m2 s1 s2 ->
  snd (fold_left (parse_line fs) lines (s1, flag))
  = snd (fold_left (parse_line fs) lines (s2, flag)) /\
  agree_from m1 m2 (fst (fold_left (parse_line fs) lines (s1, flag)))
    (fst (fold_left (parse_line fs) lines (s2, flag))).
Proof.
  induction lines as [|e lines IH]; intros s1 s2 flag H; cbn [fold_left];
    [auto|].
  destruct (parse_line_agree fs m1 m2 s1 s2 flag e H) as [Hf Ha].
  destruct (parse_line fs (s1, flag) e) as [s1' f1].
  destruct (parse_line fs (s2, flag) e) as [s2' f2].
  simpl in Hf, Ha. subst f2. apply IH. exact Ha.
Qed.

Lemma parse_line_frame fs st e :
  pid (fst (parse_line fs st e)) = pid (fst st) /\
  anchors (fst (parse_line fs st e)) = anchors (fst st) /\
  bss (proc_map (fst (parse_line fs st e))) = bss (proc_map (fst st)).
Proof.
  destruct st as [self flag]. unfold parse_line, widen. cbv zeta.
  destruct (0 <=? matched e - 7); [|cbn; tauto].
  destruct (counts_for_bounds e);
    destruct (_ && _); cbn; try tauto;
    destruct (negb (strstr (line e) "python")); cbn; try tauto;
    destruct (_elf_is_executable fs (pathname e));
    destruct (_ || _); cbn; tauto.
Qed.

Lemma fold_parse_frame fs lines : forall st,
  pid (fst (fold_left (parse_line fs) lines st)) = pid (fst st) /\
  anchors (fst (fold_left (parse_line fs) lines st)) = anchors (fst st) /\
  bss (proc_map (fst (fold_left (parse_line fs) lines st)))
  = bss (proc_map (fst st)).
Proof.
  induction lines as [|e lines IH]; intros st; cbn [fold_left]; [auto|].
  destruct (IH (parse_line fs st e)) as (A & B & C).
  destruct (parse_line_frame fs st e) as (A' & B' & C').
  repeat split; congruence.
Qed.

(** X3.  Parsing the same listing again, from the session that the first
    parse left, gives the same result and the same session: the function
    resets the bounds and the paths before it reads the lines, and the [elf]
    and [heap] blocks that a listing gives do not depend on the blocks that
    were there before, unless the listing leaves them alone. *)
Theorem reparse_is_idempotent :
  forall (fs : filesystem) (lines : list maps_line) (self : py_proc_t)
         (w : world),
    let r := _py_proc__parse_maps_file fs (MapsLines lines) self w in
    _py_proc__parse_maps_file fs (MapsLines lines) (snd (fst r)) (snd r) = r.
Proof.
  intros fs lines self w r. subst r.
  unfold _py_proc__parse_maps_file, sfree.
  set (st1 := (with_paths None None (with_bounds (ptr (-1)) 0 self), 0)).
  destruct (fold_left (parse_line fs) lines st1) as [s1 f1] eqn:E1.
  cbn [fst snd].
  set (st2 := (with_paths None None (with_bounds (ptr (-1)) 0 s1), 0)).
  assert (agree_from (proc_map self) (proc_map s1) (fst st1) (fst st2)) as H0.
  { destruct (fold_parse_frame fs lines st1) as (Hp & Ha & Hb).
    rewrite E1 in Hp, Ha, Hb. cbn in Hp, Ha, Hb.
    unfold agree_from, st1, st2; cbn.
    repeat split; auto. }
  destruct (fold_parse_agree fs _ _ lines _ _ 0 H0) as [Hf Ha].
  change (fst st1, 0) with st1 in Hf, Ha.
  change (fst st2, 0) with st2 in Hf, Ha.
  rewrite E1 in Hf, Ha. cbn [fst snd] in Hf, Ha.
  destruct (fold_left (parse_line fs) lines st2) as [s2 f2].
  cbn [fst snd] in Hf, Ha. subst f2.
  assert (s2 = s1) as ->; [|reflexivity].
  destruct Ha as (A1 & A2 & A3 & A4 & A5 & A6 & A7 & A8 & A9 & A10).
  destruct s1 as [p1 b1 l1 lo1 hi1 [e1 h1 bs1] a1].
  destruct s2 as [p2 b2 l2 lo2 hi2 [e2 h2 bs2] a2].
  cbn in *. subst.
  assert (e2 = e1) as -> by (destruct A7 as [? | [? ?]]; congruence).
  assert (h2 = h1) as -> by (destruct A8 as [? | [? ?]]; congruence).
  reflexivity.
Qed.

Lemma fold_min_perm (a : Z) l l' :
  Permutation l l' -> fold_right Z.min a l = fold_right Z.min a l'.
Proof. induction 1; simpl; lia. Qed.

Lemma fold_max_perm (a : Z) l l' :
  Permutation l l' -> fold_right Z.max a l = fold_right Z.max a l'.
Proof. induction 1; simpl; lia. Qed.

Lemma filter_perm {A} (f : A -> bool) l l' :
  Permutation l l' -> Permutation (filter f l) (filter f l').
Proof.
  induction 1; simpl.
  - constructor.
  - destruct (f x); [constructor|]; assumption.
  - destruct (f x), (f y); try apply Permutation_refl.
    apply perm_swap.
  - eapply Permutation_trans; eassumption.
Qed.

(** X4.  The bounds [min_raddr] and [max_raddr] that
    [_py_proc__parse_maps_file] computes do not depend on the order of the
    lines of the listing (the paths do: the witness gives two orders of the
    same lines with different object files). *)
Theorem bounds_ignore_line_order :
  forall (fs : filesystem) (lines lines' : list maps_line) (self : py_proc_t)
         (w : world),
    Permutation lines lines' ->
    let s := snd (fst (_py_proc__parse_maps_file fs (MapsLines lines) self w)) in
    let s' := snd (fst (_py_proc__parse_maps_file fs (MapsLines lines') self w)) in
    min_raddr s' = min_raddr s /\ max_raddr s' = max_raddr s.
Proof.
  intros fs lines lines' self w Hp s s'. subst s s'.
  rewrite !parse_maps_file_self.
  destruct (fold_parse_bounds fs lines
              (with_paths None None (with_bounds (ptr (-1)) 0 self), 0))
    as [A B].
  destruct (fold_parse_bounds fs lines'
              (with_paths None None (with_bounds (ptr (-1)) 0 self), 0))
    as [A' B'].
  rewrite A, B, A', B'. split.
  - apply fold_min_perm. apply Permutation_map. apply filter_perm.
    apply Permutation_sym. exact Hp.
  - apply fold_max_perm. apply Permutation_map. apply filter_perm.
    apply Permutation_sym. exact Hp.
Qed.

Lemma bounds_ignore_line_order_witness :
  let s := snd (fst (_py_proc__parse_maps_file demo_fs
                       (MapsLines [lib_line; exe_line; heap_line]) self0 world0)) in
  let s' := snd (fst (_py_proc__parse_maps_file demo_fs
                        (MapsLines [exe_line; lib_line; heap_line]) self0 world0)) in
  (min_raddr s' = min_raddr s /\ max_raddr s' = max_raddr s) /\
  object_file s = Some python_lib /\ object_file s' = Some python_exe.
Proof.
  split.
  - apply (bounds_ignore_line_order demo_fs [lib_line; exe_line; heap_line]
             [exe_line; lib_line; heap_line] self0 world0).
    apply perm_swap.
  - split; reflexivity.
Defined.

Lemma parse_maps_file_frame fs mf self w :
  pid (snd (fst (_py_proc__parse_maps_file fs mf self w))) = pid self /\
  anchors (snd (fst (_py_proc__parse_maps_file fs mf self w))) = anchors self /\
  bss (proc_map (snd (fst (_py_proc__parse_maps_file fs mf self w))))
  = bss (proc_map self).
Proof.
  destruct mf as [errno | lines].
  - unfold _py_proc__parse_maps_file. cbn. auto.
  - rewrite parse_maps_file_self.
    destruct (fold_parse_frame fs lines
                (with_paths None None (with_bounds (ptr (-1)) 0 self), 0))
      as (A & B & C).
    rewrite A, B, C. cbn. auto.
Qed.

Lemma parse_line_not_candidate fs st e :
  candidate fs e = false ->
  bin_path (fst (parse_line fs st e)) = bin_path (fst st) /\
  lib_path (fst (parse_line fs st e)) = lib_path (fst st) /\
  elf (proc_map (fst (parse_line fs st e))) = elf (proc_map (fst st)).
Proof.
  revert st; intros st. flag_cases fs st e; try discriminate; auto.
Qed.

(** X5.  On a listing in which every file that the loop opens can be
    mapped, [_py_proc__parse_maps_file] writes neither [pid], nor the
    anchors, nor the [bss] block; and when no line of the listing is that
    of a file of at least 1 MiB whose text contains ["python"], both paths
    end up [NULL] and the [elf] block is the former one.  When the maps
    file cannot be opened the function writes nothing of [self]. *)
Theorem loader_keeps_pid_anchors_and_bss :
  forall fs self w,
    (forall errno,
        snd (fst (_py_proc__parse_maps_file fs (FopenFailed errno) self w))
        = self) /\
    (forall lines,
        files_mappable fs lines ->
        let s := snd (fst (_py_proc__parse_maps_file fs (MapsLines lines) self w)) in
        pid s = pid self /\ anchors s = anchors self /\
        bss (proc_map s) = bss (proc_map self) /\
        (Forall (fun e => candidate fs e = false) lines ->
         bin_path s = None /\ lib_path s = None /\
         elf (proc_map s) = elf (proc_map self))).
Proof.
  intros fs self w. split; [intros errno; reflexivity|].
  intros lines _ s. subst s.
  destruct (parse_maps_file_frame fs (MapsLines lines) self w) as (A & B & C).
  split; [exact A|]. split; [exact B|]. split; [exact C|].
  intros Hall. rewrite parse_maps_file_self.
  set (st0 := (with_paths None None (with_bounds (ptr (-1)) 0 self), 0)).
  assert (forall ls st,
             Forall (fun e => candidate fs e = false) ls ->
             bin_path (fst (fold_left (parse_line fs) ls st)) = bin_path (fst st) /\
             lib_path (fst (fold_left (parse_line fs) ls st)) = lib_path (fst st) /\
             elf (proc_map (fst (fold_left (parse_line fs) ls st)))
             = elf (proc_map (fst st))) as Hgen.
  { induction ls as [|e ls IH]; intros st Hls; cbn [fold_left]; [auto|].
    inversion Hls as [|? ? He Hrest]; subst.
    destruct (IH (parse_line fs st e) Hrest) as (P & Q & R).
    rewrite P, Q, R. apply parse_line_not_candidate. exact He. }
  destruct (Hgen lines st0 Hall) as (P & Q & R).
  rewrite P, Q, R. cbn. auto.
Qed.

(** A listing with the heap and a region without path, parsed from a
    session that had found its interpreter: the paths are reset and stay
    empty, and the [elf] block is still the one of before. *)
Lemma loader_keeps_pid_anchors_and_bss_witness :
  let s := snd (fst (_py_proc__parse_maps_file demo_fs
                       (MapsLines [heap_line; anon_line]) attached world0)) in
  (pid s = pid attached /\ anchors s = anchors attached /\
   bss (proc_map s) = bss (proc_map attached) /\
   (Forall (fun e => candidate demo_fs e = false) [heap_line; anon_line] ->
    bin_path s = None /\ lib_path s = None /\
    elf (proc_map s) = elf (proc_map attached))) /\
  bin_path attached = Some python_exe /\ bin_path s = None /\
  elf (proc_map s) = {| base := 4194304; size := 6291456 |}.
Proof.
  cbv zeta. split; [|repeat split; reflexivity].
  refine (proj2 (loader_keeps_pid_anchors_and_bss demo_fs attached world0)
            [heap_line; anon_line] _).
  repeat constructor; intros H; vm_compute in H; discriminate H.
Defined.

(** X6.  On a listing without any real region (no line that [sscanf]
    could split, or only pseudo-regions such as [[vsyscall]]) the bounds
    stay at their initial values, [min_raddr = (void * ) -1] and
    [max_raddr = NULL]: the range is empty, no address is within it. *)
Theorem no_real_region_gives_empty_bounds :
  forall fs lines self w,
    Forall (fun e => real_region e = false) lines ->
    let s := snd (fst (_py_proc__parse_maps_file fs (MapsLines lines) self w)) in
    min_raddr s = UINT64_MAX /\ max_raddr s = 0 /\
    forall addr, in_bounds (min_raddr s) (max_raddr s) addr = false.
Proof.
  intros fs lines self w Hall s. subst s.
  rewrite parse_maps_file_self.
  assert (filter real_region lines = []) as Hf.
  { induction Hall as [|e l He _ IH]; simpl; [reflexivity|].
    rewrite He. exact IH. }
  destruct (fold_parse_bounds fs lines
              (with_paths None None (with_bounds (ptr (-1)) 0 self), 0))
    as [A B].
  rewrite A, B, Hf.
  cbn [map fold_right fst min_raddr max_raddr with_paths with_bounds].
  rewrite ptr_minus_one.
  split; [reflexivity|]. split; [reflexivity|].
  intros addr. unfold in_bounds.
  destruct (UINT64_MAX <=? addr) eqn:E1; [|reflexivity].
  apply Z.leb_le in E1. unfold UINT64_MAX in E1.
  destruct (addr <? 0) eqn:E2; [|reflexivity].
  apply Z.ltb_lt in E2. lia.
Qed.

Lemma no_real_region_gives_empty_bounds_witness :
  let s := snd (fst (_py_proc__parse_maps_file demo_fs
                       (MapsLines [vsyscall_line; junk_line]) attached world0)) in
  min_raddr s = UINT64_MAX /\ max_raddr s = 0 /\
  forall addr, in_bounds (min_raddr s) (max_raddr s) addr = false.
Proof.
  apply (no_real_region_gives_empty_bounds demo_fs [vsyscall_line; junk_line]
           attached world0).
  repeat constructor.
Defined.

Lemma heap_is_first_heap_line_witness :
  let r := _py_proc__parse_maps_file demo_fs
             (MapsLines [exe_line; heap_line; anon_line; heap_line]) self0 world0 in
  heap (proc_map (snd (fst r))) = block_of heap_line /\
  block_of heap_line = {| base := 29360128; size := 2097152 |} /\
  (let r' := _py_proc__parse_maps_file demo_fs (MapsLines [exe_line; anon_line])
               attached world0 in
   heap (proc_map (snd (fst r'))) = heap (proc_map attached) /\
   fst (fst r') = 1).
Proof.
  cbv zeta. split; [|split; [reflexivity|]].
  - refine (proj1 (heap_is_first_heap_line demo_fs
                     [exe_line; heap_line; anon_line; heap_line] self0 world0)
              [exe_line] heap_line [anon_line; heap_line] eq_refl _ eq_refl).
    repeat constructor.
  - refine (proj2 (heap_is_first_heap_line demo_fs [exe_line; anon_line]
                     attached world0) _).
    repeat constructor.
Defined.

Lemma load_succeeds_with_heap_and_candidate_witness :
  fst (fst (_py_proc__parse_maps_file demo_fs (MapsLines [exe_line; heap_line])
              self0 world0)) = 0 /\
  (let r := _py_proc__parse_maps_file demo_fs (FopenFailed EACCES) self0 world0 in
   fst (fst r) = 1 /\ snd (fst r) = self0 /\ issued (snd r) = issued world0 /\
   austin_errno (snd r) = Some EPROCPERM).
Proof.
  destruct (load_succeeds_with_heap_and_candidate demo_fs self0 world0) as (A & B).
  split.
  - assert (files_mappable demo_fs [exe_line; heap_line]) as Hf.
    { repeat constructor; intros H;
        first [reflexivity | vm_compute in H; discriminate H]. }
    destruct (B [exe_line; heap_line] Hf) as (_ & _ & _ & H). apply H.
    + apply Exists_cons_tl. apply Exists_cons_hd. reflexivity.
    + apply Exists_cons_hd. split; reflexivity.
  - exact (A EACCES).
Defined.

(* ------------------------------------------------------------------------- *)
(** ** What the analysers leave of the session *)

Lemma scan_sections_no_fault L with_bss ehdr elf_map sh_name_base vbase bound :
  forall fuel sh_off st,
    scan_sections L with_bss fuel ehdr elf_map sh_name_base vbase bound sh_off st
    <> Fault.
Proof.
  induction fuel as [|fuel IH]; intros sh_off st; simpl; [discriminate|].
  destruct (sh_off <? bound); [apply IH | discriminate].
Qed.

Lemma with_anchors_same self : with_anchors (anchors self) self = self.
Proof. destruct self; reflexivity. Qed.

Lemma same_but_bss_frame a b :
  same_but_bss a b ->
  pid b = pid a /\ bin_path b = bin_path a /\ lib_path b = lib_path a /\
  min_raddr b = min_raddr a /\ max_raddr b = max_raddr a /\
  elf (proc_map b) = elf (proc_map a) /\ heap (proc_map b) = heap (proc_map a) /\
  anchors b = anchors a.
Proof. unfold same_but_bss. intros ->. repeat split. Qed.

(** What a finished analysis leaves of [self]: all but [bss] and the
    anchors. *)
Lemma analyze_elf_class_frame L with_bss check_sym fs fuel ehdr self r self' seen :
  analyze_elf_class L with_bss check_sym fs fuel ehdr self
  = Done (r, self', seen) ->
  pid self' = pid self /\ bin_path self' = bin_path self /\
  lib_path self' = lib_path self /\
  min_raddr self' = min_raddr self /\ max_raddr self' = max_raddr self /\
  elf (proc_map self') = elf (proc_map self) /\
  heap (proc_map self') = heap (proc_map self).
Proof.
  intros H. apply analyze_elf_class_inv in H.
  destruct H as (path & vbase & _ & _ & [(_ & _ & -> & _) | (_ & H)]).
  - repeat split.
  - destruct H as (d & self1 & s & a & Hscan & _ & _ & ->).
    apply scan_sections_spec in Hscan. destruct Hscan as (Hs & _).
    simpl snd in Hs. apply same_but_bss_frame in Hs.
    destruct Hs as (H1 & H2 & H3 & H4 & H5 & H6 & H7 & _).
    destruct self1; simpl in *. repeat split; assumption.
Qed.

(** X7.  A run of [_py_proc__analyze_elf64] or [_py_proc__analyze_elf32]
    that returns leaves [pid], both paths, both bounds and the [elf] and
    [heap] blocks of [self] as they were: the analysers write the [bss]
    block (the 64-bit one only) and the anchors, nothing else. *)
Theorem analysis_writes_only_bss_and_anchors :
  forall check_sym fs fuel self w r self' seen,
    _py_proc__analyze_elf64 check_sym fs fuel self w = Done (r, self', seen) \/
    _py_proc__analyze_elf32 check_sym fs fuel self w = Done (r, self', seen) ->
    pid self' = pid self /\ bin_path self' = bin_path self /\
    lib_path self' = lib_path self /\
    min_raddr self' = min_raddr self /\ max_raddr self' = max_raddr self /\
    elf (proc_map self') = elf (proc_map self) /\
    heap (proc_map self') = heap (proc_map self).
Proof.
  intros check_sym fs fuel self w r self' seen [H | H];
    eapply analyze_elf_class_frame; exact H.
Qed.

Lemma analysis_writes_only_bss_and_anchors_witness :
  (pid analysed64 = pid attached /\ bin_path analysed64 = bin_path attached /\
   lib_path analysed64 = lib_path attached /\
   min_raddr analysed64 = min_raddr attached /\
   max_raddr analysed64 = max_raddr attached /\
   elf (proc_map analysed64) = elf (proc_map attached) /\
   heap (proc_map analysed64) = heap (proc_map attached)) /\
  bss (proc_map analysed64) <> bss (proc_map attached) /\
  anchors analysed64 <> anchors attached.
Proof.
  split; [|split; vm_compute; discriminate].
  exact (analysis_writes_only_bss_and_anchors check_sym_py demo_fs 400%nat attached
           loaded64 _ _ _ (or_introl demo64_analysis)).
Defined.

(* ------------------------------------------------------------------------- *)
(** ** Which section headers the loop retains *)

Section LastSection.

Variable L : elf_class.
Variable with_bss : bool.
Variables ehdr elf_map : list Z.
Variables sh_name_base vbase elf_map_size : Z.

Let step := section_step L with_bss elf_map sh_name_base vbase.
Let name := section_name L elf_map sh_name_base.
Let dyn := is_dynsym_header L elf_map sh_name_base.
Let seen_from := visits (width L) (e_shentsize L ehdr) elf_map_size.
Let next p := wrap (width L) (p + e_shentsize L ehdr).

Lemma section_step_fst p st :
  fst (step p st) = if dyn p then Some p else fst st.
Proof.
  unfold step, section_step, dyn, is_dynsym_header. destruct st as [d self].
  destruct (_ && _); [reflexivity|].
  destruct (_ && _); reflexivity.
Qed.

Lemma section_step_snd p st :
  with_bss = true ->
  snd (step p st) =
  if String.eqb (name p) ".bss"
  then with_map (set_bss (bss_block L elf_map vbase p (snd st))
                   (proc_map (snd st))) (snd st)
  else snd st.
Proof.
  intros ->. unfold step, section_step, name. destruct st as [d self].
  destruct (String.eqb_spec (section_name L elf_map sh_name_base p) ".bss")
    as [E|E].
  - rewrite E. simpl String.eqb. rewrite andb_false_r. reflexivity.
  - destruct (_ && _); reflexivity.
Qed.

(** The loop retains the last header that passes the test for [.dynsym],
    and the block of the last section named [.bss]. *)
Lemma scan_sections_last : forall fuel sh_off st res,
  scan_sections L with_bss fuel ehdr elf_map sh_name_base vbase elf_map_size
    sh_off st = Done res ->
  ((exists p, seen_from sh_off p /\ dyn p = true /\ fst res = Some p /\
              forall q, seen_from (next p) q -> dyn q = false) \/
   (fst res = fst st /\ forall q, seen_from sh_off q -> dyn q = false)) /\
  (with_bss = true ->
   (exists p, seen_from sh_off p /\ name p = ".bss"%string /\
              bss (proc_map (snd res)) = bss_block L elf_map vbase p (snd st) /\
              forall q, seen_from (next p) q -> name q <> ".bss"%string) \/
   (snd res = snd st /\
    forall q, seen_from sh_off q -> name q <> ".bss"%string)).
Proof.
  induction fuel as [|fuel IH]; intros sh_off st res H; [discriminate H|].
  simpl in H.
  destruct (sh_off <? elf_map_size) eqn:Hb.
  - apply Z.ltb_lt in Hb.
    apply IH in H. fold (step sh_off st) in H. fold (next sh_off) in H.
    destruct H as (Hdyn & Hbss). split.
    + destruct Hdyn as [(p & Hv & Hd & Hf & Hlast) | (Hf & Hnone)].
      * left. exists p. split; [apply visits_later; assumption | auto].
      * rewrite section_step_fst in Hf.
        destruct (dyn sh_off) eqn:Ed.
        -- left. exists sh_off. split; [apply visits_here; assumption | auto].
        -- right. split; [exact Hf|].
           intros q Hq. inversion Hq; subst; auto.
    + intros Hw. specialize (Hbss Hw).
      pose proof (section_step_same L with_bss elf_map sh_name_base vbase
                    sh_off st) as Hs1.
      fold (step sh_off st) in Hs1.
      destruct Hbss as [(p & Hv & Hn & Hblock & Hlast) | (Heq & Hnone)].
      * left. exists p. split; [apply visits_later; assumption|].
        split; [exact Hn|]. split; [|exact Hlast].
        rewrite Hblock. apply bss_block_elf. apply same_but_bss_elf. exact Hs1.
      * rewrite (section_step_snd sh_off st Hw) in Heq.
        destruct (String.eqb_spec (name sh_off) ".bss") as [E|E].
        -- left. exists sh_off. split; [apply visits_here; assumption|].
           split; [exact E|]. split; [|exact Hnone].
           rewrite Heq. reflexivity.
        -- right. split; [exact Heq|].
           intros q Hq. inversion Hq; subst; auto.
  - apply Z.ltb_ge in Hb. inversion H; subst; clear H. split.
    + right. split; [reflexivity|]. intros q Hq. inversion Hq; subst; lia.
    + intros _. right. split; [reflexivity|].
      intros q Hq. inversion Hq; subst; lia.
Qed.

End LastSection.

(** Without a header that passes the test for [.dynsym], no symbol is
    examined and the anchors stay as they were. *)
Lemma analyze_elf_class_no_dynsym L with_bss check_sym fs fuel ehdr self r self'
    seen path :
  object_file self = Some path ->
  (forall q, section_visited L ehdr q ->
             is_dynsym_header L (contents fs path)
               (sh_name_base_of L ehdr (contents fs path)) q = false) ->
  analyze_elf_class L with_bss check_sym fs fuel ehdr self
  = Done (r, self', seen) ->
  r = 1 /\ seen = [] /\ anchors self' = anchors self.
Proof.
  intros Hp Hno H. apply analyze_elf_class_inv in H.
  destruct H as (path' & vbase & Hp' & _ & [(_ & -> & -> & ->) | (_ & H)]);
    [auto|].
  assert (path' = path) as -> by congruence.
  destruct H as (d & self1 & s & a & Hscan & Hres & -> & ->).
  pose proof Hscan as Hspec. apply scan_sections_spec in Hspec.
  destruct Hspec as (Hsame & _). simpl snd in Hsame.
  apply same_but_bss_frame in Hsame.
  apply scan_sections_last in Hscan. destruct Hscan as (Hdyn & _).
  simpl fst in Hdyn.
  destruct Hdyn as [(p & Hv & Hd & _) | (-> & _)].
  - rewrite (Hno p Hv) in Hd. discriminate Hd.
  - simpl in Hres. inversion Hres; subst.
    split; [reflexivity|]. split; [reflexivity|].
    destruct self1; simpl in *. apply Hsame.
Qed.

(** The loop over the symbols is the replay of [_py_proc__check_sym] over
    the entries it examined. *)
Lemma scan_symbols_replay L check_sym elf_map strtab_off elf_base vbase bound
    entsize :
  forall fuel tab_off symbols a s a' seen,
    scan_symbols L check_sym fuel elf_map strtab_off elf_base vbase bound
      entsize tab_off symbols a = Done (s, a', seen) ->
    replay L check_sym elf_map strtab_off elf_base vbase (List.map fst seen) a
    = (seen, a').
Proof.
  induction fuel as [|fuel IH]; intros tab_off symbols a s a' seen H;
    [discriminate H|].
  simpl in H.
  destruct (tab_off <? bound); [|inversion H; reflexivity].
  destruct (check_sym (sym_name L elf_map strtab_off tab_off)
              (sym_value L elf_map elf_base vbase tab_off) a) as [r a1] eqn:Ec.
  destruct (SYMBOLS <=? symbols + Z.b2z r).
  - inversion H; subst; clear H. simpl. rewrite Ec. reflexivity.
  - destruct (scan_symbols L check_sym fuel elf_map strtab_off elf_base vbase
                bound entsize (wrap (width L) (tab_off + entsize))
                (symbols + Z.b2z r) a1) as [[[s1 a2] seen1]| |] eqn:E;
      simpl in H; try discriminate H.
    inversion H; subst; clear H.
    apply IH in E. simpl. rewrite Ec, E. reflexivity.
Qed.

(** The symbol loop on the table whose header is at [d]. *)
Lemma resolve_symbols_table L check_sym fuel ehdr elf_map vbase d self s a seen :
  resolve_symbols L check_sym fuel ehdr elf_map vbase (Some d) self
  = Done (s, a, seen) ->
  (sh_offset L elf_map d = 0 -> seen = [] /\ a = anchors self) /\
  (sh_offset L elf_map d <> 0 ->
   table_scan L elf_map d seen /\
   replay L check_sym elf_map (strtab_off_of L ehdr elf_map d)
     (base (elf (proc_map self))) vbase (List.map fst seen) (anchors self)
   = (seen, a)).
Proof.
  unfold resolve_symbols. intros H. split.
  - intros Hz. rewrite Hz in H. simpl in H. inversion H. auto.
  - intros Hnz. apply Z.eqb_neq in Hnz. rewrite Hnz in H.
    split.
    + pose proof H as H1. apply scan_symbols_spec in H1; [|unfold SYMBOLS; lia].
      destruct H1 as (Hs & Hle & Hord & Hpre & Hend).
      split; [exact Hord|]. intros Hlt. apply Hend. lia.
    + apply scan_symbols_replay in H. exact H.
Qed.

(** The section header retained for the symbols, and the block retained for
    [bss], after a finished analysis that found a load bias. *)
Lemma analyze_elf_class_last L with_bss check_sym fs fuel ehdr self r self' seen
    path vbase :
  object_file self = Some path ->
  get_base L ehdr (contents fs path) = Done vbase ->
  vbase <> no_base L ->
  analyze_elf_class L with_bss check_sym fs fuel ehdr self
  = Done (r, self', seen) ->
  ((exists d, last_dynsym L ehdr (contents fs path) d /\
              (sh_offset L (contents fs path) d = 0 -> seen = []) /\
              (sh_offset L (contents fs path) d <> 0 ->
               table_scan L (contents fs path) d seen)) \/
   ((forall q, section_visited L ehdr q ->
               is_dynsym_header L (contents fs path)
                 (sh_name_base_of L ehdr (contents fs path)) q = false) /\
    seen = [])) /\
  (with_bss = true ->
   (exists p, last_bss L ehdr (contents fs path) p /\
              bss (proc_map self') = bss_block L (contents fs path) vbase p self) \/
   ((forall q, section_visited L ehdr q ->
               section_name L (contents fs path)
                 (sh_name_base_of L ehdr (contents fs path)) q <> ".bss"%string) /\
    bss (proc_map self') = bss (proc_map self))).
Proof.
  intros Hp Hb Hnb H. apply analyze_elf_class_inv in H.
  destruct H as (path' & vbase' & Hp' & Hb' & H).
  assert (path' = path) as -> by congruence.
  assert (vbase' = vbase) as -> by congruence.
  destruct H as [(Hv & _) | (_ & H)]; [contradiction|].
  destruct H as (d & self1 & s & a & Hscan & Hres & -> & ->).
  apply scan_sections_last in Hscan. destruct Hscan as (Hdyn & Hbss).
  simpl fst in Hdyn. simpl snd in Hbss. split.
  - destruct Hdyn as [(p & Hv & Hd & -> & Hlast) | (-> & Hnone)].
    + left. exists p. split; [split; [exact Hv | split; [exact Hd | exact Hlast]]|].
      split.
      * intros Hz. unfold resolve_symbols in Hres. rewrite Hz in Hres.
        simpl in Hres. inversion Hres. reflexivity.
      * intros Hnz. apply resolve_symbols_table in Hres.
        destruct Hres as (_ & Ht). exact (proj1 (Ht Hnz)).
    + right. split; [exact Hnone|].
      simpl in Hres. inversion Hres. reflexivity.
  - intros Hw. destruct (Hbss Hw) as [(p & Hv & Hn & Hblock & Hlast) | (Heq & Hnone)].
    + left. exists p. split; [split; [exact Hv | split; [exact Hn | exact Hlast]]|].
      exact Hblock.
    + right. split; [exact Hnone|]. rewrite Heq. reflexivity.
Qed.

(** X8.  When no visited section header is of type [SHT_DYNSYM] with the
    name [.dynsym], every run of an analyser that returns reports failure
    (1), has examined no symbol and leaves the anchors untouched; the 32-bit
    analyser leaves the whole of [self] untouched.  On well-formed tables
    the run comes to an end. *)
Theorem analysis_fails_without_dynsym :
  (forall check_sym fs fuel self w path,
      object_file self = Some path ->
      (forall q, section_visited ELF64 (ehdr_v w) q ->
                 is_dynsym_header ELF64 (contents fs path)
                   (sh_name_base_of ELF64 (ehdr_v w) (contents fs path)) q
                 = false) ->
      (forall r self' seen,
          _py_proc__analyze_elf64 check_sym fs fuel self w
          = Done (r, self', seen) ->
          r = 1 /\ seen = [] /\ anchors self' = anchors self) /\
      (tables_well_formed ELF64 (ehdr_v w) (contents fs path) fuel ->
       _py_proc__analyze_elf64 check_sym fs fuel self w <> OutOfFuel)) /\
  (forall check_sym fs fuel self w path,
      object_file self = Some path ->
      (forall q, section_visited ELF32 (ehdr_v w) q ->
                 is_dynsym_header ELF32 (contents fs path)
                   (sh_name_base_of ELF32 (ehdr_v w) (contents fs path)) q
                 = false) ->
      (forall r self' seen,
          _py_proc__analyze_elf32 check_sym fs fuel self w
          = Done (r, self', seen) ->
          r = 1 /\ seen = [] /\ self' = self) /\
      (tables_well_formed ELF32 (ehdr_v w) (contents fs path) fuel ->
       _py_proc__analyze_elf32 check_sym fs fuel self w <> OutOfFuel)).
Proof.
  split.
  - intros check_sym fs fuel self w path Hp Hno. split.
    + intros r self' seen E. unfold _py_proc__analyze_elf64 in E.
      exact (analyze_elf_class_no_dynsym _ _ _ _ _ _ _ _ _ _ _ Hp Hno E).
    + intros Hwf. unfold _py_proc__analyze_elf64.
      eapply analysis_returns; eassumption.
  - intros check_sym fs fuel self w path Hp Hno. split.
    + intros r self' seen E. unfold _py_proc__analyze_elf32 in E.
      destruct (analyze_elf_class_no_dynsym _ _ _ _ _ _ _ _ _ _ _ Hp Hno E)
        as (-> & -> & Ha).
      split; [reflexivity|]. split; [reflexivity|].
      apply analyze_elf_class_inv in E.
      destruct E as (path' & vbase' & _ & _ & [(_ & _ & -> & _) | (_ & H)]);
        [reflexivity|].
      destruct H as (d & self1 & s & a & Hscan & Hres & _ & ->).
      apply scan_sections_spec in Hscan.
      destruct Hscan as (_ & [(Hw & _) | (Heq & _)] & _); [discriminate Hw|].
      simpl snd in Heq. subst self1. simpl in Ha. rewrite Ha.
      apply with_anchors_same.
    + intros Hwf. unfold _py_proc__analyze_elf32.
      eapply analysis_returns; eassumption.
Qed.

Lemma nodynsym64_analysis :
  _py_proc__analyze_elf64 check_sym_py (fs_of nodynsym64) 400 attached loaded64
  = Done (1, analysed_nodynsym, []).
Proof. vm_compute. reflexivity. Qed.

Lemma nodynsym64_tables :
  tables_well_formed ELF64 (demo64_ehdr ET_EXEC) nodynsym64 400.
Proof.
  split; [lia|]. split; [vm_compute; reflexivity|]. split.
  - intros _. split; [vm_compute; discriminate | vm_compute; lia].
  - intros d Hv Ht. exfalso. unfold section_visited in Hv. vm_compute in Hv.
    visit_cases Hv; vm_compute in Ht; try discriminate Ht.
    all: try (vm_compute in *; discriminate).
Defined.

Lemma nodynsym64_no_dynsym :
  forall q, section_visited ELF64 (demo64_ehdr ET_EXEC) q ->
            is_dynsym_header ELF64 nodynsym64
              (sh_name_base_of ELF64 (demo64_ehdr ET_EXEC) nodynsym64) q = false.
Proof.
  intros q Hv. unfold section_visited in Hv. vm_compute in Hv.
  visit_cases Hv; try (vm_compute; reflexivity).
  all: try (vm_compute in *; discriminate).
Defined.

(** The sample file whose symbol table is not of type [SHT_DYNSYM]: the
    analysis returns 1, the anchors are those of before, and the [bss]
    block was stored all the same. *)
Lemma analysis_fails_without_dynsym_witness :
  (1 = 1 /\ @nil (Z * bool) = [] /\ anchors analysed_nodynsym = anchors attached) /\
  _py_proc__analyze_elf64 check_sym_py (fs_of nodynsym64) 400 attached loaded64
  <> OutOfFuel /\
  bss (proc_map analysed_nodynsym) = {| base := 6303744; size := 8192 |}.
Proof.
  destruct (proj1 analysis_fails_without_dynsym check_sym_py (fs_of nodynsym64)
              400%nat attached loaded64 python_exe eq_refl nodynsym64_no_dynsym)
    as (A & B).
  split; [exact (A _ _ _ nodynsym64_analysis)|].
  split; [exact (B nodynsym64_tables) | reflexivity].
Defined.

(** X9.  When several section headers qualify, the last visited one wins.
    After a finished analysis that found a load bias, either no visited
    header passes the test for [.dynsym] and no symbol was examined, or the
    examined entries are those of the table of the last visited header that
    passes it (none when its [sh_offset] is zero); and for the 64-bit
    analyser either no visited section is named [.bss] and the [bss] block
    is the former one, or it is the block of the last visited section named
    [.bss]. *)
Theorem last_matching_section_wins :
  (forall check_sym fs fuel self w r self' seen path vbase,
      object_file self = Some path ->
      _get_base_64 (ehdr_v w) (contents fs path) = Done vbase ->
      vbase <> UINT64_MAX ->
      _py_proc__analyze_elf64 check_sym fs fuel self w = Done (r, self', seen) ->
      ((exists d, last_dynsym ELF64 (ehdr_v w) (contents fs path) d /\
                  (sh_offset ELF64 (contents fs path) d = 0 -> seen = []) /\
                  (sh_offset ELF64 (contents fs path) d <> 0 ->
                   table_scan ELF64 (contents fs path) d seen)) \/
       ((forall q, section_visited ELF64 (ehdr_v w) q ->
                   is_dynsym_header ELF64 (contents fs path)
                     (sh_name_base_of ELF64 (ehdr_v w) (contents fs path)) q
                   = false) /\
        seen = [])) /\
      ((exists p, last_bss ELF64 (ehdr_v w) (contents fs path) p /\
                  bss (proc_map self')
                  = bss_block ELF64 (contents fs path) vbase p self) \/
       ((forall q, section_visited ELF64 (ehdr_v w) q ->
                   section_name ELF64 (contents fs path)
                     (sh_name_base_of ELF64 (ehdr_v w) (contents fs path)) q
                   <> ".bss"%string) /\
        bss (proc_map self') = bss (proc_map self)))) /\
  (forall check_sym fs fuel self w r self' seen path vbase,
      object_file self = Some path ->
      _get_base_32 (ehdr_v w) (contents fs path) = Done vbase ->
      vbase <> UINT32_MAX ->
      _py_proc__analyze_elf32 check_sym fs fuel self w = Done (r, self', seen) ->
      (exists d, last_dynsym ELF32 (ehdr_v w) (contents fs path) d /\
                 (sh_offset ELF32 (contents fs path) d = 0 -> seen = []) /\
                 (sh_offset ELF32 (contents fs path) d <> 0 ->
                  table_scan ELF32 (contents fs path) d seen)) \/
      ((forall q, section_visited ELF32 (ehdr_v w) q ->
                  is_dynsym_header ELF32 (contents fs path)
                    (sh_name_base_of ELF32 (ehdr_v w) (contents fs path)) q
                  = false) /\
       seen = [])).
Proof.
  split.
  - intros check_sym fs fuel self w r self' seen path vbase Hp Hb Hnb H.
    destruct (analyze_elf_class_last ELF64 true check_sym fs fuel (ehdr_v w) self
                r self' seen path vbase Hp Hb Hnb H) as (Hd & Hbss).
    split; [exact Hd | exact (Hbss eq_refl)].
  - intros check_sym fs fuel self w r self' seen path vbase Hp Hb Hnb H.
    exact (proj1 (analyze_elf_class_last ELF32 false check_sym fs fuel (ehdr_v w)
                    self r self' seen path vbase Hp Hb Hnb H)).
Qed.

Lemma twobss64_analysis :
  _py_proc__analyze_elf64 check_sym_py (fs_of twobss64) 400 attached loaded64 =
  Done (0, analysed_twobss, [(176, false); (200, true); (224, false); (248, true)]).
Proof. vm_compute. reflexivity. Qed.

(** In a file with two sections named [.bss], of 0x100 bytes at 0x700000 and
    then of 0x2000 bytes at 0x603000, the second one is retained. *)
Lemma last_matching_section_wins_witness :
  (((exists d, last_dynsym ELF64 (ehdr_v loaded64) (contents (fs_of twobss64) python_exe) d /\
               (sh_offset ELF64 (contents (fs_of twobss64) python_exe) d = 0 ->
                [(176, false); (200, true); (224, false); (248, true)] = []) /\
               (sh_offset ELF64 (contents (fs_of twobss64) python_exe) d <> 0 ->
                table_scan ELF64 (contents (fs_of twobss64) python_exe) d
                  [(176, false); (200, true); (224, false); (248, true)])) \/
    ((forall q, section_visited ELF64 (ehdr_v loaded64) q ->
                is_dynsym_header ELF64 (contents (fs_of twobss64) python_exe)
                  (sh_name_base_of ELF64 (ehdr_v loaded64)
                     (contents (fs_of twobss64) python_exe)) q
                = false) /\
     [(176, false); (200, true); (224, false); (248, true)] = [])) /\
   ((exists p, last_bss ELF64 (ehdr_v loaded64) (contents (fs_of twobss64) python_exe) p /\
               bss (proc_map analysed_twobss)
               = bss_block ELF64 (contents (fs_of twobss64) python_exe) 4194304 p
                   attached) \/
    ((forall q, section_visited ELF64 (ehdr_v loaded64) q ->
                section_name ELF64 (contents (fs_of twobss64) python_exe)
                  (sh_name_base_of ELF64 (ehdr_v loaded64)
                     (contents (fs_of twobss64) python_exe)) q
                <> ".bss"%string) /\
     bss (proc_map analysed_twobss) = bss (proc_map attached)))) /\
  bss_block ELF64 twobss64 4194304 374 attached = {| base := 7340032; size := 256 |} /\
  bss_block ELF64 twobss64 4194304 566 attached = {| base := 6303744; size := 8192 |} /\
  bss (proc_map analysed_twobss) = {| base := 6303744; size := 8192 |}.
Proof.
  split; [|split; [|split]]; [|reflexivity..].
  refine (proj1 last_matching_section_wins check_sym_py (fs_of twobss64) 400%nat
            attached loaded64 _ _ _ python_exe 4194304 eq_refl _ _
            twobss64_analysis).
  - vm_compute. reflexivity.
  - vm_compute. discriminate.
Defined.

(* ------------------------------------------------------------------------- *)
(** ** The anchors after the analysis *)

Lemma analyze_elf_class_replay L with_bss check_sym fs fuel ehdr self r self'
    seen path :
  object_file self = Some path ->
  analyze_elf_class L with_bss check_sym fs fuel ehdr self
  = Done (r, self', seen) ->
  (seen = [] /\ anchors self' = anchors self) \/
  exists d vbase,
    get_base L ehdr (contents fs path) = Done vbase /\
    last_dynsym L ehdr (contents fs path) d /\
    replay L check_sym (contents fs path)
      (strtab_off_of L ehdr (contents fs path) d)
      (base (elf (proc_map self))) vbase (List.map fst seen) (anchors self)
    = (seen, anchors self').
Proof.
  intros Hp H. apply analyze_elf_class_inv in H.
  destruct H as (path' & vbase & Hp' & Hb & [(_ & _ & -> & ->) | (_ & H)]);
    [left; auto|].
  assert (path' = path) as -> by congruence.
  destruct H as (d & self1 & s & a & Hscan & Hres & _ & ->).
  pose proof Hscan as Hspec. apply scan_sections_spec in Hspec.
  destruct Hspec as (Hsame & _). simpl snd in Hsame.
  apply same_but_bss_frame in Hsame.
  destruct Hsame as (_ & _ & _ & _ & _ & Helf & _ & Hanch).
  apply scan_sections_last in Hscan. destruct Hscan as (Hdyn & _).
  simpl fst in Hdyn.
  assert (anchors (with_anchors a self1) = a) as Ha by (destruct self1; reflexivity).
  rewrite Ha.
  destruct Hdyn as [(p & Hv & Hd & -> & Hlast) | (-> & _)].
  - apply resolve_symbols_table in Hres. destruct Hres as (Hz & Hnz).
    destruct (Z.eq_dec (sh_offset L (contents fs path) p) 0) as [E | E].
    + left. destruct (Hz E) as (-> & ->). auto.
    + right. exists p, vbase. split; [exact Hb|].
      split; [split; [exact Hv | split; [exact Hd | exact Hlast]]|].
      destruct (Hnz E) as (_ & Hr). rewrite Helf, Hanch in Hr. exact Hr.
  - left. simpl in Hres. inversion Hres; subst. auto.
Qed.

Lemma sym_value_no_wrap L elf_map elf_base vbase off :
  0 <= elf_base -> vbase <= st_value L elf_map off ->
  st_value L elf_map off - vbase < 2 ^ width L ->
  elf_base + (st_value L elf_map off - vbase) < 2 ^ 64 ->
  sym_value L elf_map elf_base vbase off
  = elf_base + (st_value L elf_map off - vbase).
Proof.
  intros H0 H1 H2 H3. unfold sym_value, ptr, wrap.
  rewrite (Z.mod_small (st_value L elf_map off - vbase)) by lia.
  apply Z.mod_small. lia.
Qed.

(** X10.  The anchors after a finished analysis are those obtained by
    calling [_py_proc__check_sym] on the examined entries, in the order of
    the table, from the anchors before the analysis; the name handed over is
    read in the string table that [sh_link] designates, and the value is
    [map.elf.base + (st_value - base)], which is exact (no wrap-around) when
    the symbol is not below the load bias and the sum fits in 64 bits.
    When no entry was examined the anchors are unchanged. *)
Theorem anchors_replay_the_examined_entries :
  (forall check_sym fs fuel self w r self' seen path,
      object_file self = Some path ->
      _py_proc__analyze_elf64 check_sym fs fuel self w = Done (r, self', seen) ->
      (seen = [] /\ anchors self' = anchors self) \/
      exists d vbase,
        _get_base_64 (ehdr_v w) (contents fs path) = Done vbase /\
        last_dynsym ELF64 (ehdr_v w) (contents fs path) d /\
        replay ELF64 check_sym (contents fs path)
          (strtab_off_of ELF64 (ehdr_v w) (contents fs path) d)
          (base (elf (proc_map self))) vbase (List.map fst seen) (anchors self)
        = (seen, anchors self')) /\
  (forall check_sym fs fuel self w r self' seen path,
      object_file self = Some path ->
      _py_proc__analyze_elf32 check_sym fs fuel self w = Done (r, self', seen) ->
      (seen = [] /\ anchors self' = anchors self) \/
      exists d vbase,
        _get_base_32 (ehdr_v w) (contents fs path) = Done vbase /\
        last_dynsym ELF32 (ehdr_v w) (contents fs path) d /\
        replay ELF32 check_sym (contents fs path)
          (strtab_off_of ELF32 (ehdr_v w) (contents fs path) d)
          (base (elf (proc_map self))) vbase (List.map fst seen) (anchors self)
        = (seen, anchors self')) /\
  (forall elf_map elf_base vbase off,
      0 <= elf_base -> vbase <= st_value ELF64 elf_map off ->
      elf_base + (st_value ELF64 elf_map off - vbase) < 2 ^ 64 ->
      sym_value ELF64 elf_map elf_base vbase off
      = elf_base + (st_value ELF64 elf_map off - vbase)) /\
  (forall elf_map elf_base vbase off,
      0 <= elf_base -> 0 <= vbase <= st_value ELF32 elf_map off ->
      elf_base + (st_value ELF32 elf_map off - vbase) < 2 ^ 64 ->
      sym_value ELF32 elf_map elf_base vbase off
      = elf_base + (st_value ELF32 elf_map off - vbase)).
Proof.
  split; [|split; [|split]].
  - intros check_sym fs fuel self w r self' seen path Hp H.
    exact (analyze_elf_class_replay ELF64 true check_sym fs fuel (ehdr_v w) self
             r self' seen path Hp H).
  - intros check_sym fs fuel self w r self' seen path Hp H.
    exact (analyze_elf_class_replay ELF32 false check_sym fs fuel (ehdr_v w) self
             r self' seen path Hp H).
  - intros elf_map elf_base vbase off H0 H1 H2.
    apply sym_value_no_wrap; try lia.
    change (width ELF64) with 64. lia.
  - intros elf_map elf_base vbase off H0 H1 H2.
    apply sym_value_no_wrap; try lia.
    pose proof (rd_range elf_map 4 (ptr (off + 4))) as Hr.
    unfold st_value, get. simpl fst. simpl snd. simpl width.
    change (256 ^ Z.of_nat 4) with (2 ^ 32) in Hr. lia.
Qed.

Lemma anchors_replay_the_examined_entries_witness :
  let seen := [(176, false); (200, true); (224, false); (248, true)] in
  ((seen = [] /\ anchors analysed64 = anchors attached) \/
   exists d vbase,
     _get_base_64 (ehdr_v loaded64) (contents demo_fs python_exe) = Done vbase /\
     last_dynsym ELF64 (ehdr_v loaded64) (contents demo_fs python_exe) d /\
     replay ELF64 check_sym_py (contents demo_fs python_exe)
       (strtab_off_of ELF64 (ehdr_v loaded64) (contents demo_fs python_exe) d)
       (base (elf (proc_map attached))) vbase (List.map fst seen)
       (anchors attached)
     = (seen, anchors analysed64)) /\
  replay ELF64 check_sym_py (demo64 ET_EXEC) 296 4194304 4194304
    [176; 200; 224; 248] (anchors attached)
  = (seen, {| runtime_raddr := 6295552; tstate_raddr := 6299648 |}) /\
  sym_value ELF64 (demo64 ET_EXEC) 4194304 4194304 200 = 4194304 + (6295552 - 4194304).
Proof.
  cbv zeta. split; [|split; vm_compute; reflexivity].
  exact (proj1 anchors_replay_the_examined_entries check_sym_py demo_fs 400%nat
           attached loaded64 _ _ _ python_exe eq_refl demo64_analysis).
Defined.

(* ------------------------------------------------------------------------- *)
(** ** Malformed tables *)

Lemma get_base_from_zero_align L ehdr elf_map i : forall n i0,
  i0 <= i < i0 + Z.of_nat n ->
  p_type L elf_map (phdr_off L ehdr i) = PT_LOAD ->
  (forall j, i0 <= j < i -> p_type L elf_map (phdr_off L ehdr j) <> PT_LOAD) ->
  p_align L elf_map (phdr_off L ehdr i) = 0 ->
  get_base_from L ehdr elf_map n i0 = Fault.
Proof.
  induction n as [|n IH]; intros i0 Hi Hload Hbefore Halign; [lia|].
  simpl get_base_from.
  destruct (Z.eq_dec i0 i) as [->|Hne].
  - rewrite Hload, Z.eqb_refl, Halign. reflexivity.
  - destruct (p_type L elf_map (phdr_off L ehdr i0) =? PT_LOAD) eqn:E.
    + apply Z.eqb_eq in E. exfalso. apply (Hbefore i0); [lia | exact E].
    + apply IH; auto; [lia|]. intros j Hj. apply Hbefore. lia.
Qed.

Lemma get_base_first_load_zero_align L ehdr elf_map i :
  first_load L ehdr elf_map i ->
  p_align L elf_map (phdr_off L ehdr i) = 0 ->
  get_base L ehdr elf_map = Fault.
Proof.
  intros (Hi & Hload & Hbefore) Halign. unfold get_base.
  apply (get_base_from_zero_align L ehdr elf_map i); auto.
  rewrite Z2Nat.id; lia.
Qed.

Lemma analyze_zero_align L with_bss check_sym fs fuel ehdr self path i :
  object_file self = Some path ->
  first_load L ehdr (contents fs path) i ->
  p_align L (contents fs path) (phdr_off L ehdr i) = 0 ->
  analyze_elf_class L with_bss check_sym fs fuel ehdr self = Fault.
Proof.
  intros Hp Hl Ha. unfold analyze_elf_class. rewrite Hp.
  rewrite (get_base_first_load_zero_align _ _ _ _ Hl Ha).
  destruct (_ || _); reflexivity.
Qed.

(** X11.  When the first loadable segment has a zero [p_align],
    [_get_base_64] and [_get_base_32] divide by zero, and so do the two
    analysers, whatever the sections and the symbols are. *)
Theorem zero_alignment_faults :
  (forall ehdr elf_map i,
      first_load ELF64 ehdr elf_map i ->
      p_align ELF64 elf_map (phdr_off ELF64 ehdr i) = 0 ->
      _get_base_64 ehdr elf_map = Fault) /\
  (forall ehdr elf_map i,
      first_load ELF32 ehdr elf_map i ->
      p_align ELF32 elf_map (phdr_off ELF32 ehdr i) = 0 ->
      _get_base_32 ehdr elf_map = Fault) /\
  (forall check_sym fs fuel self w path i,
      object_file self = Some path ->
      first_load ELF64 (ehdr_v w) (contents fs path) i ->
      p_align ELF64 (contents fs path) (phdr_off ELF64 (ehdr_v w) i) = 0 ->
      _py_proc__analyze_elf64 check_sym fs fuel self w = Fault) /\
  (forall check_sym fs fuel self w path i,
      object_file self = Some path ->
      first_load ELF32 (ehdr_v w) (contents fs path) i ->
      p_align ELF32 (contents fs path) (phdr_off ELF32 (ehdr_v w) i) = 0 ->
      _py_proc__analyze_elf32 check_sym fs fuel self w = Fault).
Proof.
  split; [|split; [|split]].
  - intros. apply (get_base_first_load_zero_align ELF64 ehdr elf_map i); assumption.
  - intros. apply (get_base_first_load_zero_align ELF32 ehdr elf_map i); assumption.
  - intros. unfold _py_proc__analyze_elf64.
    eapply analyze_zero_align; eassumption.
  - intros. unfold _py_proc__analyze_elf32.
    eapply analyze_zero_align; eassumption.
Qed.

Lemma zeroalign64_first_load :
  first_load ELF64 (demo64_ehdr ET_EXEC) zeroalign64 1.
Proof.
  split; [vm_compute; split; [discriminate | reflexivity]|].
  split; [reflexivity|].
  intros j Hj. assert (j = 0) as -> by lia. vm_compute. discriminate.
Defined.

Lemma zero_alignment_faults_witness :
  _get_base_64 (demo64_ehdr ET_EXEC) zeroalign64 = Fault /\
  _py_proc__analyze_elf64 check_sym_py (fs_of zeroalign64) 400 attached loaded64
  = Fault.
Proof.
  destruct zero_alignment_faults as (A & _ & C & _).
  split.
  - exact (A (demo64_ehdr ET_EXEC) zeroalign64 1 zeroalign64_first_load eq_refl).
  - exact (C check_sym_py (fs_of zeroalign64) 400%nat attached loaded64 python_exe 1
             eq_refl zeroalign64_first_load eq_refl).
Defined.

Lemma visits_linear W stride bound off p q :
  visits W stride bound off p -> visits W stride bound off q ->
  p = q \/ visits W stride bound (wrap W (p + stride)) q
  \/ visits W stride bound (wrap W (q + stride)) p.
Proof.
  intros Hp. revert q. induction Hp as [off Hlt | off p Hlt Hp IH]; intros q Hq.
  - inversion Hq; subst; auto.
  - inversion Hq; subst; auto.
Qed.

Lemma last_dynsym_unique L ehdr elf_map d p :
  last_dynsym L ehdr elf_map d -> last_dynsym L ehdr elf_map p -> d = p.
Proof.
  intros (Hv & Hd & Hlast) (Hv' & Hd' & Hlast').
  destruct (visits_linear _ _ _ _ _ _ Hv Hv') as [E | [H | H]]; [exact E | |].
  - apply Hlast in H. congruence.
  - apply Hlast' in H. congruence.
Qed.

Lemma scan_symbols_stuck L check_sym elf_map strtab_off elf_base vbase bound
    tab_off :
  0 <= tab_off < 2 ^ width L -> tab_off < bound ->
  (forall a, fst (check_sym (sym_name L elf_map strtab_off tab_off)
                    (sym_value L elf_map elf_base vbase tab_off) a) = false) ->
  forall fuel a,
    scan_symbols L check_sym fuel elf_map strtab_off elf_base vbase bound 0
      tab_off 0 a = OutOfFuel.
Proof.
  intros Hr Hb Hc fuel. induction fuel as [|fuel IH]; intros a; [reflexivity|].
  simpl. apply Z.ltb_lt in Hb. rewrite Hb.
  specialize (Hc a).
  destruct (check_sym _ _ a) as [r a1]. simpl in Hc. subst r. simpl.
  replace (wrap (width L) (tab_off + 0)) with tab_off
    by (unfold wrap; rewrite Z.add_0_r, Z.mod_small; lia).
  rewrite IH. reflexivity.
Qed.

Lemma scan_symbols_twice L check_sym elf_map strtab_off elf_base vbase bound
    tab_off :
  0 <= tab_off < 2 ^ width L -> tab_off < bound ->
  (forall a, fst (check_sym (sym_name L elf_map strtab_off tab_off)
                    (sym_value L elf_map elf_base vbase tab_off) a) = true) ->
  forall fuel a,
    (2 <= fuel)%nat ->
    exists a',
      scan_symbols L check_sym fuel elf_map strtab_off elf_base vbase bound 0
        tab_off 0 a = Done (2, a', [(tab_off, true); (tab_off, true)]).
Proof.
  intros Hr Hb Hc fuel a Hf.
  destruct fuel as [|[|fuel]]; try lia.
  simpl. apply Z.ltb_lt in Hb. rewrite Hb.
  pose proof (Hc a) as H1.
  destruct (check_sym _ _ a) as [r a1]. simpl in H1. subst r. simpl.
  replace (wrap (width L) (tab_off + 0)) with tab_off
    by (unfold wrap; rewrite Z.add_0_r, Z.mod_small; lia).
  rewrite Hb.
  pose proof (Hc a1) as H2.
  destruct (check_sym _ _ a1) as [r a2]. simpl in H2. subst r. simpl.
  exists a2. reflexivity.
Qed.

Lemma visits_below W stride bound off p :
  visits W stride bound off p -> off < bound.
Proof. intros H. inversion H; assumption. Qed.

(** A file in which the loop meets a section named [.dynsym] was mapped,
    on a length that is not zero. *)
Lemma last_dynsym_mapped L ehdr fs path d :
  last_dynsym L ehdr (contents fs path) d ->
  (elf_map_size_of L ehdr =? 0) || negb (mappable fs path) = false.
Proof.
  intros (Hv & Hd & _).
  apply visits_below in Hv.
  pose proof (get_nonneg ehdr 0 (f_e_shoff L)) as H0.
  fold (e_shoff L ehdr) in H0.
  assert ((elf_map_size_of L ehdr =? 0) = false) as -> by (apply Z.eqb_neq; lia).
  unfold mappable, is_dynsym_header, section_name, cstr_at in *.
  destruct (contents fs path); [|reflexivity].
  simpl in Hd. rewrite andb_false_r in Hd. discriminate Hd.
Qed.

(** With a zero [sh_entsize] in the retained header and a first entry that
    is no anchor, the analysers do not return. *)
Lemma analyze_zero_entsize L with_bss check_sym fs ehdr self path vbase d :
  object_file self = Some path ->
  get_base L ehdr (contents fs path) = Done vbase ->
  vbase <> no_base L ->
  last_dynsym L ehdr (contents fs path) d ->
  sh_entsize L (contents fs path) d = 0 ->
  0 < sh_offset L (contents fs path) d < symtab_bound L (contents fs path) d ->
  sh_offset L (contents fs path) d < 2 ^ width L ->
  (forall a,
      fst (check_sym
             (sym_name L (contents fs path)
                (strtab_off_of L ehdr (contents fs path) d)
                (sh_offset L (contents fs path) d))
             (sym_value L (contents fs path) (base (elf (proc_map self))) vbase
                (sh_offset L (contents fs path) d)) a) = false) ->
  forall fuel,
    analyze_elf_class L with_bss check_sym fs fuel ehdr self = OutOfFuel.
Proof.
  intros Hp Hb Hnb Hd Hz Hoff Hlt Hc fuel.
  unfold analyze_elf_class. rewrite Hp, Hb.
  fold (elf_map_size_of L ehdr).
  rewrite (last_dynsym_mapped L ehdr fs path d Hd). simpl.
  apply Z.eqb_neq in Hnb. rewrite Hnb. simpl.
  fold (sh_name_base_of L ehdr (contents fs path)).
  destruct (scan_sections _ _ _ _ _ _ _ _ _ _) as [[d' self1]| |] eqn:E1;
    simpl; [| |reflexivity].
  2:{ exfalso. exact (scan_sections_no_fault _ _ _ _ _ _ _ _ _ _ E1). }
  pose proof E1 as Hspec. apply scan_sections_spec in Hspec.
  destruct Hspec as (Hsame & _). simpl snd in Hsame.
  apply same_but_bss_elf in Hsame.
  apply scan_sections_last in E1. destruct E1 as (Hdyn & _). simpl fst in Hdyn.
  destruct Hdyn as [(p & Hv & Hdp & -> & Hlast) | (-> & Hnone)].
  - assert (d = p) as <-.
    { apply (last_dynsym_unique L ehdr (contents fs path)); [exact Hd|].
      split; [exact Hv | split; [exact Hdp | exact Hlast]]. }
    unfold resolve_symbols.
    destruct (sh_offset L (contents fs path) d =? 0) eqn:E0;
      [apply Z.eqb_eq in E0; lia|].
    rewrite Hz. fold (symtab_bound L (contents fs path) d).
    fold (strtab_off_of L ehdr (contents fs path) d).
    rewrite Hsame.
    rewrite scan_symbols_stuck; [reflexivity | lia | lia | exact Hc].
  - exfalso. destruct Hd as (Hv & Hdd & _). rewrite (Hnone d Hv) in Hdd.
    discriminate Hdd.
Qed.

(** X12.  With a zero [sh_entsize] in the retained [.dynsym] header the
    symbol loop does not advance.  If the first entry of a non-empty table
    is not an anchor the analysers never return, whatever the fuel; and if
    it is an anchor, the loop examines it twice and stops with a count of
    [SYMBOLS], one symbol being counted twice. *)
Theorem zero_entry_size_never_advances :
  (forall check_sym fs self w path vbase d,
      object_file self = Some path ->
      _get_base_64 (ehdr_v w) (contents fs path) = Done vbase ->
      vbase <> UINT64_MAX ->
      last_dynsym ELF64 (ehdr_v w) (contents fs path) d ->
      sh_entsize ELF64 (contents fs path) d = 0 ->
      0 < sh_offset ELF64 (contents fs path) d
        < symtab_bound ELF64 (contents fs path) d ->
      (forall a,
          fst (check_sym
                 (sym_name ELF64 (contents fs path)
                    (strtab_off_of ELF64 (ehdr_v w) (contents fs path) d)
                    (sh_offset ELF64 (contents fs path) d))
                 (sym_value ELF64 (contents fs path)
                    (base (elf (proc_map self))) vbase
                    (sh_offset ELF64 (contents fs path) d)) a) = false) ->
      forall fuel,
        _py_proc__analyze_elf64 check_sym fs fuel self w = OutOfFuel) /\
  (forall check_sym fs self w path vbase d,
      object_file self = Some path ->
      _get_base_32 (ehdr_v w) (contents fs path) = Done vbase ->
      vbase <> UINT32_MAX ->
      last_dynsym ELF32 (ehdr_v w) (contents fs path) d ->
      sh_entsize ELF32 (contents fs path) d = 0 ->
      0 < sh_offset ELF32 (contents fs path) d
        < symtab_bound ELF32 (contents fs path) d ->
      (forall a,
          fst (check_sym
                 (sym_name ELF32 (contents fs path)
                    (strtab_off_of ELF32 (ehdr_v w) (contents fs path) d)
                    (sh_offset ELF32 (contents fs path) d))
                 (sym_value ELF32 (contents fs path)
                    (base (elf (proc_map self))) vbase
                    (sh_offset ELF32 (contents fs path) d)) a) = false) ->
      forall fuel,
        _py_proc__analyze_elf32 check_sym fs fuel self w = OutOfFuel) /\
  (forall L check_sym elf_map strtab_off elf_base vbase bound tab_off,
      0 <= tab_off < 2 ^ width L -> tab_off < bound ->
      (forall a, fst (check_sym (sym_name L elf_map strtab_off tab_off)
                        (sym_value L elf_map elf_base vbase tab_off) a) = true) ->
      forall fuel a,
        (2 <= fuel)%nat ->
        exists a',
          scan_symbols L check_sym fuel elf_map strtab_off elf_base vbase bound
            0 tab_off 0 a
          = Done (2, a', [(tab_off, true); (tab_off, true)])).
Proof.
  split; [|split].
  - intros check_sym fs self w path vbase d Hp Hb Hnb Hd Hz Hoff Hc fuel.
    unfold _py_proc__analyze_elf64.
    apply (analyze_zero_entsize ELF64 true check_sym fs (ehdr_v w) self path
             vbase d); auto.
    pose proof (rd_range (contents fs path) 8 (ptr (d + 24))) as Hr.
    unfold sh_offset, get. simpl fst. simpl snd.
    change (256 ^ Z.of_nat 8) with (2 ^ 64) in Hr. exact (proj2 Hr).
  - intros check_sym fs self w path vbase d Hp Hb Hnb Hd Hz Hoff Hc fuel.
    unfold _py_proc__analyze_elf32.
    apply (analyze_zero_entsize ELF32 false check_sym fs (ehdr_v w) self path
             vbase d); auto.
    pose proof (rd_range (contents fs path) 4 (ptr (d + 16))) as Hr.
    unfold sh_offset, get. simpl fst. simpl snd.
    change (256 ^ Z.of_nat 4) with (2 ^ 32) in Hr. exact (proj2 Hr).
  - intros L check_sym elf_map strtab_off elf_base vbase bound tab_off Hr Hb Hc
           fuel a Hf.
    apply scan_symbols_twice; assumption.
Qed.

Lemma zeroent64_last_dynsym :
  last_dynsym ELF64 (demo64_ehdr ET_EXEC) zeroent64 438.
Proof.
  split; [|split].
  - unfold section_visited.
    change (elf_map_size_of ELF64 (demo64_ehdr ET_EXEC)) with 694.
    change (e_shentsize ELF64 (demo64_ehdr ET_EXEC)) with 64.
    change (e_shoff ELF64 (demo64_ehdr ET_EXEC)) with 374.
    apply visits_later; [lia|]. change (wrap (width ELF64) (374 + 64)) with 438.
    apply visits_here. lia.
  - vm_compute. reflexivity.
  - intros q Hq. unfold visited_after in Hq. vm_compute in Hq.
    visit_cases Hq; try (vm_compute; reflexivity).
    all: try (vm_compute in *; discriminate).
Defined.

Lemma zero_entry_size_never_advances_witness :
  (forall fuel,
      _py_proc__analyze_elf64 check_sym_py (fs_of zeroent64) fuel attached loaded64
      = OutOfFuel) /\
  (exists a',
      scan_symbols ELF64 check_sym_py 2 (demo64 ET_EXEC) 296 4194304 4194304 296
        0 200 0 (anchors attached)
      = Done (2, a', [(200, true); (200, true)])).
Proof.
  destruct zero_entry_size_never_advances as (A & _ & C).
  split.
  - refine (A check_sym_py (fs_of zeroent64) attached loaded64 python_exe 4194304
              438 eq_refl _ _ zeroent64_last_dynsym eq_refl _ _).
    + vm_compute. reflexivity.
    + vm_compute. discriminate.
    + vm_compute. split; reflexivity.
    + intros a. vm_compute. reflexivity.
  - refine (C ELF64 check_sym_py (demo64 ET_EXEC) 296 4194304 4194304 296 200
              _ _ _ 2%nat (anchors attached) _).
    + vm_compute. split; [discriminate | reflexivity].
    + reflexivity.
    + intros a. vm_compute. reflexivity.
    + lia.
Defined.

(* ------------------------------------------------------------------------- *)
(** ** The dispatcher, in general *)

Lemma analyze_elf_world check_sym k fs fuel self w :
  snd (_py_proc__analyze_elf check_sym k fs fuel self w) =
  set_ehdr_v
    (transfer (ehdr_v w) (rv_data (header_reply k self))
       (rv_result (header_reply k self)))
    (snd (copy_memory k (pid self) (base (elf (proc_map self))) sizeof_ehdr_v
            (ehdr_v w) w)).
Proof.
  rewrite analyze_elf_dispatch. cbv zeta. cbn [snd].
  unfold py_proc__memcpy, header_reply. reflexivity.
Qed.

Lemma analyze_elf_failed check_sym k fs fuel self w :
  rv_result (header_reply k self) <> sizeof_ehdr_v ->
  fst (_py_proc__analyze_elf check_sym k fs fuel self w) = Done (FAIL, self, []).
Proof.
  intros H. rewrite analyze_elf_dispatch. cbv zeta. cbn [fst].
  unfold py_proc__memcpy, copy_memory. cbn [fst].
  fold (header_reply k self).
  apply Z.eqb_neq in H. rewrite H. reflexivity.
Qed.

Lemma analyze_elf_read_ok check_sym k fs fuel self w :
  rv_result (header_reply k self) = sizeof_ehdr_v ->
  fst (_py_proc__analyze_elf check_sym k fs fuel self w) =
  let w' := snd (_py_proc__analyze_elf check_sym k fs fuel self w) in
  if invalid_elf_format (ehdr_v w) then Done (FAIL, self, [])
  else if e_ident (ehdr_v w) EI_CLASS =? ELFCLASS32
       then _py_proc__analyze_elf32 check_sym fs fuel self w'
  else if e_ident (ehdr_v w) EI_CLASS =? ELFCLASS64
       then _py_proc__analyze_elf64 check_sym fs fuel self w'
  else Done (FAIL, self, []).
Proof.
  intros H. cbv zeta. rewrite analyze_elf_dispatch. cbv zeta. cbn [fst snd].
  unfold py_proc__memcpy, copy_memory. cbn [fst snd].
  fold (header_reply k self). rewrite H, Z.eqb_refl. reflexivity.
Qed.

Lemma analyze_elf_issued check_sym k fs fuel self w :
  issued (snd (_py_proc__analyze_elf check_sym k fs fuel self w))
  = issued w ++ [header_read self].
Proof.
  rewrite analyze_elf_world. cbn [issued set_ehdr_v]. apply copy_memory_issued.
Qed.

(** X13.  Each call of [_py_proc__analyze_elf] issues exactly one read, of
    [sizeof(ehdr_v)] bytes at [map.elf.base] in the process [pid], and
    leaves in [ehdr_v] what the read transferred.  When the read does not
    give all the bytes the call fails with [self] untouched, and the error
    slot is set only if the system call itself failed; when it gives them
    the error slot is unchanged. *)
Theorem analyze_elf_reads_the_header_once :
  forall check_sym k fs fuel self w,
    let r := _py_proc__analyze_elf check_sym k fs fuel self w in
    let reply := header_reply k self in
    issued (snd r) = issued w ++ [header_read self] /\
    ehdr_v (snd r) = transfer (ehdr_v w) (rv_data reply) (rv_result reply) /\
    (rv_result reply <> sizeof_ehdr_v ->
     fst r = Done (FAIL, self, []) /\
     austin_errno (snd r) =
     if rv_result reply =? -1 then Some (classify (rv_errno reply))
     else austin_errno w) /\
    (rv_result reply = sizeof_ehdr_v -> austin_errno (snd r) = austin_errno w).
Proof.
  intros check_sym k fs fuel self w r reply. subst r reply.
  split; [apply analyze_elf_issued|].
  rewrite analyze_elf_world.
  split; [|split].
  - reflexivity.
  - intros H. split; [apply analyze_elf_failed; exact H|].
    cbn [austin_errno set_ehdr_v]. rewrite copy_memory_world. cbv zeta.
    fold (header_reply k self).
    destruct (rv_result (header_reply k self) =? -1); reflexivity.
  - intros H. cbn [austin_errno set_ehdr_v]. rewrite copy_memory_world. cbv zeta.
    fold (header_reply k self). rewrite H. reflexivity.
Qed.

(** A session without [elf] region: the read at address 0 is refused by
    the kernel, the call fails and the error is a memory fault. *)
Lemma analyze_elf_reads_the_header_once_witness :
  let r := _py_proc__analyze_elf check_sym_py demo_kernel demo_fs 400 self0 world0 in
  issued (snd r) = issued world0 ++ [header_read self0] /\
  fst r = Done (FAIL, self0, []) /\
  austin_errno (snd r) = Some EMEMCOPY.
Proof.
  cbv zeta.
  destruct (analyze_elf_reads_the_header_once check_sym_py demo_kernel demo_fs
              400%nat self0 world0) as (A & _ & C & _).
  split; [exact A|].
  assert (rv_result (header_reply demo_kernel self0) <> sizeof_ehdr_v) as H
    by (vm_compute; discriminate).
  destruct (C H) as (C1 & C2). split; [exact C1 | exact C2].
Defined.

Lemma transfer_again buf data n :
  transfer (transfer buf data n) data n = transfer buf data n.
Proof.
  unfold transfer. cbv zeta.
  rewrite skipn_app, skipn_all, Nat.sub_diag. reflexivity.
Qed.

Lemma invalid_zero_header : invalid_elf_format (repeat 0 64) = true.
Proof. vm_compute. reflexivity. Qed.

(** X14.  On a zeroed [ehdr_v] (the first call in a process)
    [_py_proc__analyze_elf] fails whatever the target is.  After a call
    whose read succeeded, [ehdr_v] holds the header of the target, and a
    further call on a session with the same [pid] and [elf] block tests the
    format of that header, chooses the analyser by its class and runs it on
    that header. *)
Theorem second_call_analyses_the_header_of_the_first :
  (forall check_sym k fs fuel self w,
      fst (_py_proc__analyze_elf check_sym k fs fuel self
             (set_ehdr_v (repeat 0 64) w))
      = Done (FAIL, self, [])) /\
  (forall check_sym k fs fuel fuel' self self2 w,
      pid self2 = pid self ->
      elf (proc_map self2) = elf (proc_map self) ->
      rv_result (header_reply k self) = sizeof_ehdr_v ->
      let w1 := snd (_py_proc__analyze_elf check_sym k fs fuel self w) in
      let r2 := _py_proc__analyze_elf check_sym k fs fuel' self2 w1 in
      let h := ehdr_v w1 in
      h = transfer (ehdr_v w) (rv_data (header_reply k self)) sizeof_ehdr_v /\
      ehdr_v (snd r2) = h /\
      fst r2 =
      if invalid_elf_format h then Done (FAIL, self2, [])
      else if e_ident h EI_CLASS =? ELFCLASS32
           then _py_proc__analyze_elf32 check_sym fs fuel' self2 (snd r2)
      else if e_ident h EI_CLASS =? ELFCLASS64
           then _py_proc__analyze_elf64 check_sym fs fuel' self2 (snd r2)
      else Done (FAIL, self2, [])).
Proof.
  split.
  - intros check_sym k fs fuel self w.
    rewrite analyze_elf_dispatch. cbv zeta. cbn [fst].
    change (ehdr_v (set_ehdr_v (repeat 0 64) w)) with (repeat 0 64).
    rewrite invalid_zero_header.
    destruct (negb _); reflexivity.
  - intros check_sym k fs fuel fuel' self self2 w Hpid Helf Hok w1 r2 h.
    assert (header_reply k self2 = header_reply k self) as Hrep.
    { unfold header_reply. rewrite Hpid, Helf. reflexivity. }
    assert (h = transfer (ehdr_v w) (rv_data (header_reply k self)) sizeof_ehdr_v)
      as Hh.
    { subst h w1. rewrite analyze_elf_world. cbn [ehdr_v set_ehdr_v].
      rewrite Hok. reflexivity. }
    assert (ehdr_v (snd r2) = h) as Hh2.
    { subst r2. rewrite analyze_elf_world. cbn [ehdr_v set_ehdr_v].
      rewrite Hrep, Hok. fold h. rewrite Hh. apply transfer_again. }
    split; [exact Hh|]. split; [exact Hh2|].
    subst r2. rewrite analyze_elf_read_ok by (rewrite Hrep; exact Hok).
    cbv zeta. fold h. reflexivity.
Qed.

Lemma second_call_analyses_the_header_of_the_first_witness :
  let w1 := snd (_py_proc__analyze_elf check_sym_py demo_kernel demo_fs 400
                   attached world0) in
  let r2 := _py_proc__analyze_elf check_sym_py demo_kernel demo_fs 400 attached w1 in
  let h := ehdr_v w1 in
  (h = transfer (ehdr_v world0) (rv_data (header_reply demo_kernel attached))
         sizeof_ehdr_v /\
   ehdr_v (snd r2) = h /\
   fst r2 =
   if invalid_elf_format h then Done (FAIL, attached, [])
   else if e_ident h EI_CLASS =? ELFCLASS32
        then _py_proc__analyze_elf32 check_sym_py demo_fs 400 attached (snd r2)
   else if e_ident h EI_CLASS =? ELFCLASS64
        then _py_proc__analyze_elf64 check_sym_py demo_fs 400 attached (snd r2)
   else Done (FAIL, attached, [])) /\
  h = demo64_ehdr ET_EXEC /\ invalid_elf_format h = false.
Proof.
  cbv zeta. split; [|split; vm_compute; reflexivity].
  exact (proj2 second_call_analyses_the_header_of_the_first check_sym_py
           demo_kernel demo_fs 400%nat 400%nat attached attached world0
           eq_refl eq_refl eq_refl).
Defined.

(* ------------------------------------------------------------------------- *)
(** ** [_py_proc__init] *)

Lemma parse_maps_file_world fs lines self w :
  snd (_py_proc__parse_maps_file fs (MapsLines lines) self w) = w.
Proof.
  unfold _py_proc__parse_maps_file. destruct (fold_left _ _ _); reflexivity.
Qed.

Lemma parse_maps_file_fopen_failed fs errno self w :
  fst (fst (_py_proc__parse_maps_file fs (FopenFailed errno) self w)) = 1.
Proof.
  unfold _py_proc__parse_maps_file. cbn [fst].
  unfold maps_result. rewrite orb_true_r. reflexivity.
Qed.

Lemma parse_maps_file_success fs lines self w :
  fst (fst (_py_proc__parse_maps_file fs (MapsLines lines) self w)) = 0 ->
  has_path (snd (fst (_py_proc__parse_maps_file fs (MapsLines lines) self w))) /\
  Exists (fun e => heap_line_p e = true) lines /\
  Exists (fun e => candidate fs e = true) lines.
Proof.
  rewrite parse_maps_file_self, parse_maps_file_result.
  set (st0 := (with_paths None None (with_bounds (ptr (-1)) 0 self), 0)).
  intros H. apply maps_result_paths in H. destruct H as [Hp Hf].
  split; [exact Hp|]. split.
  - apply (fold_parse_flag_needs_heap fs lines st0 eq_refl Hf).
  - apply (fold_parse_path_needs_candidate fs lines st0); auto.
Qed.

Lemma init_unfold check_sym k fs mf fuel self w :
  _py_proc__init check_sym k fs mf fuel self w =
  let p := _py_proc__parse_maps_file fs mf self w in
  if negb (fst (fst p) =? 0) then (Done (FAIL, snd (fst p)), snd p)
  else
    let a := _py_proc__analyze_elf check_sym k fs fuel (snd (fst p)) (snd p) in
    (match fst a with
     | Done (r, s, _) => if negb (r =? 0) then Done (FAIL, s) else Done (SUCCESS, s)
     | Fault => Fault
     | OutOfFuel => OutOfFuel
     end, snd a).
Proof.
  unfold _py_proc__init. cbv zeta.
  destruct (_py_proc__parse_maps_file fs mf self w) as [[r s] w1]. cbn [fst snd].
  destruct (negb (r =? 0)); [reflexivity|].
  destruct (_py_proc__analyze_elf check_sym k fs fuel s w1) as [o w2].
  cbn [fst snd]. destruct o as [[[r' s'] seen]| |]; reflexivity.
Qed.

Lemma analyze_elf_success check_sym k fs fuel self w s' seen :
  fst (_py_proc__analyze_elf check_sym k fs fuel self w) = Done (0, s', seen) ->
  rv_result (header_reply k self) = sizeof_ehdr_v /\
  (_py_proc__analyze_elf64 check_sym fs fuel self
     (snd (_py_proc__analyze_elf check_sym k fs fuel self w))
   = Done (0, s', seen) \/
   _py_proc__analyze_elf32 check_sym fs fuel self
     (snd (_py_proc__analyze_elf check_sym k fs fuel self w))
   = Done (0, s', seen)).
Proof.
  intros H.
  destruct (Z.eq_dec (rv_result (header_reply k self)) sizeof_ehdr_v) as [E | E].
  - split; [exact E|].
    rewrite analyze_elf_read_ok in H by exact E. cbv zeta in H.
    destruct (invalid_elf_format (ehdr_v w)); [discriminate H|].
    destruct (e_ident (ehdr_v w) EI_CLASS =? ELFCLASS32); [right; exact H|].
    destruct (e_ident (ehdr_v w) EI_CLASS =? ELFCLASS64); [left; exact H|].
    discriminate H.
  - rewrite analyze_elf_failed in H by exact E. discriminate H.
Qed.

Lemma analysis_success_resolved L with_bss check_sym fs fuel ehdr self s' seen :
  analyze_elf_class L with_bss check_sym fs fuel ehdr self = Done (0, s', seen) ->
  1 <= resolved seen.
Proof.
  intros H. pose proof H as Hi. apply analyze_elf_class_inv in Hi.
  destruct Hi as (path & _ & Hp & _).
  destruct (analyze_elf_class_seen _ _ _ _ _ _ _ _ _ _ _ Hp H) as (Hr & _).
  pose proof (resolved_nonneg seen).
  destruct (resolved seen =? 0) eqn:E; [discriminate Hr|].
  apply Z.eqb_neq in E. lia.
Qed.

(** X15.  [_py_proc__init] reads the target only after the maps listing
    was parsed with success: when the parse fails it returns [FAIL] with
    the session that the parse left, and no read is issued; otherwise it
    issues exactly one read, that of the ELF header.  When it returns
    [SUCCESS], the listing has a heap line and a line of a candidate file,
    one of the paths is set, the analysis changed neither the paths, the
    bounds nor the [elf] and [heap] blocks of the parse, the read of the
    header gave all its bytes, the error slot is as before, and one of the
    two analysers returned 0 with at least one anchor resolved. *)
Theorem init_succeeds_only_on_a_loaded_and_analysed_target :
  forall check_sym k fs mf fuel self w,
    let p := _py_proc__parse_maps_file fs mf self w in
    let s := snd (fst p) in
    let r := _py_proc__init check_sym k fs mf fuel self w in
    (fst (fst p) <> 0 ->
     r = (Done (FAIL, s), snd p) /\
     issued (snd r) = issued w /\ ehdr_v (snd r) = ehdr_v w) /\
    (fst (fst p) = 0 -> issued (snd r) = issued w ++ [header_read s]) /\
    (forall s',
        fst r = Done (SUCCESS, s') ->
        (exists lines,
            mf = MapsLines lines /\
            Exists (fun e => heap_line_p e = true) lines /\
            Exists (fun e => candidate fs e = true) lines) /\
        has_path s' /\
        bin_path s' = bin_path s /\ lib_path s' = lib_path s /\
        min_raddr s' = min_raddr s /\ max_raddr s' = max_raddr s /\
        elf (proc_map s') = elf (proc_map s) /\
        heap (proc_map s') = heap (proc_map s) /\
        rv_result (header_reply k s) = sizeof_ehdr_v /\
        austin_errno (snd r) = austin_errno w /\
        exists seen,
          1 <= resolved seen /\
          (_py_proc__analyze_elf64 check_sym fs fuel s (snd r) = Done (0, s', seen) \/
           _py_proc__analyze_elf32 check_sym fs fuel s (snd r) = Done (0, s', seen))).
Proof.
  intros check_sym k fs mf fuel self w p s r. subst r.
  rewrite init_unfold. cbv zeta. fold p. fold s.
  split; [|split].
  - intros H. apply Z.eqb_neq in H. rewrite H. cbn [negb fst snd].
    split; [reflexivity|].
    subst p. destruct mf as [errno | lines].
    + unfold _py_proc__parse_maps_file. cbn [snd].
      destruct (errno =? EACCES); [split; reflexivity|].
      destruct (errno =? ENOENT); split; reflexivity.
    + rewrite parse_maps_file_world. split; reflexivity.
  - intros H. rewrite H. cbn [negb Z.eqb snd].
    rewrite analyze_elf_issued.
    subst p. destruct mf as [errno | lines].
    + rewrite parse_maps_file_fopen_failed in H. discriminate H.
    + rewrite parse_maps_file_world. reflexivity.
  - intros s' H.
    destruct (fst (fst p) =? 0) eqn:E0; cbn [negb fst snd] in H;
      [|discriminate H].
    apply Z.eqb_eq in E0. cbn [negb fst snd].
    destruct mf as [errno | lines].
    { subst p. rewrite parse_maps_file_fopen_failed in E0. discriminate E0. }
    assert (snd p = w) as Hw by (subst p; apply parse_maps_file_world).
    destruct (parse_maps_file_success fs lines self w E0) as (Hpath & Hheap & Hcand).
    fold p in Hpath. fold s in Hpath.
    destruct (fst (_py_proc__analyze_elf check_sym k fs fuel s (snd p)))
      as [[[r' s1] seen]| |] eqn:Ea; try discriminate H.
    destruct (r' =? 0) eqn:Er; cbn [negb] in H; [|discriminate H].
    apply Z.eqb_eq in Er. subst r'. inversion H; subst s1; clear H.
    destruct (analyze_elf_success _ _ _ _ _ _ _ _ Ea) as (Hok & Han).
    assert (pid s' = pid s /\ bin_path s' = bin_path s /\
            lib_path s' = lib_path s /\
            min_raddr s' = min_raddr s /\ max_raddr s' = max_raddr s /\
            elf (proc_map s') = elf (proc_map s) /\
            heap (proc_map s') = heap (proc_map s)) as Hframe.
    { destruct Han as [Han | Han]; eapply analyze_elf_class_frame; exact Han. }
    destruct Hframe as (_ & Hb & Hl & Hmin & Hmax & Helf & Hhp).
    split; [exists lines; auto|].
    split; [unfold has_path in *; rewrite Hb, Hl; exact Hpath|].
    repeat (split; [assumption|]).
    split.
    + rewrite analyze_elf_world. cbn [austin_errno set_ehdr_v].
      rewrite copy_memory_world. cbv zeta. fold (header_reply k s).
      rewrite Hok, Hw. reflexivity.
    + exists seen. split; [|exact Han].
      destruct Han as [Han | Han];
        eapply analysis_success_resolved; exact Han.
Qed.

Lemma init_succeeds_only_on_a_loaded_and_analysed_target_witness :
  let mf := MapsLines [exe_line; heap_line] in
  let r := _py_proc__init check_sym_py demo_kernel demo_fs mf 400 self0
             after_first_call in
  fst r = Done (SUCCESS, analysed64) /\
  (exists lines,
      mf = MapsLines lines /\
      Exists (fun e => heap_line_p e = true) lines /\
      Exists (fun e => candidate demo_fs e = true) lines) /\
  has_path analysed64 /\
  issued (snd r) = issued after_first_call ++ [header_read attached] /\
  fst (_py_proc__init check_sym_py demo_kernel demo_fs mf 400 self0 world0)
  = Done (FAIL, attached).
Proof.
  cbv zeta.
  assert (fst (_py_proc__init check_sym_py demo_kernel demo_fs
                 (MapsLines [exe_line; heap_line]) 400 self0 after_first_call)
          = Done (SUCCESS, analysed64)) as H by (vm_compute; reflexivity).
  destruct (init_succeeds_only_on_a_loaded_and_analysed_target check_sym_py
              demo_kernel demo_fs (MapsLines [exe_line; heap_line]) 400%nat self0
              after_first_call) as (_ & Hread & Hsucc).
  destruct (Hsucc analysed64 H) as (Hlines & Hpath & _).
  split; [exact H|]. split; [exact Hlines|]. split; [exact Hpath|].
  split; [exact (Hread eq_refl) | vm_compute; reflexivity].
Defined.

(* ------------------------------------------------------------------------- *)
(** ** The resident memory *)

Lemma to_i64_small x : - 2 ^ 63 <= x < 2 ^ 63 -> to_i64 x = x.
Proof. intros H. unfold to_i64. rewrite Z.mod_small; lia. Qed.

(** X16.  [_py_proc__get_resident_memory] issues no read of the target and
    first opens the statm file of the session.  When the file cannot be
    opened it returns -1 and stores [EPROCVM].  When [fscanf] does not read
    its two items it returns -1 without storing an error and without
    closing the stream; the stream is closed exactly when the two items
    were read.  In that case, with non-negative operands whose product fits
    in an [ssize_t], the result is [resident * page_size], which is not
    -1. *)
Theorem resident_memory_failures :
  forall pf self w,
    let path := statm_file (extra self) in
    let r := _py_proc__get_resident_memory pf self w in
    let m := fst (fst r) in
    let calls := snd (fst r) in
    issued (snd r) = issued w /\ ehdr_v (snd r) = ehdr_v w /\
    hd_error calls = Some (Fopen path) /\
    (pf path = StatmFopenFailed ->
     m = -1 /\ austin_errno (snd r) = Some EPROCVM /\ calls = [Fopen path]) /\
    (forall sc, pf path = StatmOpened sc ->
                austin_errno (snd r) = austin_errno w /\
                (In Fclose calls <-> sm_items sc = 2) /\
                (sm_items sc <> 2 -> m = -1)) /\
    (forall sc, pf path = StatmOpened sc -> sm_items sc = 2 ->
                0 <= sm_resident sc -> 0 <= page_size (extra self) ->
                sm_resident sc * page_size (extra self) < 2 ^ 63 ->
                m = sm_resident sc * page_size (extra self) /\ m <> -1).
Proof.
  intros pf self w path r m calls. subst m calls r.
  unfold _py_proc__get_resident_memory. fold path.
  destruct (pf path) as [|sc] eqn:E.
  - cbn. repeat split; try discriminate; auto.
  - destruct (sm_items sc =? 2) eqn:E2; cbn [negb fst snd].
    + apply Z.eqb_eq in E2.
      split; [reflexivity|]. split; [reflexivity|]. split; [reflexivity|].
      split; [discriminate|]. split.
      * intros sc' Hsc. inversion Hsc; subst sc'.
        split; [reflexivity|]. split; [|intros; contradiction].
        split; [intros _; exact E2|]. intros _. simpl. auto.
      * intros sc' Hsc _ H0 H1 H2. inversion Hsc; subst sc'.
        rewrite to_i64_small by nia. split; [reflexivity | nia].
    + apply Z.eqb_neq in E2.
      split; [reflexivity|]. split; [reflexivity|]. split; [reflexivity|].
      split; [discriminate|]. split.
      * intros sc' Hsc. inversion Hsc; subst sc'.
        split; [reflexivity|]. split; [|intros; reflexivity].
        split; [|intros; contradiction].
        simpl. intros [H | [H | []]]; discriminate H.
      * intros sc' Hsc H. inversion Hsc; subst sc'. contradiction.
Qed.

Lemma resident_memory_failures_witness :
  _py_proc__get_resident_memory demo_procfs (full_of 4242) world0
  = (4915200, [Fopen "/proc/4242/statm"; Fscanf; Fclose], world0) /\
  _py_proc__get_resident_memory demo_procfs (full_of 4243) world0
  = (-1, [Fopen "/proc/4243/statm"], set_error EPROCVM world0) /\
  _py_proc__get_resident_memory demo_procfs (full_of 1) world0
  = (-1, [Fopen "/proc/1/statm"; Fscanf], world0) /\
  (let r := _py_proc__get_resident_memory demo_procfs (full_of 4242) world0 in
   fst (fst r) = 1200 * 4096 /\ fst (fst r) <> -1).
Proof.
  split; [vm_compute; reflexivity|].
  split; [vm_compute; reflexivity|].
  split; [vm_compute; reflexivity|].
  destruct (resident_memory_failures demo_procfs (full_of 4242) world0)
    as (_ & _ & _ & _ & _ & H).
  refine (H {| sm_items := 2; sm_size := 2500; sm_resident := 1200 |} _ _ _ _ _).
  - vm_compute. reflexivity.
  - reflexivity.
  - vm_compute. discriminate.
  - vm_compute. discriminate.
  - vm_compute. reflexivity.
Defined.

(* ------------------------------------------------------------------------- *)
(** ** The end of [_py_proc__init] *)

Lemma analyze_elf_pid check_sym k fs fuel self w r s seen :
  fst (_py_proc__analyze_elf check_sym k fs fuel self w) = Done (r, s, seen) ->
  pid s = pid self.
Proof.
  rewrite analyze_elf_dispatch. cbv zeta. cbn [fst].
  destruct (negb _); [intros H; inversion H; reflexivity|].
  destruct (invalid_elf_format _); [intros H; inversion H; reflexivity|].
  destruct (_ =? ELFCLASS32).
  { intros H. apply analyze_elf_class_frame in H. apply H. }
  destruct (_ =? ELFCLASS64).
  { intros H. apply analyze_elf_class_frame in H. apply H. }
  intros H; inversion H; reflexivity.
Qed.

Lemma init_pid check_sym k fs mf fuel self w r s :
  fst (_py_proc__init check_sym k fs mf fuel self w) = Done (r, s) ->
  pid s = pid self.
Proof.
  rewrite init_unfold. cbv zeta.
  destruct (parse_maps_file_frame fs mf self w) as (Hpid & _).
  destruct (negb _); cbn [fst].
  - intros H. inversion H; subst. exact Hpid.
  - destruct (fst (_py_proc__analyze_elf check_sym k fs fuel _ _))
      as [[[r' s'] seen]| |] eqn:E; try discriminate.
    apply analyze_elf_pid in E.
    destruct (negb _); intros H; inversion H; subst; congruence.
Qed.

Lemma init_full_unfold check_sym k fs mf pf pagesize fuel self w :
  _py_proc__init_full check_sym k fs mf pf pagesize fuel self w =
  let i := _py_proc__init check_sym k fs mf fuel (proc self) w in
  match fst i with
  | Done (r, s) =>
      if negb (r =? 0) then (Done (FAIL, with_proc s self, []), snd i)
      else
        let self1 :=
          {| proc := s;
             extra := {| page_size := to_u32 pagesize;
                         statm_file := statm_path (pid s);
                         wait_thread_id := wait_thread_id (extra self) |};
             last_resident_memory := last_resident_memory self |} in
        let g := _py_proc__get_resident_memory pf self1 (snd i) in
        (Done (SUCCESS, with_last_resident_memory (fst (fst g)) self1,
               snd (fst g)), snd g)
  | Fault => (Fault, snd i)
  | OutOfFuel => (OutOfFuel, snd i)
  end.
Proof.
  unfold _py_proc__init_full. cbv zeta.
  destruct (_py_proc__init check_sym k fs mf fuel (proc self) w) as [o w1].
  cbn [fst snd]. destruct o as [[r s]| |]; try reflexivity.
  destruct (negb (r =? 0)); [reflexivity|].
  unfold with_extra, with_proc. cbn [proc extra last_resident_memory page_size
                                      statm_file wait_thread_id].
  destruct (_py_proc__get_resident_memory pf _ w1) as [[m calls] w2].
  reflexivity.
Qed.

(** X17.  The outcome of [_py_proc__init] does not depend on the statm
    file.  When the parse or the analysis fails, [extra] and
    [last_resident_memory] are left as they were and no stream is opened.
    Otherwise the result is [SUCCESS], [page_size] is the value of
    [getpagesize] as an [unsigned int], [statm_file] is the statm path of
    the [pid] the session was given (neither the parse nor the analysis
    change it), and [last_resident_memory] is what
    [_py_proc__get_resident_memory] returns: -1, with [EPROCVM] in the error
    slot of a successful initialisation, when the file cannot be opened. *)
Theorem init_succeeds_whatever_the_statm_file :
  forall check_sym k fs mf pf pagesize fuel self w,
    let i := _py_proc__init check_sym k fs mf fuel (proc self) w in
    let r := _py_proc__init_full check_sym k fs mf pf pagesize fuel self w in
    (forall s,
        fst i = Done (FAIL, s) ->
        r = (Done (FAIL, with_proc s self, []), snd i)) /\
    (forall s,
        fst i = Done (SUCCESS, s) ->
        exists m calls,
          fst r =
          Done (SUCCESS,
                {| proc := s;
                   extra := {| page_size := to_u32 pagesize;
                               statm_file := statm_path (pid (proc self));
                               wait_thread_id := wait_thread_id (extra self) |};
                   last_resident_memory := m |}, calls) /\
          hd_error calls = Some (Fopen (statm_path (pid (proc self)))) /\
          issued (snd r) = issued (snd i) /\
          (pf (statm_path (pid (proc self))) = StatmFopenFailed ->
           m = -1 /\ austin_errno (snd r) = Some EPROCVM) /\
          (forall sc,
              pf (statm_path (pid (proc self))) = StatmOpened sc ->
              austin_errno (snd r) = austin_errno (snd i) /\
              (sm_items sc <> 2 -> m = -1 /\ ~ In Fclose calls) /\
              (sm_items sc = 2 ->
               m = to_i64 (sm_resident sc * to_u32 pagesize)))).
Proof.
  intros check_sym k fs mf pf pagesize fuel self w i r. subst r.
  rewrite init_full_unfold. cbv zeta. fold i. split.
  - intros s H. rewrite H. reflexivity.
  - intros s H. rewrite H. unfold SUCCESS. cbn [negb Z.eqb fst snd].
    assert (pid s = pid (proc self)) as Hpid.
    { subst i. eapply init_pid. exact H. }
    rewrite Hpid.
    set (self1 := {| proc := s;
                     extra := {| page_size := to_u32 pagesize;
                                 statm_file := statm_path (pid (proc self));
                                 wait_thread_id := wait_thread_id (extra self) |};
                     last_resident_memory := last_resident_memory self |}).
    exists (fst (fst (_py_proc__get_resident_memory pf self1 (snd i)))),
           (snd (fst (_py_proc__get_resident_memory pf self1 (snd i)))).
    split; [reflexivity|].
    unfold _py_proc__get_resident_memory.
    change (statm_file (extra self1)) with (statm_path (pid (proc self))).
    change (page_size (extra self1)) with (to_u32 pagesize).
    destruct (pf (statm_path (pid (proc self)))) as [|sc].
    + cbn [fst snd hd_error]. split; [reflexivity|]. split; [reflexivity|].
      split; [auto | discriminate].
    + destruct (sm_items sc =? 2) eqn:E; cbn [negb fst snd hd_error].
      * apply Z.eqb_eq in E.
        split; [reflexivity|]. split; [reflexivity|]. split; [discriminate|].
        intros sc' Hsc. inversion Hsc; subst sc'.
        split; [reflexivity|]. split; [intros; contradiction | reflexivity].
      * apply Z.eqb_neq in E.
        split; [reflexivity|]. split; [reflexivity|]. split; [discriminate|].
        intros sc' Hsc. inversion Hsc; subst sc'.
        split; [reflexivity|]. split; [|intros; contradiction].
        intros _. split; [reflexivity|].
        simpl. intros [H1 | [H1 | []]]; discriminate H1.
Qed.

Lemma init_succeeds_whatever_the_statm_file_witness :
  let mf := MapsLines [exe_line; heap_line] in
  let closed : procfs := fun _ => StatmFopenFailed in
  let r := _py_proc__init_full check_sym_py demo_kernel demo_fs mf closed 4096
             400 full0 after_first_call in
  (exists m calls,
      fst r =
      Done (SUCCESS,
            {| proc := analysed64;
               extra := {| page_size := to_u32 4096;
                           statm_file := statm_path (pid (proc full0));
                           wait_thread_id := wait_thread_id (extra full0) |};
               last_resident_memory := m |}, calls) /\
      hd_error calls = Some (Fopen (statm_path (pid (proc full0)))) /\
      m = -1 /\ austin_errno (snd r) = Some EPROCVM) /\
  statm_path (pid (proc full0)) = "/proc/4242/statm"%string /\
  fst (_py_proc__init_full check_sym_py demo_kernel demo_fs mf demo_procfs 4096
         400 full0 after_first_call)
  = Done (SUCCESS,
          {| proc := analysed64;
             extra := {| page_size := 4096; statm_file := "/proc/4242/statm";
                         wait_thread_id := 0 |};
             last_resident_memory := 4915200 |},
          [Fopen "/proc/4242/statm"; Fscanf; Fclose]).
Proof.
  cbv zeta. split; [|split; vm_compute; reflexivity].
  destruct (init_succeeds_whatever_the_statm_file check_sym_py demo_kernel demo_fs
              (MapsLines [exe_line; heap_line]) (fun _ => StatmFopenFailed) 4096
              400%nat full0 after_first_call) as (_ & H).
  assert (fst (_py_proc__init check_sym_py demo_kernel demo_fs
                 (MapsLines [exe_line; heap_line]) 400 (proc full0)
                 after_first_call)
          = Done (SUCCESS, analysed64)) as Hi by (vm_compute; reflexivity).
  destruct (H analysed64 Hi) as (m & calls & Hr & Hc & _ & Hf & _).
  exists m, calls. destruct (Hf eq_refl) as (Hm & He). auto.
Defined.

(* ------------------------------------------------------------------------- *)
(** ** The names of the files under [/proc] *)

Lemma length_append s1 s2 :
  String.length (s1 ++ s2) = (String.length s1 + String.length s2)%nat.
Proof. induction s1 as [|c s1 IH]; simpl; [reflexivity | rewrite IH; reflexivity]. Qed.

Lemma print_u_length : forall fuel n acc k,
  0 <= n < 10 ^ Z.of_nat k -> (1 <= k)%nat ->
  (String.length (print_u fuel n acc) <= String.length acc + k)%nat.
Proof.
  induction fuel as [|fuel IH]; intros n acc k Hn Hk; simpl; [lia|].
  destruct (n / 10 =? 0) eqn:E.
  - simpl. lia.
  - apply Z.eqb_neq in E.
    destruct k as [|[|k]]; [lia| |].
    + exfalso. apply E. apply Z.div_small. simpl in Hn. lia.
    + specialize (IH (n / 10) (String (digit_char (n mod 10)) acc) (S k)).
      simpl String.length in IH.
      assert (0 <= n / 10 < 10 ^ Z.of_nat (S k)) as Hq.
      { split; [apply Z.div_pos; lia|].
        apply Z.div_lt_upper_bound; [lia|].
        replace (10 * 10 ^ Z.of_nat (S k)) with (10 ^ Z.of_nat (S (S k))); [lia|].
        rewrite (Nat2Z.inj_succ (S k)), Z.pow_succ_r by lia. reflexivity. }
      specialize (IH Hq ltac:(lia)). lia.
Qed.

Lemma print_d_length n :
  - 2 ^ 31 <= n < 2 ^ 31 -> (String.length (print_d n) <= 11)%nat.
Proof.
  intros H. unfold print_d.
  assert (10 ^ Z.of_nat 10 = 10000000000) as Hp by reflexivity.
  destruct (n <? 0) eqn:E.
  - apply Z.ltb_lt in E.
    change (String.length (String "-" (print_u 20 (- n) "")))
      with (S (String.length (print_u 20 (- n) ""))).
    pose proof (print_u_length 20 (- n) "" 10) as P.
    change (String.length "") with 0%nat in P.
    rewrite Hp in P. specialize (P ltac:(lia) ltac:(lia)). lia.
  - apply Z.ltb_ge in E.
    pose proof (print_u_length 20 n "" 10) as P.
    change (String.length "") with 0%nat in P.
    rewrite Hp in P. specialize (P ltac:(lia) ltac:(lia)). lia.
Qed.

Lemma digit_value_char d : 0 <= d < 10 -> digit_value (digit_char d) = d.
Proof.
  intros H. unfold digit_value, digit_char.
  rewrite nat_ascii_embedding by lia. lia.
Qed.

Lemma read_print_u : forall fuel n acc,
  0 <= n < 10 ^ Z.of_nat fuel ->
  read_u (print_u fuel n acc) 0 = read_u acc n.
Proof.
  induction fuel as [|fuel IH]; intros n acc Hn.
  - simpl in *. assert (n = 0) as -> by lia. reflexivity.
  - simpl print_u.
    pose proof (Z.mod_pos_bound n 10 ltac:(lia)) as Hm.
    pose proof (Z.div_mod n 10 ltac:(lia)) as Hd.
    destruct (n / 10 =? 0) eqn:E.
    + apply Z.eqb_eq in E. cbn [read_u]. rewrite digit_value_char by lia.
      f_equal. lia.
    + rewrite IH.
      * cbn [read_u]. rewrite digit_value_char by lia. f_equal. lia.
      * split; [apply Z.div_pos; lia|].
        apply Z.div_lt_upper_bound; [lia|].
        rewrite Nat2Z.inj_succ, Z.pow_succ_r in Hn by lia. lia.
Qed.

(** X18.  For every [pid] of type [int], the name that [sprintf] writes
    into [statm_file] (24 bytes) and the one that
    [_py_proc__parse_maps_file] writes into [file_name] (32 bytes) fit their
    buffers, the final [NUL] included; and the digits written for a
    non-negative [pid] read back as the [pid]. *)
Theorem proc_file_names_fit_their_buffers :
  forall pid_,
    - 2 ^ 31 <= pid_ < 2 ^ 31 ->
    Z.of_nat (String.length (statm_path pid_)) + 1 <= sizeof_statm_file /\
    Z.of_nat (String.length (maps_path pid_)) + 1 <= sizeof_file_name /\
    (0 <= pid_ -> read_u (print_d pid_) 0 = pid_).
Proof.
  intros pid_ H. pose proof (print_d_length pid_ H) as Hl.
  unfold statm_path, maps_path, sizeof_statm_file, sizeof_file_name.
  rewrite !length_append.
  change (String.length "/proc/") with 6%nat.
  change (String.length "/statm") with 6%nat.
  change (String.length "/maps") with 5%nat.
  split; [lia|]. split; [lia|].
  intros H0. unfold print_d.
  destruct (pid_ <? 0) eqn:E; [apply Z.ltb_lt in E; lia|].
  rewrite read_print_u; [reflexivity|].
  change (10 ^ Z.of_nat 20) with 100000000000000000000. lia.
Qed.

(** The longest name is that of the least [int]: it fills the 24 bytes of
    [statm_file], the final [NUL] included. *)
Lemma proc_file_names_fit_their_buffers_witness :
  (Z.of_nat (String.length (statm_path (-2147483648))) + 1 <= sizeof_statm_file /\
   Z.of_nat (String.length (maps_path (-2147483648))) + 1 <= sizeof_file_name /\
   (0 <= -2147483648 -> read_u (print_d (-2147483648)) 0 = -2147483648)) /\
  statm_path (-2147483648) = "/proc/-2147483648/statm"%string /\
  Z.of_nat (String.length (statm_path (-2147483648))) + 1 = sizeof_statm_file /\
  maps_path 4242 = "/proc/4242/maps"%string.
Proof.
  split; [|split; [|split]]; [|vm_compute; reflexivity..].
  apply (proc_file_names_fit_their_buffers (-2147483648)). lia.
Defined.

(* ------------------------------------------------------------------------- *)
(** ** The remote memory reader on the other systems *)

(** X19.  The Windows and the macOS branches of [copy_memory] issue one read
    per call and, like the Linux one, return success exactly when the size
    read, taken as an [ssize_t], equals [len].  On Windows the error slot
    is written exactly when that size is -1: whenever [ReadProcessMemory]
    fails, with [EPROCPERM] for [ERROR_ACCESS_DENIED], [EPROCNPID] for
    [ERROR_INVALID_HANDLE] and [EMEMCOPY] otherwise, and never after a call
    that succeeds and reports a size below 2^63, be the read complete or cut
    short.  On macOS the error slot is written exactly when
    [mach_vm_read_overwrite] fails, always with [EPROCNPID], and the call
    then fails.  On both systems a complete read is a success and a read cut
    short a failure, and both leave the error slot as it was. *)
Theorem copy_memory_on_windows_and_macos :
  (forall (k : win_kernel) pid_ addr len buf w,
      let reply := k pid_ addr len in
      let r := copy_memory_win k pid_ addr len buf w in
      issued (snd r)
      = issued w ++ [{| sc_pid := pid_; sc_addr := addr; sc_len := len |}] /\
      (fst (fst r) = 0 \/ fst (fst r) = 1) /\
      (fst (fst r) = 0 <-> win_result reply = len) /\
      austin_errno (snd r) =
      (if win_result reply =? -1
       then Some (if rpm_last_error reply =? ERROR_ACCESS_DENIED then EPROCPERM
                  else if rpm_last_error reply =? ERROR_INVALID_HANDLE
                       then EPROCNPID
                  else EMEMCOPY)
       else austin_errno w) /\
      (rpm_success reply = true -> 0 <= rpm_read reply < 2 ^ 63 ->
       win_result reply = rpm_read reply /\
       austin_errno (snd r) = austin_errno w /\
       (rpm_read reply = len -> fst (fst r) = 0) /\
       (rpm_read reply < len -> fst (fst r) = 1)) /\
      (rpm_success reply = false ->
       win_result reply = -1 /\
       austin_errno (snd r) =
       Some (if rpm_last_error reply =? ERROR_ACCESS_DENIED then EPROCPERM
             else if rpm_last_error reply =? ERROR_INVALID_HANDLE then EPROCNPID
             else EMEMCOPY) /\
       (len <> -1 -> fst (fst r) = 1))) /\
  (forall (k : mach_kernel) pid_ addr len buf w,
      let reply := k pid_ addr len in
      let r := copy_memory_mac k pid_ addr len buf w in
      issued (snd r)
      = issued w ++ [{| sc_pid := pid_; sc_addr := addr; sc_len := len |}] /\
      (fst (fst r) = 0 \/ fst (fst r) = 1) /\
      (fst (fst r) = 0 <->
       mach_kr reply = KERN_SUCCESS /\ to_i64 (mach_outsize reply) = len) /\
      austin_errno (snd r) =
      (if mach_kr reply =? KERN_SUCCESS then austin_errno w
       else Some EPROCNPID) /\
      (mach_kr reply <> KERN_SUCCESS ->
       fst (fst r) = 1 /\ austin_errno (snd r) = Some EPROCNPID) /\
      (mach_kr reply = KERN_SUCCESS -> 0 <= mach_outsize reply < 2 ^ 63 ->
       austin_errno (snd r) = austin_errno w /\
       (mach_outsize reply = len -> fst (fst r) = 0) /\
       (mach_outsize reply < len -> fst (fst r) = 1))).
Proof.
  split.
  - intros k pid_ addr len buf w reply r. subst r.
    unfold copy_memory_win. fold reply. cbv zeta. cbn [fst snd].
    assert (austin_errno
              (if win_result reply =? -1
               then
                 if rpm_last_error reply =? ERROR_ACCESS_DENIED
                 then set_error EPROCPERM
                        (log_syscall
                           {| sc_pid := pid_; sc_addr := addr; sc_len := len |} w)
                 else
                   if rpm_last_error reply =? ERROR_INVALID_HANDLE
                   then set_error EPROCNPID
                          (log_syscall
                             {| sc_pid := pid_; sc_addr := addr; sc_len := len |}
                             w)
                   else set_error EMEMCOPY
                          (log_syscall
                             {| sc_pid := pid_; sc_addr := addr; sc_len := len |}
                             w)
               else log_syscall
                      {| sc_pid := pid_; sc_addr := addr; sc_len := len |} w)
            = (if win_result reply =? -1
               then Some (if rpm_last_error reply =? ERROR_ACCESS_DENIED
                          then EPROCPERM
                          else if rpm_last_error reply =? ERROR_INVALID_HANDLE
                               then EPROCNPID
                          else EMEMCOPY)
               else austin_errno w)) as Herr.
    { destruct (win_result reply =? -1); [|reflexivity].
      destruct (_ =? ERROR_ACCESS_DENIED); [reflexivity|].
      destruct (_ =? ERROR_INVALID_HANDLE); reflexivity. }
    split.
    { destruct (win_result reply =? -1); [|reflexivity].
      destruct (_ =? ERROR_ACCESS_DENIED); [reflexivity|].
      destruct (_ =? ERROR_INVALID_HANDLE); reflexivity. }
    split; [destruct (win_result reply =? len); auto|].
    split.
    { destruct (win_result reply =? len) eqn:E; cbn.
      - apply Z.eqb_eq in E. tauto.
      - apply Z.eqb_neq in E. split; [discriminate | tauto]. }
    split; [exact Herr|].
    split.
    + intros Hs Hr.
      assert (win_result reply = rpm_read reply) as Hres.
      { unfold win_result. rewrite Hs. apply to_i64_small. lia. }
      split; [exact Hres|]. rewrite Herr, Hres.
      destruct (rpm_read reply =? -1) eqn:E1; [apply Z.eqb_eq in E1; lia|].
      split; [reflexivity|]. split.
      * intros ->. rewrite Z.eqb_refl. reflexivity.
      * intros Hlt. destruct (rpm_read reply =? len) eqn:E;
          [apply Z.eqb_eq in E; lia | reflexivity].
    + intros Hs.
      assert (win_result reply = -1) as Hres by (unfold win_result; rewrite Hs; reflexivity).
      split; [exact Hres|]. rewrite Herr, Hres. split; [reflexivity|].
      intros Hl. destruct (-1 =? len) eqn:E; [apply Z.eqb_eq in E; lia|].
      reflexivity.
  - intros k pid_ addr len buf w reply r. subst r.
    unfold copy_memory_mac. fold reply. cbv zeta.
    destruct (mach_kr reply =? KERN_SUCCESS) eqn:Ek; cbn [negb fst snd].
    + apply Z.eqb_eq in Ek.
      split; [reflexivity|].
      split; [destruct (_ =? len); auto|].
      split.
      { destruct (to_i64 (mach_outsize reply) =? len) eqn:E; cbn.
        - apply Z.eqb_eq in E. tauto.
        - apply Z.eqb_neq in E. split; [discriminate | tauto]. }
      split; [reflexivity|].
      split; [intros H; contradiction|].
      intros _ Hr. rewrite to_i64_small by lia.
      split; [reflexivity|]. split.
      * intros ->. rewrite Z.eqb_refl. reflexivity.
      * intros Hlt. destruct (mach_outsize reply =? len) eqn:E;
          [apply Z.eqb_eq in E; lia | reflexivity].
    + apply Z.eqb_neq in Ek.
      split; [reflexivity|]. split; [right; reflexivity|].
      split; [split; [discriminate | tauto]|].
      split; [reflexivity|].
      split; [auto | intros H; contradiction].
Qed.

(** A read of 8 bytes: cut short after 3 on either system, complete on
    Windows, and on a task that is gone. *)
Lemma copy_memory_on_windows_and_macos_witness :
  (let r := copy_memory_win win_short 4242 29360128 8 (repeat 0 8) world0 in
   fst (fst r) = 1 /\ austin_errno (snd r) = austin_errno world0) /\
  (let r := copy_memory_win win_full 4242 29360128 8 (repeat 0 8) world0 in
   fst (fst r) = 0 /\ austin_errno (snd r) = austin_errno world0 /\
   snd (fst r) = [1; 2; 3; 4; 5; 6; 7; 8]) /\
  (let r := copy_memory_mac mach_gone 4242 29360128 8 (repeat 0 8) world0 in
   fst (fst r) = 1 /\ austin_errno (snd r) = Some EPROCNPID) /\
  (let r := copy_memory_mac mach_short 4242 29360128 8 (repeat 0 8) world0 in
   fst (fst r) = 1 /\ austin_errno (snd r) = None /\
   snd (fst r) = [1; 2; 3; 0; 0; 0; 0; 0]).
Proof.
  destruct copy_memory_on_windows_and_macos as (W & M).
  split; [|split; [|split]].
  - destruct (W win_short 4242 29360128 8 (repeat 0 8) world0)
      as (_ & _ & _ & _ & H & _).
    destruct H as (_ & He & _ & Hs);
      [reflexivity | vm_compute; split; [discriminate | reflexivity]|].
    split; [apply Hs; reflexivity | exact He].
  - destruct (W win_full 4242 29360128 8 (repeat 0 8) world0)
      as (_ & _ & _ & _ & H & _).
    destruct H as (_ & He & Hc & _);
      [reflexivity | vm_compute; split; [discriminate | reflexivity]|].
    split; [apply Hc; reflexivity|]. split; [exact He | reflexivity].
  - destruct (M mach_gone 4242 29360128 8 (repeat 0 8) world0)
      as (_ & _ & _ & _ & H & _).
    apply H. vm_compute. discriminate.
  - vm_compute. repeat split.
Defined.

(* ------------------------------------------------------------------------- *)
(** ** The scan of the dynamic symbols, in full *)








